(** * The layers benchmark harness of integration_tests/benchmarks

    A shallow embedding of the browser benchmark test
    ([describe('TF.js Layers Benchmarks')]) and of the helper functions it
    calls, followed by the properties the specification states about them.

    Conventions of the embedding.

    - A JavaScript object used as a dictionary is the list of its own
      enumerable properties, in the order in which [for ... in] and
      [Object.keys] enumerate them; property names are unique in such a list
      ([wfObject]).
    - The harness talks to the outside (Firestore, the model files, the
      TensorFlow.js engine, the clocks).  Every such call is recorded in the
      [history] of the state, and what the outside answers is given by a
      [World]: a family of functions of the history so far.
    - A thrown JavaScript exception is the [Throw] result; the state reached
      when the exception leaves the harness is kept, so that the tensors that
      are still alive can be inspected.
    - Of the numbers, a batch size and an ending timestamp are JavaScript
      numbers that may fail to be integers or to be finite ([JS.number]);
      clock readings and durations are rationals; iteration counts are
      natural numbers.
    - The engine keeps tensors of its own alive (the weights of a model it
      built, the state of an optimizer); how many is an answer of the
      [World], and the harness never disposes of them.
    - The reference run [pyRun] is an object of the suite log that the test
      updates in place; every pair is visited once, so the update is the
      updated record that is pushed onto [pyRuns]. *)

From Stdlib Require Import List String Ascii Bool Arith ZArith QArith Qabs Lia.
From Stdlib Require Import Permutation Sorted.
Import ListNotations.

#[local] Open Scope string_scope.
#[local] Open Scope list_scope.

(** ** JavaScript numbers *)

Module JS.

(** The numbers the harness handles: a finite value, or one of the three
  non-finite values a division by zero or a JSON overflow produces. *)
Inductive number : Type :=
| Num (q : Q)
| NaN
| PosInfinity
| NegInfinity.

(** [Number.isInteger(x)]. *)
Definition Number_isInteger (x : number) : bool :=
match x with
| Num q => Pos.eqb (Qden (Qred q)) 1
| _ => false
end.

(** [x > 0]. *)
Definition gt0 (x : number) : bool :=
match x with
| Num q => match Qcompare q 0 with Gt => true | _ => false end
| PosInfinity => true
| _ => false
end.

(** [t / n] for a finite [t] and an iteration count [n]. *)
Definition div (t : Q) (n : nat) : number :=
match n with
| O => match Qcompare t 0 with
       | Eq => NaN
       | Gt => PosInfinity
       | Lt => NegInfinity
       end
| S _ => Num (t / inject_Z (Z.of_nat n))
end.

(** [x - y]. *)
Definition sub (x y : number) : number :=
match x, y with
| NaN, _ | _, NaN => NaN
| Num a, Num b => Num (a - b)
| Num _, PosInfinity => NegInfinity
| Num _, NegInfinity => PosInfinity
| PosInfinity, PosInfinity => NaN
| PosInfinity, _ => PosInfinity
| NegInfinity, NegInfinity => NaN
| NegInfinity, _ => NegInfinity
end.

(** A whole number as a JavaScript number. *)
Definition ofZ (z : Z) : number := Num (inject_Z z).

(** The integral part of a finite number, rounding towards zero. *)
Definition truncate (q : Q) : Z := Z.quot (Qnum q) (Zpos (Qden q)).

(** The largest time value of a [Date], in milliseconds from the epoch. *)
Definition maxTime : Q := 8640000000000000.

(** [TimeClip(t)], the time value of [new Date(t)]: [NaN] unless [t] is
  finite and at most [maxTime] away from the epoch, and then [t] without
  its fraction. *)
Definition TimeClip (t : number) : number :=
match t with
| Num q => if Qle_bool (Qabs q) maxTime then ofZ (truncate q) else NaN
| _ => NaN
end.

(** How [Array.prototype.sort] reads the result [v] of its comparison
  function: [v <= 0], where a [NaN] result counts as [0]. *)
Definition notAfter (v : number) : bool :=
match v with
| Num q => Qle_bool q 0
| NaN => true
| NegInfinity => true
| PosInfinity => false
end.

(** What [MAP[name]] yields for an object literal [MAP] of strings: the
  string of an own property, a member inherited from [Object.prototype]
  (not a string), or [undefined]. *)
Inductive lookup : Type :=
| Own (value : string)
| Inherited (name : string)
| Undefined.

(** The property names every object inherits from [Object.prototype]. *)
Definition Object_prototype_names : list string :=
["constructor"; "toString"; "toLocaleString"; "valueOf"; "hasOwnProperty";
 "isPrototypeOf"; "propertyIsEnumerable"; "__proto__"; "__defineGetter__";
 "__defineSetter__"; "__lookupGetter__"; "__lookupSetter__"]%string.

(** [s.toLowerCase()] on ASCII strings. *)
Definition lowerAscii (c : ascii) : ascii :=
let n := nat_of_ascii c in
if (65 <=? n)%nat && (n <=? 90)%nat then ascii_of_nat (n + 32) else c.

Fixpoint toLowerCase (s : string) : string :=
match s with
| EmptyString => EmptyString
| String c r => String (lowerAscii c) (toLowerCase r)
end.

End JS.

(** ** Objects as ordered dictionaries *)

Section Objects.

Context {V : Type}.

Definition Object := list (string * V).

(** [Object.keys(o)], also the order of [for (const k in o)]. *)
Definition Object_keys (o : list (string * V)) : list string := map fst o.

(** [o[k]]; [None] stands for [undefined]. *)
Fixpoint get (o : list (string * V)) (k : string) : option V :=
  match o with
  | [] => None
  | (k', v) :: r => if String.eqb k' k then Some v else get r k
  end.

Definition wfObject (o : list (string * V)) : Prop := NoDup (Object_keys o).

End Objects.

Arguments Object V : clear implicits.

(** ** Data model *)

(** Modelled from the spec: the [ModelBenchmarkRun] and
    [ModelTrainingBenchmarkRun] interfaces of [../types], which are not part
    of the sources at hand.  The fields are the ones the harness reads and
    writes.  Identifiers are absent ([None]) until the harness sets them;
    iteration counts are counts; [endingTimestampMs] is a number (of
    milliseconds since the epoch, when it is a time value); [timesMs] is
    optional; [loss] and [optimizer] are the two extra fields of a training
    run. *)
Record ModelBenchmarkRun : Type := mkRun {
  taskId : option string;
  taskType : string;
  modelName : string;
  functionName : string;
  batchSize : JS.number;
  versionSetId : option string;
  environmentId : option string;
  numWarmUpIterations : nat;
  numBenchmarkedIterations : nat;
  timesMs : option (list Q);
  averageTimeMs : JS.number;
  endingTimestampMs : JS.number;
  loss : option string;
  optimizer : option string
}.

(** [pyRun.taskId = taskId] and [pyRun.environmentId = pyEnvironmentId]. *)
Definition set_taskId (r : ModelBenchmarkRun) (id : string) : ModelBenchmarkRun :=
  mkRun (Some id) (taskType r) (modelName r) (functionName r) (batchSize r)
        (versionSetId r) (environmentId r) (numWarmUpIterations r)
        (numBenchmarkedIterations r) (timesMs r) (averageTimeMs r)
        (endingTimestampMs r) (loss r) (optimizer r).

Definition set_environmentId (r : ModelBenchmarkRun) (id : string) : ModelBenchmarkRun :=
  mkRun (taskId r) (taskType r) (modelName r) (functionName r) (batchSize r)
        (versionSetId r) (Some id) (numWarmUpIterations r)
        (numBenchmarkedIterations r) (timesMs r) (averageTimeMs r)
        (endingTimestampMs r) (loss r) (optimizer r).

(** Modelled from the spec: the environment descriptions of [../types]
    (browser: type and user agent; Python: an opaque description) and the
    version set. *)
Inductive EnvironmentInfo : Type :=
| BrowserEnvironmentInfo (type userAgent : string)
| PythonEnvironmentInfo (description : string).

Record VersionSet : Type := mkVersionSet { versions : string }.

Definition MultiFunctionModelTaskLog := Object ModelBenchmarkRun.

Record SuiteLog : Type := mkSuiteLog {
  data : Object MultiFunctionModelTaskLog;
  environmentInfo : EnvironmentInfo
}.

(** A suite log as [JSON.parse] builds it: property names are unique, in
    the outer object and in every inner one. *)
Definition wfSuiteLog (suiteLog : SuiteLog) : Prop :=
  wfObject (data suiteLog) /\
  Forall (fun e => wfObject (snd e)) (data suiteLog).

(** ** Chronological ordering *)

(** [new Date(t).getTime()]: the time value of the date, which is [NaN]
    for a [t] that is no time value. *)
Definition Date_getTime (t : JS.number) : JS.number := JS.TimeClip t.

Record NameAndTimestamp : Type := mkNT {
  nt_modelName : string;
  nt_timestamp : JS.number
}.

(** [Array.prototype.sort(compareFn)]: a stable sort by insertion; [x]
    stays before [y] when [compareFn(x, y)] is read as at most [0]. *)
Section ArraySort.

Context {A : Type} (compareFn : A -> A -> JS.number).

Fixpoint sort_insert (x : A) (l : list A) : list A :=
  match l with
  | [] => [x]
  | y :: r => if JS.notAfter (compareFn x y) then x :: y :: r
              else y :: sort_insert x r
  end.

Fixpoint Array_sort (l : list A) : list A :=
  match l with
  | [] => []
  | x :: r => sort_insert x (Array_sort r)
  end.

End ArraySort.

(** The [for (const modelName in suiteLog.data)] loop: one entry per model
    that has a function, in enumeration order.  [entries] is the object,
    so [suiteLog.data[modelName]] is the value of the entry at hand, and
    [taskGroupLog[functionNames[0]]] is the value of its first property. *)
Fixpoint modelNamesAndTimestamps
    (entries : Object MultiFunctionModelTaskLog) : list NameAndTimestamp :=
  match entries with
  | [] => []
  | (name, taskGroupLog) :: rest =>
      match taskGroupLog with
      | [] => modelNamesAndTimestamps rest
      | (_, run) :: _ =>
          mkNT name (Date_getTime (endingTimestampMs run))
            :: modelNamesAndTimestamps rest
      end
  end.

Definition getChronologicalModelNames (suiteLog : SuiteLog) : list string :=
  map nt_modelName
    (Array_sort (fun x y => JS.sub (nt_timestamp x) (nt_timestamp y))
       (modelNamesAndTimestamps (data suiteLog))).

(** ** The outside world, the state and the exceptions *)

(** [tf.Tensor|tf.Tensor[]]: a tensor is known by its identity in the
    engine; its shape and values play no role in the harness. *)
Inductive Tensors : Type :=
| Tensor (id : nat)
| TensorArray (ids : list nat).

Definition tensorIds (t : Tensors) : list nat :=
  match t with
  | Tensor id => [id]
  | TensorArray ids => ids
  end.

(** [if (xs.length === 1) { xs = xs[0]; }] *)
Definition singletonOrArray (ids : list nat) : Tensors :=
  match ids with
  | [id] => Tensor id
  | _ => TensorArray ids
  end.

(** What the harness uses of a [tf.Model]: the symbolic inputs and outputs
    (each with its shape, [None] for an undetermined dimension). *)
Record Model : Type := mkModel {
  inputs : list (list (option nat));
  outputs : list (list (option nat))
}.

(** The shape handed to [tf.randomUniform]: its dimensions, [None] for a
    [null] one. *)
Definition Shape : Type := list (option JS.number).

(** The calls that leave the harness, each with what came back.  Output of
    [console.log] is left out; [console.warn] is kept. *)
Inductive Event : Type :=
| EvAddEnvironmentInfo (info : EnvironmentInfo) (id : option string)
| EvAddVersionSet (versionSet : VersionSet) (id : option string)
| EvFetch (url : string)
| EvLoadModel (modelName : string) (loaded : bool)
| EvAddOrGetTaskId (taskType modelName functionName : string) (id : option string)
| EvPredict (xs : Tensors) (ok : bool)
| EvCompile (loss optimizer : JS.lookup) (ok : bool)
| EvFit (xs ys : Tensors) (epochs : nat) (ok : bool)
| EvNow (t : Q)
| EvDate (t : JS.number)
| EvWarn (message : string)
| EvAddBenchmarkRuns (runs : list ModelBenchmarkRun) (ok : bool).

(** The answers of the outside, each a function of the calls made so far:
    the browser and the detection library ([None] is the [null] it answers
    for a user agent it does not recognise), the Firestore client of
    [../firestore] (absent from the sources: [None] or [false] is a
    rejected promise), the model files, the TensorFlow.js engine ([false]:
    the call throws) and the two clocks.  [tf_randomUniform_creates] tells
    whether the engine creates a tensor of the shape asked for, and
    [tf_kept] how many tensors of its own the engine keeps alive after the
    call recorded last. *)
Record World : Type := mkWorld {
  navigator_userAgent : string;
  detectBrowser_detectOS : string -> option string;
  detectBrowser_detect_name : option string;
  tf_version : string;
  firestore_addEnvironmentInfo : list Event -> EnvironmentInfo -> option string;
  firestore_addVersionSet : list Event -> VersionSet -> option string;
  firestore_addOrGetTaskId : list Event -> string -> string -> string -> option string;
  firestore_addBenchmarkRuns : list Event -> list ModelBenchmarkRun -> bool;
  tf_modelFromJSON : list Event -> string -> option Model;
  tf_predict : list Event -> Model -> Tensors -> bool;
  tf_compile : list Event -> Model -> JS.lookup -> JS.lookup -> bool;
  tf_fit : list Event -> Model -> Tensors -> Tensors -> nat -> bool;
  tf_randomUniform_creates : list Event -> Shape -> bool;
  tf_kept : list Event -> nat;
  tf_util_now : list Event -> Q;
  Date_now : list Event -> Z
}.

(** The state the harness runs in: the calls made so far, the tensors that
    are alive in the engine and the next fresh tensor identity. *)
Record State : Type := mkState {
  history : list Event;
  liveTensors : list nat;
  nextTensorId : nat
}.

Definition initialState : State := mkState [] [] 0.

Inductive Exception : Type :=
| BatchSizeError (batchSize : JS.number)
| NoTaskError (modelName : string)
| TypeError
| RandomUniformError (shape : Shape)
| EmptyMeanError
| RejectedError (call : Event).

Inductive Result (A : Type) : Type :=
| Return (a : A)
| Throw (e : Exception).

Arguments Return {A} a.
Arguments Throw {A} e.

(** A computation of the harness: from a state to a result and the state
    reached, also when an exception is thrown. *)
Definition M (A : Type) : Type := State -> Result A * State.

Definition ret {A} (a : A) : M A := fun s => (Return a, s).

Definition throw {A} (e : Exception) : M A := fun s => (Throw e, s).

Definition bind {A B} (m : M A) (k : A -> M B) : M B :=
  fun s =>
    match m s with
    | (Return a, s') => k a s'
    | (Throw e, s') => (Throw e, s')
    end.

Declare Scope harness_scope.
Delimit Scope harness_scope with harness.
Notation "x <- m ;; k" := (bind m (fun x => k))
  (at level 61, m at next level, right associativity) : harness_scope.
Notation "m ;; k" := (bind m (fun _ => k))
  (at level 61, right associativity) : harness_scope.
#[local] Open Scope harness_scope.

(** The state after one more recorded call. *)
Definition recorded (s : State) (e : Event) : State :=
  mkState (history s ++ [e]) (liveTensors s) (nextTensorId s).

(** The state after [n] fresh tensors were created, and after the tensors
    [ids] were disposed of. *)
Definition allocated (s : State) (n : nat) : State :=
  mkState (history s) (liveTensors s ++ seq (nextTensorId s) n) (nextTensorId s + n).

Definition disposed (s : State) (ids : list nat) : State :=
  mkState (history s)
          (filter (fun t => negb (existsb (Nat.eqb t) ids)) (liveTensors s))
          (nextTensorId s).

(** Record a call in the history. *)
Definition emit (e : Event) : M unit := fun s => (Return tt, recorded s e).

(** A call whose answer is an optional value: the answer is looked up at
    the current history, the call is recorded, and an absent answer is a
    rejection. *)
Definition call {A} (answer : list Event -> option A) (ev : option A -> Event) : M A :=
  fun s =>
    let a := answer (history s) in
    let s' := recorded s (ev a) in
    match a with
    | Some v => (Return v, s')
    | None => (Throw (RejectedError (ev a)), s')
    end.

(** A call that either completes or is rejected. *)
Definition callOk (answer : list Event -> bool) (ev : bool -> Event) : M unit :=
  fun s =>
    let ok := answer (history s) in
    let s' := recorded s (ev ok) in
    if ok then (Return tt, s') else (Throw (RejectedError (ev ok)), s').

(** A reading of a clock. *)
Definition readClock {A} (clock : list Event -> A) (ev : A -> Event) : M A :=
  fun s =>
    let t := clock (history s) in
    (Return t, recorded s (ev t)).

(** [for (let n = 0; n < count; ++n) body], with the local variables the
    body updates passed along. *)
Fixpoint forCount {A} (count : nat) (body : A -> M A) (a : A) : M A :=
  match count with
  | O => ret a
  | S n => a' <- body a ;; forCount n body a'
  end.

(** [for (const x of l) body] and [for (i = 0; i < l.length; ++i) body]. *)
Fixpoint forEach {A X} (l : list X) (body : X -> A -> M A) (a : A) : M A :=
  match l with
  | [] => ret a
  | x :: r => a' <- body x a ;; forEach r body a'
  end.

(** ** The engine and the helpers of the harness *)

(** A tensor the engine creates: one live tensor more, with a fresh
    identity. *)
Definition newTensor : M nat :=
  fun s => (Return (nextTensorId s), allocated s 1).

(** [tf.randomUniform(shape)]: a new tensor, unless the engine refuses the
    shape and throws. *)
Definition tf_randomUniform (w : World) (shape : Shape) : M nat :=
  fun s =>
    if tf_randomUniform_creates w (history s) shape
    then newTensor s
    else (Throw (RandomUniformError shape), s).

(** [tf.tidy(fn)]: when [fn] is left, by a return or by an exception, the
    tensors created since it was entered are disposed of, except those in
    the value returned ([kept]). *)
Definition tf_tidy {A} (kept : A -> list nat) (fn : M A) : M A :=
  fun s =>
    let result := fn s in
    let s' := snd result in
    let survives (t : nat) : bool :=
      (t <? nextTensorId s)%nat ||
      match fst result with
      | Return a => existsb (Nat.eqb t) (kept a)
      | Throw _ => false
      end in
    (fst result,
     mkState (history s') (filter survives (liveTensors s')) (nextTensorId s')).

(** [tf.dispose(container)] for the tensors [ids] of the container. *)
Definition tf_dispose (ids : list nat) : M unit :=
  fun s => (Return tt, disposed s ids).

(** The tensors the engine keeps alive for itself after the call recorded
    last: they are created and never handed to the harness. *)
Definition engineKeeps (w : World) : M unit :=
  fun s => (Return tt, allocated s (tf_kept w (history s))).

(** [model.predict(xs)]: when it returns, one new tensor per model output. *)
Definition model_predict (w : World) (model : Model) (xs : Tensors) : M Tensors :=
  callOk (fun h => tf_predict w h model xs) (EvPredict xs) ;;
  ids <- forEach (outputs model)
           (fun _ ids => t <- newTensor ;; ret (ids ++ [t])) [] ;;
  ret (singletonOrArray ids).

(** [model.compile({loss, optimizer})]. *)
Definition model_compile (w : World) (model : Model)
    (loss optimizer : JS.lookup) : M unit :=
  callOk (fun h => tf_compile w h model loss optimizer) (EvCompile loss optimizer) ;;
  engineKeeps w.

(** [model.fit(xs, ys, {epochs, yieldEvery: 'never'})]. *)
Definition model_fit (w : World) (model : Model) (xs ys : Tensors)
    (epochs : nat) : M unit :=
  callOk (fun h => tf_fit w h model xs ys epochs) (EvFit xs ys epochs) ;;
  engineKeeps w.

Definition now (w : World) : M Q := readClock (tf_util_now w) EvNow.

(** [new Date().getTime()]: the current time, a whole number of
    milliseconds. *)
Definition Date_getTime_now (w : World) : M JS.number :=
  readClock (fun h => JS.ofZ (Date_now w h)) EvDate.

(** [math.mean(ts)] of mathjs: the sum over the count; an empty array is
    an error. *)
Definition math_mean (ts : list Q) : M Q :=
  match ts with
  | [] => throw EmptyMeanError
  | _ => ret (fold_left Qplus ts 0 / inject_Z (Z.of_nat (List.length ts)))%Q
  end.

(** [[batchSize].concat(symbolic.shape.slice(1))]. *)
Definition batchShape (batchSize : JS.number) (shape : list (option nat)) : Shape :=
  Some batchSize :: map (option_map (fun d => JS.ofZ (Z.of_nat d))) (tl shape).

Definition getRandomInputsAndOutputs (w : World) (model : Model)
    (batchSize : JS.number) : M (Tensors * Tensors) :=
  tf_tidy (fun xsys => tensorIds (fst xsys) ++ tensorIds (snd xsys))
    (xs <- forEach (inputs model)
             (fun input xs =>
                t <- tf_randomUniform w (batchShape batchSize input) ;;
                ret (xs ++ [t])) [] ;;
     ys <- forEach (outputs model)
             (fun output ys =>
                t <- tf_randomUniform w (batchShape batchSize output) ;;
                ret (ys ++ [t])) [] ;;
     ret (singletonOrArray xs, singletonOrArray ys)).

(** [await out.data()] has no effect the harness can see; what is left is
    the [tf.dispose(tensors)]. *)
Definition syncDataAndDispose (tensors : Tensors) : M unit :=
  tf_dispose (tensorIds tensors).

(** Reading a property of [x]: a [TypeError] when [x] is [null]. *)
Definition nonNull {A} (x : option A) : M A :=
  match x with
  | Some a => ret a
  | None => throw TypeError
  end.

Definition getBrowserEnvironmentType (w : World) : M string :=
  os <- nonNull (detectBrowser_detectOS w (navigator_userAgent w)) ;;
  let osName := JS.toLowerCase os in
  browser <- nonNull (detectBrowser_detect_name w) ;;
  let browserName := JS.toLowerCase browser in
  ret (browserName ++ "-" ++ osName)%string.

Definition getBrowserEnvironmentInfo (w : World) : M EnvironmentInfo :=
  type <- getBrowserEnvironmentType w ;;
  ret (BrowserEnvironmentInfo type (navigator_userAgent w)).

Definition positiveInteger (batchSize : JS.number) : bool :=
  JS.Number_isInteger batchSize && JS.gt0 batchSize.

Definition checkBatchSize (batchSize : JS.number) : M unit :=
  if negb (positiveInteger batchSize)
  then throw (BatchSizeError batchSize)
  else ret tt.

Definition OPTIMIZER_MAP : Object string :=
  [("AdamOptimizer", "adam");
   ("RMSPropOptimizer", "rmsprop");
   ("GradientDescentOptimizer", "sgd")].

Definition LOSS_MAP : Object string :=
  [("mean_squared_error", "meanSquaredError");
   ("categorical_crossentropy", "categoricalCrossentropy")].

(** [MAP[name]] for an object literal [MAP]: the own property of that
    name, else the member of that name inherited from [Object.prototype],
    else [undefined]; an absent [name] reads the property ["undefined"]. *)
Definition getNamed (map : Object string) (name : option string) : JS.lookup :=
  let key := match name with
             | Some n => n
             | None => "undefined"
             end in
  match get map key with
  | Some value => JS.Own value
  | None => if existsb (String.eqb key) JS.Object_prototype_names
            then JS.Inherited key
            else JS.Undefined
  end.

Definition DATA_SERVER_ROOT : string := "./base/data".
Definition BENCHMARKS_JSON_URL : string :=
  (DATA_SERVER_ROOT ++ "/benchmarks.json")%string.

Definition loadModel (w : World) (modelName : string) : M Model :=
  emit (EvFetch (DATA_SERVER_ROOT ++ "/" ++ modelName ++ "/model.json")%string) ;;
  model <- call (fun h => tf_modelFromJSON w h modelName)
             (fun m => EvLoadModel modelName
                         (match m with Some _ => true | None => false end)) ;;
  engineKeeps w ;;
  ret model.

Definition addEnvironmentInfoToFirestore (w : World) (info : EnvironmentInfo) : M string :=
  call (fun h => firestore_addEnvironmentInfo w h info) (EvAddEnvironmentInfo info).

Definition addVersionSetToFirestore (w : World) (versionSet : VersionSet) : M string :=
  call (fun h => firestore_addVersionSet w h versionSet) (EvAddVersionSet versionSet).

Definition addOrGetTaskId (w : World) (taskType modelName functionName : string) : M string :=
  call (fun h => firestore_addOrGetTaskId w h taskType modelName functionName)
       (EvAddOrGetTaskId taskType modelName functionName).

Definition addBenchmarkRunsToFirestore (w : World) (runs : list ModelBenchmarkRun) : M unit :=
  callOk (fun h => firestore_addBenchmarkRuns w h runs) (EvAddBenchmarkRuns runs).

Definition quote : string := String (ascii_of_nat 34) EmptyString.

Definition console_warn (message : string) : M unit := emit (EvWarn message).

(** ** The test [it('Benchmark models')] *)

Definition taskType_model : string := "model".

(** The identifiers obtained before the loops start. *)
Record Ids : Type := mkIds {
  tfjsEnvironmentId : string;
  versionSet_Id : string;
  pyEnvironmentId : string
}.

(** The two local arrays [pyRuns] and [tfjsRuns]; an entry of [tfjsRuns]
    is [None] where the source pushes an [undefined] run. *)
Definition Runs : Type := list ModelBenchmarkRun * list (option ModelBenchmarkRun).

(** One warm-up iteration: [await syncDataAndDispose(model.predict(xs))]. *)
Definition warmUpPredict (w : World) (model : Model) (xs : Tensors) (u : unit) : M unit :=
  out <- model_predict w model xs ;;
  syncDataAndDispose out.

(** One benchmarked iteration of [predict], pushing its duration onto [ts]. *)
Definition timedPredict (w : World) (model : Model) (xs : Tensors) (ts : list Q)
    : M (list Q) :=
  t0 <- now w ;;
  out <- model_predict w model xs ;;
  syncDataAndDispose out ;;
  t1 <- now w ;;
  ret (ts ++ [t1 - t0]).

(** The branch [if (functionName === 'predict')]. *)
Definition benchmarkPredict (w : World) (ids : Ids) (model : Model)
    (modelName functionName taskId : string) (pyRun : ModelBenchmarkRun)
    (xs : Tensors) : M ModelBenchmarkRun :=
  forCount (numWarmUpIterations pyRun) (warmUpPredict w model xs) tt ;;
  ts <- forCount (numBenchmarkedIterations pyRun) (timedPredict w model xs) [] ;;
  average <- math_mean ts ;;
  ending <- Date_getTime_now w ;;
  ret (mkRun (Some taskId) taskType_model modelName functionName
             (batchSize pyRun) (Some (versionSet_Id ids))
             (Some (tfjsEnvironmentId ids))
             (numWarmUpIterations pyRun) (numBenchmarkedIterations pyRun)
             (Some ts) (JS.Num average) ending None None).

(** The branch [else if (functionName === 'fit')]. *)
Definition benchmarkFit (w : World) (ids : Ids) (model : Model)
    (modelName functionName taskId : string) (pyRun : ModelBenchmarkRun)
    (xs ys : Tensors) : M ModelBenchmarkRun :=
  model_compile w model (getNamed LOSS_MAP (loss pyRun))
                        (getNamed OPTIMIZER_MAP (optimizer pyRun)) ;;
  model_fit w model xs ys (numWarmUpIterations pyRun) ;;
  t0 <- now w ;;
  model_fit w model xs ys (numBenchmarkedIterations pyRun) ;;
  t1 <- now w ;;
  let t := (t1 - t0)%Q in
  ending <- Date_getTime_now w ;;
  ret (mkRun (Some taskId) taskType_model modelName functionName
             (batchSize pyRun) (Some (versionSet_Id ids))
             (Some (tfjsEnvironmentId ids))
             (numWarmUpIterations pyRun) (numBenchmarkedIterations pyRun)
             None (JS.div t (numBenchmarkedIterations pyRun)) ending None None).

(** The dispatch on the function name, lines 376 to 452. *)
Definition benchmarkDispatch (w : World) (ids : Ids) (model : Model)
    (modelName functionName taskId : string) (pyRun : ModelBenchmarkRun)
    (xs ys : Tensors) : M (option ModelBenchmarkRun) :=
  if String.eqb functionName "predict" then
    tfjsRun <- benchmarkPredict w ids model modelName functionName taskId pyRun xs ;;
    ret (Some tfjsRun)
  else if String.eqb functionName "fit" then
    tfjsRun <- benchmarkFit w ids model modelName functionName taskId pyRun xs ys ;;
    ret (Some tfjsRun)
  else
    console_warn ("Skipping task " ++ quote ++ functionName ++ quote ++
                  " of model " ++ quote ++ modelName ++ quote)%string ;;
    ret None.

(** The body of the loop over [functionNames]; [entry] is the property
    [functionName] of [taskGroupLog] with its value [pyRun]. *)
Definition benchmarkFunction (w : World) (ids : Ids) (model : Model)
    (modelName : string) (entry : string * ModelBenchmarkRun) (runs : Runs)
    : M Runs :=
  let functionName := fst entry in
  let pyRun := snd entry in
  taskId <- addOrGetTaskId w taskType_model modelName functionName ;;
  checkBatchSize (batchSize pyRun) ;;
  xsys <- getRandomInputsAndOutputs w model (batchSize pyRun) ;;
  let xs := fst xsys in
  let ys := snd xsys in
  tfjsRun <- benchmarkDispatch w ids model modelName functionName taskId pyRun xs ys ;;
  tf_dispose (tensorIds xs ++ tensorIds ys) ;;
  ret (fst runs ++ [set_environmentId (set_taskId pyRun taskId) (pyEnvironmentId ids)],
       snd runs ++ [tfjsRun]).

(** The body of the loop over [sortedModelNames]. *)
Definition benchmarkModel (w : World) (ids : Ids) (suiteLog : SuiteLog)
    (modelName : string) (runs : Runs) : M Runs :=
  let taskGroupLog := get (data suiteLog) modelName in
  model <- loadModel w modelName ;;
  match taskGroupLog with
  | None => throw TypeError
  | Some [] => throw (NoTaskError modelName)
  | Some functions => forEach functions (benchmarkFunction w ids model modelName) runs
  end.

(** The whole test, for the suite log that the fetch of
    [BENCHMARKS_JSON_URL] delivered.  The result is the final content of
    [pyRuns] and [tfjsRuns]. *)
Definition Benchmark_models (w : World) (suiteLog : SuiteLog) : M Runs :=
  let pyEnvironmentInfo := environmentInfo suiteLog in
  environmentInfo <- getBrowserEnvironmentInfo w ;;
  let versionSet := mkVersionSet (tf_version w) in
  tfjsEnvironmentId <- addEnvironmentInfoToFirestore w environmentInfo ;;
  versionSetId <- addVersionSetToFirestore w versionSet ;;
  emit (EvFetch BENCHMARKS_JSON_URL) ;;
  pyEnvironmentId <- addEnvironmentInfoToFirestore w pyEnvironmentInfo ;;
  let ids := mkIds tfjsEnvironmentId versionSetId pyEnvironmentId in
  let sortedModelNames := getChronologicalModelNames suiteLog in
  runs <- forEach sortedModelNames (benchmarkModel w ids suiteLog) ([], []) ;;
  addBenchmarkRunsToFirestore w (fst runs) ;;
  ret runs.

(** ** Sample worlds and suite logs *)

Module Samples.

(** A world in which the calls succeed: identifiers are built from the
    arguments, every model has one input and one output, a model is
    compiled when the loss and the optimizer are strings, a random tensor
    is created when every dimension of its shape is a positive integer, the
    engine keeps two tensors alive whenever it builds, compiles or fits a
    model, and both clocks advance by one per call recorded. *)
Definition world : World :=
  mkWorld "Mozilla/5.0" (fun _ => Some "Linux") (Some "Chrome") "1.0.0"
    (fun _ info => Some (match info with
                         | BrowserEnvironmentInfo _ _ => "env-browser"
                         | PythonEnvironmentInfo _ => "env-python"
                         end))
    (fun _ _ => Some "versions-1")
    (fun _ t m f => Some (t ++ "/" ++ m ++ "/" ++ f)%string)
    (fun _ _ => true)
    (fun _ _ => Some (mkModel [[None; Some 4%nat]] [[None; Some 1%nat]]))
    (fun _ _ _ => true)
    (fun _ _ l o => match l, o with
                    | JS.Own _, JS.Own _ => true
                    | _, _ => false
                    end)
    (fun _ _ _ _ _ => true)
    (fun _ shape => forallb (fun d => match d with
                                      | Some n => positiveInteger n
                                      | None => false
                                      end) shape)
    (fun _ => 2%nat)
    (fun h => inject_Z (Z.of_nat (List.length h)))
    (fun h => Z.of_nat (List.length h)).

(** The same world, except that [model.predict] throws. *)
Definition worldPredictThrows : World :=
  mkWorld (navigator_userAgent world) (detectBrowser_detectOS world)
    (detectBrowser_detect_name world) (tf_version world)
    (firestore_addEnvironmentInfo world) (firestore_addVersionSet world)
    (firestore_addOrGetTaskId world) (firestore_addBenchmarkRuns world)
    (tf_modelFromJSON world)
    (fun _ _ _ => false)
    (tf_compile world) (tf_fit world) (tf_randomUniform_creates world)
    (tf_kept world) (tf_util_now world) (Date_now world).

(** The same world, except that the detection library does not recognise
    the user agent. *)
Definition worldUndetected : World :=
  mkWorld (navigator_userAgent world) (fun _ => None) None (tf_version world)
    (firestore_addEnvironmentInfo world) (firestore_addVersionSet world)
    (firestore_addOrGetTaskId world) (firestore_addBenchmarkRuns world)
    (tf_modelFromJSON world) (tf_predict world)
    (tf_compile world) (tf_fit world) (tf_randomUniform_creates world)
    (tf_kept world) (tf_util_now world) (Date_now world).

Definition model : Model := mkModel [[None; Some 4%nat]] [[None; Some 1%nat]].

(** A reference run as the Python side logs it. *)
Definition pyRun (name function : string) (batch : JS.number)
    (warmUp benchmarked : nat) (ending : Q) : ModelBenchmarkRun :=
  mkRun None "model" name function batch None None warmUp benchmarked
        None (JS.Num (102 # 10)) (JS.Num ending)
        (Some "mean_squared_error") (Some "AdamOptimizer").

Definition ids : Ids := mkIds "env-browser" "versions-1" "env-python".

Definition mnistPredict : ModelBenchmarkRun :=
  pyRun "mnist" "predict" (JS.Num 32) 2 5 1000.

Definition lateFit : ModelBenchmarkRun :=
  pyRun "late" "fit" (JS.Num 8) 1 2 3500.

Definition earlyFitDataset : ModelBenchmarkRun :=
  pyRun "early" "fitDataset" (JS.Num 4) 1 1 1000.

(** The end-to-end scenario of the specification. *)
Definition mnistLog : SuiteLog :=
  mkSuiteLog [("mnist", [("predict", mnistPredict)])]
             (PythonEnvironmentInfo "python-3").

(** Three models logged out of chronological order, one without a
    function. *)
Definition threeModels : SuiteLog :=
  mkSuiteLog
    [("late", [("predict", pyRun "late" "predict" (JS.Num 8) 1 2 3000);
               ("fit", lateFit)]);
     ("empty", []);
     ("early", [("fitDataset", earlyFitDataset)])]
    (PythonEnvironmentInfo "python-3").

(** A single model without any function. *)
Definition emptyModelLog : SuiteLog :=
  mkSuiteLog [("empty", [])] (PythonEnvironmentInfo "python-3").

(** Three models, the second with an ending timestamp one millisecond
    beyond the range of [Date]. *)
Definition beyondDateRange : SuiteLog :=
  mkSuiteLog
    [("b", [("predict", pyRun "b" "predict" (JS.Num 8) 1 2 1000)]);
     ("a", [("predict", pyRun "a" "predict" (JS.Num 8) 1 2 8640000000000001)]);
     ("c", [("predict", pyRun "c" "predict" (JS.Num 8) 1 2 500)])]
    (PythonEnvironmentInfo "python-3").

(** A [predict] run logged without any benchmarked iteration. *)
Definition noBenchmarkedIteration : ModelBenchmarkRun :=
  pyRun "mnist" "predict" (JS.Num 32) 2 0 1000.

End Samples.

(** ** Notions the properties are stated with *)

(** A model entry of the suite log that has at least one function. *)
Definition hasFunctions (entry : string * MultiFunctionModelTaskLog) : bool :=
  match snd entry with
  | [] => false
  | _ :: _ => true
  end.

(** The ending timestamp of the first function recorded for a model entry
    (irrelevant for an entry without functions). *)
Definition firstEndingTimestamp (entry : string * MultiFunctionModelTaskLog)
    : JS.number :=
  match snd entry with
  | [] => JS.Num 0
  | (_, run) :: _ => endingTimestampMs run
  end.

(** The number is a time value a [Date] can hold: finite and at most
    8.64e15 milliseconds away from the epoch. *)
Definition ValidTime (t : JS.number) : Prop :=
  exists q, t = JS.Num q /\ (Qabs q <= 8640000000000000)%Q.

(** The whole milliseconds of a finite number. *)
Definition wholeMilliseconds (t : JS.number) : Z :=
  match t with
  | JS.Num q => Z.quot (Qnum q) (Zpos (Qden q))
  | _ => 0%Z
  end.

Definition earlierOrSame (x y : string * MultiFunctionModelTaskLog) : Prop :=
  (wholeMilliseconds (firstEndingTimestamp x)
   <= wholeMilliseconds (firstEndingTimestamp y))%Z.

(** The array entry the loop pushes for a model entry that has a function. *)
Definition toNameAndTimestamp (entry : string * MultiFunctionModelTaskLog)
    : NameAndTimestamp :=
  mkNT (fst entry) (Date_getTime (firstEndingTimestamp entry)).

(** The sorted entries behind the sorted names. *)
Definition chronologicalEntries (suiteLog : SuiteLog)
    : list (string * MultiFunctionModelTaskLog) :=
  Array_sort (fun x y => JS.sub (Date_getTime (firstEndingTimestamp x))
                                (Date_getTime (firstEndingTimestamp y)))
             (filter hasFunctions (data suiteLog)).

(** What holds of the result and of the final state of a computation
    started in [s]. *)
Definition wp {A} (m : M A) (s : State) (Q : Result A -> State -> Prop) : Prop :=
  Q (fst (m s)) (snd (m s)).

(** Tensor identities are handed out in increasing order, so the live ones
    lie below the next fresh one. *)
Definition wfState (s : State) : Prop :=
  Forall (fun t => (t < nextTensorId s)%nat) (liveTensors s).

(** The calls after which the engine keeps tensors of its own. *)
Definition keeps (e : Event) : bool :=
  match e with
  | EvLoadModel _ true | EvCompile _ _ true | EvFit _ _ _ true => true
  | _ => false
  end.

(** The number of tensors the engine keeps for itself during the calls
    [evs] made after the history [h]. *)
Fixpoint keptDuring (w : World) (h evs : list Event) : nat :=
  match evs with
  | [] => 0
  | e :: rest =>
      (if keeps e then tf_kept w (h ++ [e]) else 0) + keptDuring w (h ++ [e]) rest
  end.

(** From [s] to [s'] the calls [evs] were made, and the tensors alive in
    the end are those alive before and those the engine kept for itself on
    the way, which are among the tensors created on the way: every other
    tensor created on the way was disposed of. *)
Definition step (w : World) (s s' : State) (evs : list Event) : Prop :=
  history s' = history s ++ evs /\
  (nextTensorId s <= nextTensorId s')%nat /\
  (wfState s ->
   exists kept,
     liveTensors s' = liveTensors s ++ kept /\
     List.length kept = keptDuring w (history s) evs /\
     Forall (fun t => (nextTensorId s <= t < nextTensorId s')%nat) kept).

(** Exceptions of the dispatch on the function name: a call into the
    engine was rejected, or the mean of no timing at all was asked for. *)
Definition dispatchError (e : Exception) : Prop :=
  match e with
  | RejectedError (EvPredict _ _)
  | RejectedError (EvCompile _ _ _)
  | RejectedError (EvFit _ _ _ _)
  | EmptyMeanError => True
  | _ => False
  end.

(** The dispatch threw [e] on the way from [s] to [s'], and of the tensors
    created on the way only those the engine kept for itself are alive. *)
Definition thrown (w : World) (s s' : State) (e : Exception) : Prop :=
  dispatchError e /\ exists evs, step w s s' evs.

(** A benchmarked [predict] call between its two clock readings, and the
    duration it is recorded with. *)
Definition timedCall (xs : Tensors) (reading : Q * Q) : list Event :=
  [EvNow (fst reading); EvPredict xs true; EvNow (snd reading)].

Definition duration (reading : Q * Q) : Q := snd reading - fst reading.

Definition returns {A} (r : Result A) : Prop := exists a, r = Return a.

(** The function names the dispatch knows. *)
Definition recognised (functionName : string) : bool :=
  String.eqb functionName "predict" || String.eqb functionName "fit".

Definition skipMessage (modelName functionName : string) : string :=
  ("Skipping task " ++ quote ++ functionName ++ quote ++
   " of model " ++ quote ++ modelName ++ quote)%string.

(** The record the harness builds for a measured run. *)
Definition measuredRun (ids : Ids) (modelName functionName taskId : string)
    (pyRun : ModelBenchmarkRun) (times : option (list Q)) (average : JS.number)
    (ending : JS.number) : ModelBenchmarkRun :=
  mkRun (Some taskId) taskType_model modelName functionName (batchSize pyRun)
        (Some (versionSet_Id ids)) (Some (tfjsEnvironmentId ids))
        (numWarmUpIterations pyRun) (numBenchmarkedIterations pyRun)
        times average ending None None.

(** What the dispatch on the function name does when it returns: the
    calls it makes and the measured run it yields, if any. *)
Inductive Dispatched (ids : Ids) (modelName functionName taskId : string)
    (pyRun : ModelBenchmarkRun) (xs ys : Tensors)
    : list Event -> option ModelBenchmarkRun -> Prop :=
| DispatchedPredict (readings : list (Q * Q)) (ending : Z) :
    functionName = "predict" ->
    List.length readings = numBenchmarkedIterations pyRun ->
    (0 < numBenchmarkedIterations pyRun)%nat ->
    Dispatched ids modelName functionName taskId pyRun xs ys
      (repeat (EvPredict xs true) (numWarmUpIterations pyRun) ++
       flat_map (timedCall xs) readings ++ [EvDate (JS.ofZ ending)])
      (Some (measuredRun ids modelName functionName taskId pyRun
               (Some (map duration readings))
               (JS.Num (fold_left Qplus (map duration readings) 0 /
                        inject_Z (Z.of_nat (List.length (map duration readings)))))
               (JS.ofZ ending)))
| DispatchedFit (t0 t1 : Q) (ending : Z) :
    functionName = "fit" ->
    Dispatched ids modelName functionName taskId pyRun xs ys
      [EvCompile (getNamed LOSS_MAP (loss pyRun))
                 (getNamed OPTIMIZER_MAP (optimizer pyRun)) true;
       EvFit xs ys (numWarmUpIterations pyRun) true;
       EvNow t0;
       EvFit xs ys (numBenchmarkedIterations pyRun) true;
       EvNow t1;
       EvDate (JS.ofZ ending)]
      (Some (measuredRun ids modelName functionName taskId pyRun None
               (JS.div (t1 - t0) (numBenchmarkedIterations pyRun))
               (JS.ofZ ending)))
| DispatchedSkip :
    recognised functionName = false ->
    Dispatched ids modelName functionName taskId pyRun xs ys
      [EvWarn (skipMessage modelName functionName)] None.

(** The shapes of the random tensors of a pair, in the order in which
    they are asked for. *)
Definition shapesOf (model : Model) (batchSize : JS.number) : list Shape :=
  map (batchShape batchSize) (inputs model) ++
  map (batchShape batchSize) (outputs model).

(** The engine creates the random tensors of the pair. *)
Definition tensorsCreated (w : World) (model : Model) (batchSize : JS.number)
    : Prop :=
  forall h shape,
    In shape (shapesOf model batchSize) -> tf_randomUniform_creates w h shape = true.

(** The calls of a pair answer: the task-identifier request, the creation
    of the random tensors, and for the two functions the dispatch knows the
    calls into the engine, with the arguments the pair gives them. *)
Definition pairAnswered (w : World) (model : Model) (modelName functionName : string)
    (pyRun : ModelBenchmarkRun) : Prop :=
  (forall h, firestore_addOrGetTaskId w h taskType_model modelName functionName <> None) /\
  tensorsCreated w model (batchSize pyRun) /\
  (functionName = "predict" -> forall h xs, tf_predict w h model xs = true) /\
  (functionName = "fit" ->
   (forall h, tf_compile w h model (getNamed LOSS_MAP (loss pyRun))
                         (getNamed OPTIMIZER_MAP (optimizer pyRun)) = true) /\
   (forall h xs ys n, tf_fit w h model xs ys n = true)).

(** A reference run the harness can attempt: a batch size that passes the
    check and, for [predict], at least one benchmarked iteration. *)
Definition attemptable (functionName : string) (pyRun : ModelBenchmarkRun) : bool :=
  positiveInteger (batchSize pyRun) &&
  (negb (String.eqb functionName "predict") ||
   (0 <? numBenchmarkedIterations pyRun)%nat).

(** The name is a key of the map. *)
Definition knownName (map : Object string) (name : option string) : bool :=
  match name with
  | Some n => match get map n with
              | Some _ => true
              | None => false
              end
  | None => false
  end.

(** A reference run the harness can replay: one it can attempt and, for
    [fit], a loss and an optimizer that are keys of the two maps. *)
Definition replayable (functionName : string) (pyRun : ModelBenchmarkRun) : bool :=
  attemptable functionName pyRun &&
  (negb (String.eqb functionName "fit") ||
   (knownName LOSS_MAP (loss pyRun) && knownName OPTIMIZER_MAP (optimizer pyRun))).

(** The reference run with the two identifiers the harness sets. *)
Definition identified (pyRun : ModelBenchmarkRun) (taskId environmentId : string)
    : ModelBenchmarkRun :=
  set_environmentId (set_taskId pyRun taskId) environmentId.


(** Calls other than the batched write of the runs. *)
Definition notWrite (e : Event) : Prop :=
  match e with
  | EvAddBenchmarkRuns _ _ => False
  | _ => True
  end.

(** The calls end with an answered request of a task identifier. *)
Definition endsWithTaskRequest (evs : list Event) : Prop :=
  exists before modelName functionName taskId,
    evs = before ++
          [EvAddOrGetTaskId taskType_model modelName functionName (Some taskId)].

(** What an exception raised in the loops says of the calls [evs] made
    until it was thrown: a batch size is checked, and the random tensors
    are created, right after the request of the task identifier was
    answered. *)
Definition loopFailure (e : Exception) (evs : list Event) : Prop :=
  match e with
  | NoTaskError _ | TypeError => False
  | BatchSizeError _ | RandomUniformError _ => endsWithTaskRequest evs
  | EmptyMeanError | RejectedError _ => True
  end.

(** A (model, function) pair of the suite log with its reference run. *)
Definition Pair : Type := string * (string * ModelBenchmarkRun).

(** What was collected for one pair.  Among the calls [evs] the calls of
    the pair stand together: first the request of the task identifier,
    answered with [taskId], then the calls of the dispatch on the function
    name.  The reference run collected is the one of the suite log with
    that task identifier and the Python environment identifier, and the
    measured run is what the dispatch yielded. *)
Definition Collected (ids : Ids) (evs : list Event) (p : Pair)
    (py : ModelBenchmarkRun) (tfjs : option ModelBenchmarkRun) : Prop :=
  let modelName := fst p in
  let functionName := fst (snd p) in
  let pyRun := snd (snd p) in
  exists taskId xs ys calls earlier later,
    evs = earlier ++
          EvAddOrGetTaskId taskType_model modelName functionName (Some taskId)
            :: calls ++ later /\
    py = identified pyRun taskId (pyEnvironmentId ids) /\
    Dispatched ids modelName functionName taskId pyRun xs ys calls tfjs.

Inductive CollectedAll (ids : Ids) (evs : list Event)
    : list Pair -> list ModelBenchmarkRun -> list (option ModelBenchmarkRun) -> Prop :=
| CollectedNil : CollectedAll ids evs [] [] []
| CollectedCons p ps py pys tfjs tfjss :
    Collected ids evs p py tfjs ->
    CollectedAll ids evs ps pys tfjss ->
    CollectedAll ids evs (p :: ps) (py :: pys) (tfjs :: tfjss).

(** The pairs of a list of models, in the order the loops visit them. *)
Definition pairsOf (suiteLog : SuiteLog) (modelNames : list string) : list Pair :=
  flat_map (fun modelName =>
              match get (data suiteLog) modelName with
              | Some functions => map (pair modelName) functions
              | None => []
              end) modelNames.

Definition referenceRuns (suiteLog : SuiteLog) : list Pair :=
  pairsOf suiteLog (getChronologicalModelNames suiteLog).

(** The model is an entry of the suite log, and it has a function. *)
Definition hasLog (suiteLog : SuiteLog) (modelName : string) : Prop :=
  exists functions, get (data suiteLog) modelName = Some functions /\ functions <> [].

(** A world in which the user agent is recognised, no call to the
    datastore is rejected, every model is built, [predict] and [fit]
    return, and a model is compiled for every loss and optimizer that are
    values of the two maps. *)
Record GoodWorld (w : World) : Prop := mkGoodWorld {
  good_detectOS : detectBrowser_detectOS w (navigator_userAgent w) <> None;
  good_detect : detectBrowser_detect_name w <> None;
  good_environment : forall h info, firestore_addEnvironmentInfo w h info <> None;
  good_versionSet : forall h v, firestore_addVersionSet w h v <> None;
  good_taskId : forall h t m f, firestore_addOrGetTaskId w h t m f <> None;
  good_write : forall h runs, firestore_addBenchmarkRuns w h runs = true;
  good_load : forall h m, tf_modelFromJSON w h m <> None;
  good_predict : forall h m xs, tf_predict w h m xs = true;
  good_compile : forall h m lossName optimizerName l o,
      get LOSS_MAP lossName = Some l ->
      get OPTIMIZER_MAP optimizerName = Some o ->
      tf_compile w h m (JS.Own l) (JS.Own o) = true;
  good_fit : forall h m xs ys n, tf_fit w h m xs ys n = true
}.

(** The engine creates the random tensors the suite log asks for: those
    of the shapes of the inputs and outputs of a model it builds, with the
    batch size of a reference run of that model. *)
Definition tensorsAvailable (w : World) (suiteLog : SuiteLog) : Prop :=
  forall h modelName model functions functionName pyRun,
    tf_modelFromJSON w h modelName = Some model ->
    get (data suiteLog) modelName = Some functions ->
    In (functionName, pyRun) functions ->
    tensorsCreated w model (batchSize pyRun).

Definition allReplayable (suiteLog : SuiteLog) : bool :=
  forallb (fun entry =>
             forallb (fun function => replayable (fst function) (snd function))
                     (snd entry))
          (data suiteLog).

(** The description of the browser environment, when the detection
    library recognises the user agent. *)
Definition detected (w : World) (info : EnvironmentInfo) : Prop :=
  exists os browser,
    detectBrowser_detectOS w (navigator_userAgent w) = Some os /\
    detectBrowser_detect_name w = Some browser /\
    info = BrowserEnvironmentInfo
             (JS.toLowerCase browser ++ "-" ++ JS.toLowerCase os)
             (navigator_userAgent w).

(** The calls the test makes before the loop over the models, for the
    description [info] of the browser environment. *)
Definition preamble (w : World) (info : EnvironmentInfo) (suiteLog : SuiteLog)
    (ids : Ids) : list Event :=
  [EvAddEnvironmentInfo info (Some (tfjsEnvironmentId ids));
   EvAddVersionSet (mkVersionSet (tf_version w)) (Some (versionSet_Id ids));
   EvFetch BENCHMARKS_JSON_URL;
   EvAddEnvironmentInfo (environmentInfo suiteLog) (Some (pyEnvironmentId ids))].

(** The number is a positive integer. *)
Definition PositiveInteger (x : JS.number) : Prop :=
  exists (n : positive) (q : Q), x = JS.Num q /\ (q == inject_Z (Zpos n))%Q.

(** The sum of a list of durations. *)
Definition sumQ (ts : list Q) : Q := fold_right Qplus 0%Q ts.

(** Calls other than [model.predict]. *)
Definition notPredict (e : Event) : Prop :=
  match e with
  | EvPredict _ _ => False
  | _ => True
  end.

Definition isWarning (e : Event) : Prop :=
  match e with
  | EvWarn _ => True
  | _ => False
  end.

(** ** Notions for the properties of whole runs *)

(** The calls of pairs processed one after the other, with what they
    collect: for each pair the answered request of the task identifier,
    then the calls of the dispatch; the batch size passed the check. *)
Inductive PairsTrace (ids : Ids)
    : list Pair -> list Event -> list ModelBenchmarkRun ->
      list (option ModelBenchmarkRun) -> Prop :=
| PairsDone : PairsTrace ids [] [] [] []
| PairsStep modelName functionName pyRun ps taskId xs ys calls tfjs evs pys tfjss :
    positiveInteger (batchSize pyRun) = true ->
    Dispatched ids modelName functionName taskId pyRun xs ys calls tfjs ->
    PairsTrace ids ps evs pys tfjss ->
    PairsTrace ids ((modelName, (functionName, pyRun)) :: ps)
      (EvAddOrGetTaskId taskType_model modelName functionName (Some taskId)
         :: calls ++ evs)
      (identified pyRun taskId (pyEnvironmentId ids) :: pys)
      (tfjs :: tfjss).

(** The address a model is fetched from. *)
Definition modelJSONPath (modelName : string) : string :=
  (DATA_SERVER_ROOT ++ "/" ++ modelName ++ "/model.json")%string.

(** The calls of models processed one after the other: the model file is
    fetched and the model built, then come the calls of its pairs. *)
Inductive ModelsTrace (ids : Ids) (suiteLog : SuiteLog)
    : list string -> list Event -> list ModelBenchmarkRun ->
      list (option ModelBenchmarkRun) -> Prop :=
| ModelsDone : ModelsTrace ids suiteLog [] [] [] []
| ModelsStep modelName functions names evs1 pys1 tfjss1 evs pys tfjss :
    get (data suiteLog) modelName = Some functions ->
    functions <> [] ->
    PairsTrace ids (map (pair modelName) functions) evs1 pys1 tfjss1 ->
    ModelsTrace ids suiteLog names evs pys tfjss ->
    ModelsTrace ids suiteLog (modelName :: names)
      (EvFetch (modelJSONPath modelName) :: EvLoadModel modelName true :: evs1 ++ evs)
      (pys1 ++ pys) (tfjss1 ++ tfjss).

(** The models the calls load, the task identifiers they request and the
    number of their calls of [model.predict] and of [model.fit]. *)
Definition loadedModels (evs : list Event) : list string :=
  flat_map (fun e => match e with EvLoadModel m _ => [m] | _ => [] end) evs.

Definition requestedTasks (evs : list Event) : list (string * string * string) :=
  flat_map (fun e => match e with
                     | EvAddOrGetTaskId t m f _ => [(t, m, f)]
                     | _ => []
                     end) evs.

Definition isPredict (e : Event) : bool :=
  match e with EvPredict _ _ => true | _ => false end.

Definition isFit (e : Event) : bool :=
  match e with EvFit _ _ _ _ => true | _ => false end.

(** The calls of [model.predict] a pair asks for: warm-up and benchmarked
    iterations of a [predict] pair. *)
Definition predictIterations (p : Pair) : nat :=
  if String.eqb (fst (snd p)) "predict"
  then numWarmUpIterations (snd (snd p)) + numBenchmarkedIterations (snd (snd p))
  else 0.

Definition fitCalls (p : Pair) : nat :=
  if String.eqb (fst (snd p)) "fit" then 2 else 0.

(** A recorded call that was rejected. *)
Definition isRejection (e : Event) : Prop :=
  match e with
  | EvAddEnvironmentInfo _ None | EvAddVersionSet _ None
  | EvAddOrGetTaskId _ _ _ None
  | EvLoadModel _ false | EvPredict _ false | EvCompile _ _ false
  | EvFit _ _ _ false | EvAddBenchmarkRuns _ false => True
  | _ => False
  end.

(** What an exception says of the calls [evs] made until it was thrown: a
    batch-size error carries a batch size that fails the check, and a
    rejection carries the rejected call, which is the last call made. *)
Definition explained (e : Exception) (evs : list Event) : Prop :=
  match e with
  | BatchSizeError b => positiveInteger b = false
  | RejectedError call => isRejection call /\ exists before, evs = before ++ [call]
  | _ => True
  end.

(** A computation only adds calls that satisfy [P] to the history, and
    when it throws, the exception is explained by the calls it added. *)
Definition disciplined (P : Event -> Prop) {A} (m : M A) : Prop :=
  forall s, exists evs,
    history (snd (m s)) = history s ++ evs /\
    Forall P evs /\
    forall e, fst (m s) = Throw e -> explained e evs.

(** Lower case, letter by letter.  The upper-case letters and, at the
    same positions, their lower-case partners. *)
Definition upperCaseLetters : list ascii :=
  list_ascii_of_string "ABCDEFGHIJKLMNOPQRSTUVWXYZ".

Definition lowerCaseLetters : list ascii :=
  list_ascii_of_string "abcdefghijklmnopqrstuvwxyz".

Definition isUpperCase (c : ascii) : Prop := In c upperCaseLetters.

(** [LowerCaseOf reported name]: [name] is [reported] with every
    upper-case letter replaced by its lower-case partner and every other
    character kept. *)
Inductive LowerCaseOf : string -> string -> Prop :=
| LowerCaseEmpty : LowerCaseOf EmptyString EmptyString
| LowerCaseKept c r r' :
    ~ isUpperCase c -> LowerCaseOf r r' -> LowerCaseOf (String c r) (String c r')
| LowerCaseLetter c c' r r' :
    In (c, c') (combine upperCaseLetters lowerCaseLetters) ->
    LowerCaseOf r r' -> LowerCaseOf (String c r) (String c' r').

(** The registration of an environment or of a version set. *)
Definition isRegistration (e : Event) : Prop :=
  match e with
  | EvAddEnvironmentInfo _ _ | EvAddVersionSet _ _ => True
  | _ => False
  end.

(** Calls made in the loops over the models and their functions: neither
    a registration nor the write of the runs. *)
Definition loopCall (e : Event) : Prop :=
  match e with
  | EvAddEnvironmentInfo _ _ | EvAddVersionSet _ _ | EvAddBenchmarkRuns _ _ => False
  | _ => True
  end.

(** A write of runs that the datastore accepted. *)
Definition notAcceptedWrite (e : Event) : Prop :=
  match e with
  | EvAddBenchmarkRuns _ true => False
  | _ => True
  end.

(** The calls the dispatch on the function name makes. *)
Definition isDispatchCall (e : Event) : Prop :=
  match e with
  | EvPredict _ _ | EvCompile _ _ _ | EvFit _ _ _ _ | EvNow _ | EvDate _ | EvWarn _ => True
  | _ => False
  end.

(** The task a pair stands for, as [addOrGetTaskId] is asked for it. *)
Definition taskOf (p : Pair) : string * string * string :=
  (taskType_model, fst p, fst (snd p)).

Definition replayablePair (p : Pair) : Prop :=
  replayable (fst (snd p)) (snd (snd p)) = true.

Definition attemptablePair (p : Pair) : Prop :=
  attemptable (fst (snd p)) (snd (snd p)) = true.


(** ** The script that builds the data and starts the benchmarks *)

Module Script.

(** What the script runs.  A command is known by the words the shell
    passes to it; [Source] is the [source] builtin, [TestDirectory] the
    test [[ -d path ]], and [Cd] the line [cd ${SCRIPT_DIR}], whose word is
    not quoted and is kept as the value of the variable. *)
Inductive Command : Type :=
| Echo (line : string)
| Run (words : list string)
| Source (file : string)
| TestDirectory (path : string)
| Cd (unquoted : string).

(** The machine the script runs on: the directory of the script (what the
    assignment to [SCRIPT_DIR] computes, taken to succeed), and for every
    command, after the commands run so far, its exit status and what it
    prints; for a path, whether it is a directory.  What a command does
    depends on the commands run before it and on its own words only, not on
    the shell variables of the script: the script exports none of them, and
    the caller is taken not to have exported a variable of one of their
    names ([SCRIPT_DIR], [DATA_PORT], [SKIP_PY_BENCHMAKRS], [DATA_ROOT],
    [VENV_DIR]) either, so that no assignment of the script reaches the
    environment of a command. *)
Record Machine : Type := mkMachine {
  scriptDir : string;
  exitStatus : list Command -> Command -> nat;
  standardOutput : list Command -> Command -> string;
  directoryExists : list Command -> string -> bool
}.

(** The shell goes on with a value, or the script exits with a status. *)
Inductive Outcome (A : Type) : Type :=
| Continue (a : A)
| Exit (status : nat).

Arguments Continue {A} a.
Arguments Exit {A} status.

(** A piece of the script: from the commands run so far to an outcome and
    the commands run then. *)
Definition Sh (A : Type) : Type := list Command -> Outcome A * list Command.

Definition continue {A} (a : A) : Sh A := fun h => (Continue a, h).

Definition exit {A} (status : nat) : Sh A := fun h => (Exit status, h).

Definition andThen {A B} (m : Sh A) (k : A -> Sh B) : Sh B :=
  fun h =>
    match m h with
    | (Continue a, h') => k a h'
    | (Exit status, h') => (Exit status, h')
    end.

Declare Scope script_scope.
Delimit Scope script_scope with script.
Notation "x <- m ;; k" := (andThen m (fun x => k))
  (at level 61, m at next level, right associativity) : script_scope.
Notation "m ;; k" := (andThen m (fun _ => k))
  (at level 61, right associativity) : script_scope.
#[local] Open Scope script_scope.

(** [echo line]; writing to the standard output is taken to succeed. *)
Definition echo (line : string) : Sh unit :=
  fun h => (Continue tt, h ++ [Echo line]).

(** A command under [set -e]: a status other than zero ends the script
    with that status. *)
Definition run (m : Machine) (c : Command) : Sh unit :=
  fun h =>
    match exitStatus m h c with
    | O => (Continue tt, h ++ [c])
    | S n => (Exit (S n), h ++ [c])
    end.

(** [VAR="$(words)"] under [set -e]. *)
Definition capture (m : Machine) (words : list string) : Sh string :=
  fun h =>
    match exitStatus m h (Run words) with
    | O => (Continue (standardOutput m h (Run words)), h ++ [Run words])
    | S n => (Exit (S n), h ++ [Run words])
    end.

(** [[ -d path ]] as the condition of an [if]. *)
Definition testDirectory (m : Machine) (path : string) : Sh bool :=
  fun h => (Continue (directoryExists m h path), h ++ [TestDirectory path]).

(** The two variables the argument loop sets. *)
Record Variables : Type := mkVariables {
  DATA_PORT : string;
  SKIP_PY_BENCHMAKRS : string
}.

(** How the argument loop ends: with [break], with the failure of
    [shift 2] (under [set -e] the script exits with its status 1), or at an
    argument it does not recognise. *)
Inductive Parsed : Type :=
| Break (v : Variables)
| ShiftFailed
| Unrecognized (argument : string).

(** The loop [while true] over the positional parameters, lines 62 to 75.
    [$1] of no parameter is the empty string, and [shift 2] with a single
    parameter left fails. *)
Fixpoint parseArguments (v : Variables) (args : list string) : Parsed :=
  match args with
  | [] => Break v
  | arg :: rest =>
      if String.eqb arg "--port" then
        match rest with
        | value :: rest' =>
            parseArguments (mkVariables value (SKIP_PY_BENCHMAKRS v)) rest'
        | [] => ShiftFailed
        end
      else if String.eqb arg "--skip_py_benchmarks" then
        parseArguments (mkVariables (DATA_PORT v) "1") rest
      else if String.eqb arg "" then
        Break v
      else
        Unrecognized arg
  end.

(** Lines 83 to 97: the Python benchmarks in a fresh virtualenv; the
    value is [VENV_DIR]. *)
Definition pythonBenchmarks (m : Machine) (SCRIPT_DIR DATA_ROOT : string) : Sh string :=
  echo "Installing virtualenv..." ;;
  run m (Run ["pip"; "install"; "virtualenv"]) ;;
  VENV_DIR <- capture m ["mktemp"; "-d"] ;;
  echo ("Creating virtualenv at " ++ VENV_DIR ++ " ...")%string ;;
  run m (Run ["virtualenv"; VENV_DIR]) ;;
  run m (Source (VENV_DIR ++ "/bin/activate")%string) ;;
  echo "Installing Python dependencies..." ;;
  run m (Run ["pip"; "install"; "-r"; "python/requirements.txt"]) ;;
  echo "Running Python Keras benchmarks..." ;;
  run m (Run ["python"; (SCRIPT_DIR ++ "/python/benchmarks.py")%string; DATA_ROOT]) ;;
  continue VENV_DIR.

(** Lines 99 to 103. *)
Definition cleanUp (m : Machine) (VENV_DIR : string) : Sh unit :=
  echo ("Cleaning up virtualenv directory " ++ VENV_DIR ++ "...")%string ;;
  run m (Run ["deactivate"]) ;;
  run m (Run ["rm"; "-rf"; VENV_DIR]).

(** The script, for the arguments it is called with. *)
Definition main (m : Machine) (args : list string) : Sh unit :=
  let SCRIPT_DIR := scriptDir m in
  match parseArguments (mkVariables "8090" "0") args with
  | ShiftFailed => exit 1
  | Unrecognized arg =>
      echo ("ERROR: Unrecognized argument: " ++ arg)%string ;;
      exit 1
  | Break v =>
      let DATA_ROOT := (SCRIPT_DIR ++ "/data")%string in
      VENV_DIR <- (if String.eqb (SKIP_PY_BENCHMAKRS v) "0"
                   then pythonBenchmarks m SCRIPT_DIR DATA_ROOT
                   else continue "") ;;
      (if String.eqb (SKIP_PY_BENCHMAKRS v) "0"
       then cleanUp m VENV_DIR
       else continue tt) ;;
      found <- testDirectory m DATA_ROOT ;;
      (if negb found
       then echo ("Cannot find data root directory: " ++ DATA_ROOT)%string ;; exit 1
       else continue tt) ;;
      run m (Cd SCRIPT_DIR) ;;
      run m (Run ["yarn"]) ;;
      echo "Starting benchmark tests..." ;;
      run m (Run ["yarn"; "karma"; "start"; "karma.conf.layers.js"])
  end.

(** The script started: its outcome and the commands it ran. *)
Definition runScript (m : Machine) (args : list string)
    : Outcome unit * list Command :=
  main m args [].

(** *** Notions the properties of the script are stated with *)

(** The options the argument loop knows. *)
Inductive Flag : Type :=
| Port (value : string)
| SkipPyBenchmarks.

Definition flagWords (f : Flag) : list string :=
  match f with
  | Port value => ["--port"; value]
  | SkipPyBenchmarks => ["--skip_py_benchmarks"]
  end.

Definition isSkip (f : Flag) : bool :=
  match f with
  | SkipPyBenchmarks => true
  | Port _ => false
  end.

(** The value of the last [--port] option, if there is one. *)
Definition lastPort (flags : list Flag) (default : string) : string :=
  fold_left (fun port f => match f with Port value => value | SkipPyBenchmarks => port end)
            flags default.

Definition unrecognized (arg : string) : Prop :=
  arg <> "--port" /\ arg <> "--skip_py_benchmarks" /\ arg <> "".

Definition initialVariables : Variables := mkVariables "8090" "0".

Definition isEcho (c : Command) : Prop :=
  match c with
  | Echo _ => True
  | _ => False
  end.

(** The commands of the Python part of the script. *)
Definition isPythonStep (c : Command) : Prop :=
  match c with
  | Source _ => True
  | Run (word :: _) =>
      In word ["pip"; "mktemp"; "virtualenv"; "python"; "deactivate"; "rm"]
  | _ => False
  end.

Definition karmaStart : Command :=
  Run ["yarn"; "karma"; "start"; "karma.conf.layers.js"].

Definition benchmarksPy (m : Machine) : Command :=
  Run ["python"; (scriptDir m ++ "/python/benchmarks.py")%string;
       (scriptDir m ++ "/data")%string].

(** A machine on which every command succeeds. *)
Definition obliging : Machine :=
  mkMachine "/repo/benchmarks" (fun _ _ => 0%nat) (fun _ _ => "/tmp/venv")
            (fun _ _ => true).

End Script.
(** * Properties *)

(** ** Sorting *)

Section ArraySortFacts.

Context {A : Type} (compareFn : A -> A -> JS.number).

Lemma sort_insert_perm (x : A) (l : list A) :
  Permutation (sort_insert compareFn x l) (x :: l).
Proof.
  induction l as [|y r IH]; simpl.
  - apply Permutation_refl.
  - destruct (JS.notAfter (compareFn x y)).
    + apply Permutation_refl.
    + eapply perm_trans; [apply perm_skip, IH | apply perm_swap].
Qed.

Lemma Array_sort_perm (l : list A) : Permutation (Array_sort compareFn l) l.
Proof.
  induction l as [|x r IH]; simpl.
  - constructor.
  - eapply perm_trans; [apply sort_insert_perm | apply perm_skip, IH].
Qed.

(** A comparison that, on the elements that are [valid], compares a key. *)
Context (key : A -> Z) (valid : A -> Prop).
Context (Hcmp : forall x y, valid x -> valid y ->
                            JS.notAfter (compareFn x y) = (key x <=? key y)%Z).

Let le (x y : A) : Prop := (key x <= key y)%Z.

Lemma sort_insert_sorted (x : A) (l : list A) :
  valid x -> Forall valid l ->
  StronglySorted le l -> StronglySorted le (sort_insert compareFn x l).
Proof.
  intros Hx Hl Hs. induction Hs as [|y r Hs IH Hy]; simpl.
  - repeat constructor.
  - inversion Hl as [|? ? Hvy Hvr]; subst.
    rewrite Hcmp by assumption.
    destruct (Z.leb_spec (key x) (key y)) as [Hle|Hgt].
    + constructor; [constructor; assumption|].
      constructor; [exact Hle|].
      eapply Forall_impl; [|exact Hy]. unfold le; intros; lia.
    + constructor; [exact (IH Hvr)|].
      eapply Permutation_Forall; [apply Permutation_sym, sort_insert_perm|].
      constructor; [unfold le; lia | exact Hy].
Qed.

Lemma Array_sort_sorted (l : list A) :
  Forall valid l -> StronglySorted le (Array_sort compareFn l).
Proof.
  induction l as [|x r IH]; simpl; intro Hl.
  - constructor.
  - inversion Hl as [|? ? Hx Hr]; subst.
    apply sort_insert_sorted; [exact Hx | | exact (IH Hr)].
    eapply Permutation_Forall; [apply Permutation_sym, Array_sort_perm | exact Hr].
Qed.

End ArraySortFacts.

(** Sorting the images is the image of sorting. *)
Lemma Array_sort_map {A B : Type} (f : A -> B) (compareFn : B -> B -> JS.number)
    (l : list A) :
  Array_sort compareFn (map f l) =
  map f (Array_sort (fun x y => compareFn (f x) (f y)) l).
Proof.
  induction l as [|x r IH]; simpl; [reflexivity|].
  rewrite IH. generalize (Array_sort (fun x y => compareFn (f x) (f y)) r).
  intro l'. induction l' as [|y r' IH']; simpl; [reflexivity|].
  destruct (JS.notAfter (compareFn (f x) (f y))); simpl; [reflexivity|].
  now rewrite IH'.
Qed.

Lemma modelNamesAndTimestamps_filter (entries : Object MultiFunctionModelTaskLog) :
  modelNamesAndTimestamps entries =
  map toNameAndTimestamp (filter hasFunctions entries).
Proof.
  induction entries as [|[name log] rest IH]; simpl; [reflexivity|].
  destruct log as [|[f run] more]; simpl; [exact IH|].
  now rewrite IH.
Qed.

Lemma getChronologicalModelNames_entries (suiteLog : SuiteLog) :
  getChronologicalModelNames suiteLog = map fst (chronologicalEntries suiteLog).
Proof.
  unfold getChronologicalModelNames, chronologicalEntries.
  rewrite modelNamesAndTimestamps_filter, Array_sort_map, map_map.
  reflexivity.
Qed.

(** On time values the comparison function of the sort compares the whole
    milliseconds. *)
Lemma compare_time_values (x y : JS.number) :
  ValidTime x -> ValidTime y ->
  JS.notAfter (JS.sub (Date_getTime x) (Date_getTime y))
  = (wholeMilliseconds x <=? wholeMilliseconds y)%Z.
Proof.
  intros (qx & -> & Hx) (qy & -> & Hy).
  unfold Date_getTime, JS.TimeClip, JS.maxTime.
  apply Qle_bool_iff in Hx, Hy. rewrite Hx, Hy.
  unfold JS.ofZ, JS.sub, JS.notAfter, JS.truncate, wholeMilliseconds.
  apply Bool.eq_iff_eq_true. rewrite Qle_bool_iff, Z.leb_le.
  unfold Qle, Qminus, Qplus, Qopp, inject_Z. simpl. lia.
Qed.

(** C1, as the code has it.  The chronological ordering returns the names
    of the models that have a function, each once: the result is the list
    of names of a rearrangement of those entries.  A model without
    functions is left out, and when there is none the result is a
    permutation of all the model names.  When the ending timestamp of the
    first function of every such model is a time value, the rearrangement
    is in ascending order of the whole milliseconds of that timestamp. *)
Theorem getChronologicalModelNames_sorted_permutation (suiteLog : SuiteLog) :
  (exists entries,
      Permutation entries (filter hasFunctions (data suiteLog)) /\
      getChronologicalModelNames suiteLog = map fst entries /\
      (Forall (fun entry => ValidTime (firstEndingTimestamp entry))
              (filter hasFunctions (data suiteLog)) ->
       StronglySorted earlierOrSame entries)) /\
  Permutation (getChronologicalModelNames suiteLog)
              (Object_keys (filter hasFunctions (data suiteLog))) /\
  (forallb hasFunctions (data suiteLog) = true ->
   Permutation (getChronologicalModelNames suiteLog)
               (Object_keys (data suiteLog))).
Proof.
  assert (Hperm : Permutation (chronologicalEntries suiteLog)
                              (filter hasFunctions (data suiteLog)))
    by apply Array_sort_perm.
  split; [|split].
  - exists (chronologicalEntries suiteLog). split; [exact Hperm|]. split.
    + apply getChronologicalModelNames_entries.
    + intro Hvalid.
      apply (Array_sort_sorted _
               (fun entry => wholeMilliseconds (firstEndingTimestamp entry))
               (fun entry => ValidTime (firstEndingTimestamp entry))).
      * intros x y. apply compare_time_values.
      * exact Hvalid.
  - rewrite getChronologicalModelNames_entries.
    apply Permutation_map, Hperm.
  - intro Hall. rewrite getChronologicalModelNames_entries.
    apply Permutation_map. eapply perm_trans; [exact Hperm|].
    rewrite forallb_filter_id by exact Hall. apply Permutation_refl.
Qed.

(** C1 as stated fails: with an ending timestamp beyond the range of
    [Date] the time value is [NaN], every comparison with it counts as a
    tie, and the names come out unsorted: the model ["c"], whose timestamp
    500 is the smallest, comes last. *)
Lemma timestamp_beyond_date_range_unsorted :
  getChronologicalModelNames Samples.beyondDateRange = ["b"; "a"; "c"] /\
  map (fun entry => (fst entry, firstEndingTimestamp entry))
      (data Samples.beyondDateRange)
  = [("b", JS.Num 1000); ("a", JS.Num 8640000000000001); ("c", JS.Num 500)].
Proof. vm_compute. split; reflexivity. Qed.

Lemma getChronologicalModelNames_sorted_permutation_witness :
  exists entries,
    getChronologicalModelNames Samples.threeModels = map fst entries /\
    StronglySorted earlierOrSame entries /\
    map fst entries = ["early"; "late"].
Proof.
  destruct (getChronologicalModelNames_sorted_permutation Samples.threeModels)
    as [(entries & _ & Hnames & Hsorted) _].
  exists entries. split; [exact Hnames|]. split.
  - apply Hsorted. vm_compute filter.
    repeat constructor; eexists; (split; [reflexivity|]);
      unfold Qle; simpl; lia.
  - rewrite <- Hnames. reflexivity.
Defined.

(** ** Rules for computations *)

Section Rules.

Context {A : Type}.
Implicit Types (s : State) (Q : Result A -> State -> Prop).

Lemma wp_mono (m : M A) s Q Q' :
  wp m s Q -> (forall r s', Q r s' -> Q' r s') -> wp m s Q'.
Proof. unfold wp. auto. Qed.

Lemma wp_ret (a : A) s Q : Q (Return a) s -> wp (ret a) s Q.
Proof. exact (fun H => H). Qed.

Lemma wp_throw (e : Exception) s Q : Q (Throw e) s -> wp (throw e) s Q.
Proof. exact (fun H => H). Qed.

Lemma wp_bind {B} (m : M B) (k : B -> M A) s Q :
  wp m s (fun r s' => match r with
                      | Return b => wp (k b) s' Q
                      | Throw e => Q (Throw e) s'
                      end) ->
  wp (bind m k) s Q.
Proof. unfold wp, bind. destruct (m s) as [[b|e] s']; simpl; auto. Qed.

Lemma wp_call (answer : list Event -> option A) (ev : option A -> Event) s Q :
  (forall v, answer (history s) = Some v -> Q (Return v) (recorded s (ev (Some v)))) ->
  (answer (history s) = None ->
   Q (Throw (RejectedError (ev None))) (recorded s (ev None))) ->
  wp (call answer ev) s Q.
Proof.
  unfold wp, call, recorded. intros Hs Hn.
  destruct (answer (history s)) as [v|]; simpl; auto.
Qed.

Lemma wp_readClock (clock : list Event -> A) (ev : A -> Event) s Q :
  Q (Return (clock (history s))) (recorded s (ev (clock (history s)))) ->
  wp (readClock clock ev) s Q.
Proof. exact (fun H => H). Qed.

Lemma wp_forCount (Inv : nat -> A -> State -> Prop) (body : A -> M A) Q :
  (forall k a s, Inv (S k) a s ->
     wp (body a) s (fun r s' => match r with
                                | Return a' => Inv k a' s'
                                | Throw e => Q (Throw e) s'
                                end)) ->
  (forall a s, Inv O a s -> Q (Return a) s) ->
  forall n a s, Inv n a s -> wp (forCount n body a) s Q.
Proof.
  intros Hbody Hend. induction n as [|n IH]; intros a s Hinv; simpl.
  - apply wp_ret, Hend, Hinv.
  - apply wp_bind. eapply wp_mono; [apply Hbody, Hinv|].
    intros [a'|e] s'; [apply IH | exact (fun H => H)].
Qed.

Lemma wp_forEach {X} (Inv : list X -> A -> State -> Prop) (body : X -> A -> M A) Q :
  (forall x rest a s, Inv (x :: rest) a s ->
     wp (body x a) s (fun r s' => match r with
                                  | Return a' => Inv rest a' s'
                                  | Throw e => Q (Throw e) s'
                                  end)) ->
  (forall a s, Inv [] a s -> Q (Return a) s) ->
  forall l a s, Inv l a s -> wp (forEach l body a) s Q.
Proof.
  intros Hbody Hend. induction l as [|x rest IH]; intros a s Hinv; simpl.
  - apply wp_ret, Hend, Hinv.
  - apply wp_bind. eapply wp_mono; [apply Hbody, Hinv|].
    intros [a'|e] s'; [apply IH | exact (fun H => H)].
Qed.

End Rules.

(** Read a goal about the result and the final state of a run as a [wp]. *)
Ltac as_wp :=
  match goal with
  | |- context [fst (?m ?s)] =>
      pattern (fst (m s)), (snd (m s));
      match goal with |- ?Q _ _ => change (wp m s Q) end
  end.

Lemma wp_emit (e : Event) s (Q : Result unit -> State -> Prop) :
  Q (Return tt) (recorded s e) -> wp (emit e) s Q.
Proof. exact (fun H => H). Qed.

Lemma wp_callOk (answer : list Event -> bool) (ev : bool -> Event) s
    (Q : Result unit -> State -> Prop) :
  (answer (history s) = true -> Q (Return tt) (recorded s (ev true))) ->
  (answer (history s) = false ->
   Q (Throw (RejectedError (ev false))) (recorded s (ev false))) ->
  wp (callOk answer ev) s Q.
Proof.
  unfold wp, callOk, recorded. intros Ht Hf.
  destruct (answer (history s)); simpl; auto.
Qed.

Lemma wp_checkBatchSize (b : JS.number) s (Q : Result unit -> State -> Prop) :
  (positiveInteger b = true -> Q (Return tt) s) ->
  (positiveInteger b = false -> Q (Throw (BatchSizeError b)) s) ->
  wp (checkBatchSize b) s Q.
Proof.
  unfold wp, checkBatchSize. intros Ht Hf.
  destruct (positiveInteger b); simpl; auto.
Qed.

(** ** Tensors *)

Lemma wp_tf_dispose (ids : list nat) s (Q : Result unit -> State -> Prop) :
  Q (Return tt) (disposed s ids) -> wp (tf_dispose ids) s Q.
Proof. exact (fun H => H). Qed.

Lemma tensorIds_singletonOrArray (ids : list nat) :
  tensorIds (singletonOrArray ids) = ids.
Proof. destruct ids as [|a [|b r]]; reflexivity. Qed.

Lemma allocated_0 s : allocated s 0 = s.
Proof.
  destruct s as [h l n]. unfold allocated. simpl.
  now rewrite app_nil_r, Nat.add_0_r.
Qed.

Lemma allocated_allocated s n m : allocated (allocated s n) m = allocated s (n + m).
Proof.
  unfold allocated. simpl. rewrite <- app_assoc, seq_app.
  f_equal. lia.
Qed.

(** A loop that creates one tensor per element and collects them. *)
Lemma forEach_alloc {X} (l : list X) (acc : list nat) s :
  forEach l (fun _ ids => t <- newTensor ;; ret (ids ++ [t])) acc s =
  (Return (acc ++ seq (nextTensorId s) (List.length l)), allocated s (List.length l)).
Proof.
  revert acc s. induction l as [|x r IH]; intros acc s; simpl.
  - now rewrite app_nil_r, allocated_0.
  - unfold bind at 1. unfold bind at 1. unfold newTensor, ret.
    rewrite IH. rewrite allocated_allocated. simpl.
    rewrite <- app_assoc. simpl. repeat f_equal. lia.
Qed.

Lemma wp_forEach_alloc {X} (l : list X) s (Q : Result (list nat) -> State -> Prop) :
  Q (Return (seq (nextTensorId s) (List.length l))) (allocated s (List.length l)) ->
  wp (forEach l (fun _ ids => t <- newTensor ;; ret (ids ++ [t])) []) s Q.
Proof. unfold wp. rewrite forEach_alloc. exact (fun H => H). Qed.

Lemma randomUniform_collect (w : World) (shape : Shape) (ids : list nat) s :
  (t <- tf_randomUniform w shape ;; ret (ids ++ [t])) s =
  if tf_randomUniform_creates w (history s) shape
  then (Return (ids ++ [nextTensorId s]), allocated s 1)
  else (Throw (RandomUniformError shape), s).
Proof.
  unfold bind, tf_randomUniform, newTensor, ret.
  now destruct (tf_randomUniform_creates w (history s) shape).
Qed.

(** A loop that asks for one random tensor per symbolic tensor: it
    collects them all, or stops at the first shape the engine refuses. *)
Lemma forEach_randomUniform (w : World) (b : JS.number)
    (l : list (list (option nat))) (acc : list nat) s :
  let result :=
    forEach l (fun x ids => t <- tf_randomUniform w (batchShape b x) ;;
                            ret (ids ++ [t])) acc s in
  (Forall (fun x => tf_randomUniform_creates w (history s) (batchShape b x) = true) l /\
   result = (Return (acc ++ seq (nextTensorId s) (List.length l)),
             allocated s (List.length l))) \/
  (exists x k,
      In x l /\
      tf_randomUniform_creates w (history s) (batchShape b x) = false /\
      result = (Throw (RandomUniformError (batchShape b x)), allocated s k)).
Proof.
  cbv zeta. revert acc s. induction l as [|x r IH]; intros acc s.
  - left. split; [constructor|]. simpl. now rewrite app_nil_r, allocated_0.
  - match goal with
    | |- context [forEach (x :: r) ?body acc s] =>
        assert (E : forEach (x :: r) body acc s =
                    if tf_randomUniform_creates w (history s) (batchShape b x)
                    then forEach r body (acc ++ [nextTensorId s]) (allocated s 1)
                    else (Throw (RandomUniformError (batchShape b x)), s))
    end.
    { cbn [forEach]. unfold bind at 1. rewrite randomUniform_collect.
      now destruct (tf_randomUniform_creates w (history s) (batchShape b x)). }
    rewrite E. clear E.
    destruct (tf_randomUniform_creates w (history s) (batchShape b x)) eqn:Hx.
    + destruct (IH (acc ++ [nextTensorId s]) (allocated s 1))
        as [[Hall ->]|(y & k & Hin & Hy & ->)].
      * left. split; [constructor; assumption|].
        rewrite allocated_allocated. simpl.
        rewrite <- app_assoc. simpl. repeat f_equal. lia.
      * right. exists y, (1 + k)%nat. split; [now right|]. split; [exact Hy|].
        now rewrite allocated_allocated.
    + right. exists x, 0%nat. split; [now left|]. split; [exact Hx|].
      now rewrite allocated_0.
Qed.

Lemma filter_none {X} (f : X -> bool) (l : list X) :
  (forall x, In x l -> f x = false) -> filter f l = [].
Proof.
  induction l as [|x r IH]; intro H; simpl; [reflexivity|].
  rewrite (H x (or_introl eq_refl)). apply IH.
  intros y Hy. apply H. now right.
Qed.

Lemma filter_all {X} (f : X -> bool) (l : list X) :
  (forall x, In x l -> f x = true) -> filter f l = l.
Proof.
  intro H. apply forallb_filter_id. now apply forallb_forall.
Qed.

Lemma existsb_seq (t n k : nat) :
  existsb (Nat.eqb t) (seq n k) = true <-> (n <= t < n + k)%nat.
Proof.
  rewrite existsb_exists. split.
  - intros [x [Hin Heq]]. apply Nat.eqb_eq in Heq. subst x.
    now apply in_seq in Hin.
  - intro Hr. exists t. split; [now apply in_seq | apply Nat.eqb_refl].
Qed.

(** Disposing of exactly the tensors created from [n] on, [k] of them,
    leaves the tensors alive before and those created later. *)
Lemma filter_fresh (live later : list nat) (n k : nat) :
  Forall (fun t => (t < n)%nat) live ->
  Forall (fun t => (n + k <= t)%nat) later ->
  filter (fun t => negb (existsb (Nat.eqb t) (seq n k))) (live ++ seq n k ++ later)
  = live ++ later.
Proof.
  intros Hlive Hlater. rewrite !filter_app.
  rewrite (filter_none _ (seq n k)).
  - simpl. f_equal; apply filter_all; intros t Hin.
    + rewrite Forall_forall in Hlive. specialize (Hlive t Hin).
      destruct (existsb (Nat.eqb t) (seq n k)) eqn:E; [|reflexivity].
      apply existsb_seq in E. lia.
    + rewrite Forall_forall in Hlater. specialize (Hlater t Hin).
      destruct (existsb (Nat.eqb t) (seq n k)) eqn:E; [|reflexivity].
      apply existsb_seq in E. lia.
  - intros t Hin. apply in_seq in Hin.
    assert (E : existsb (Nat.eqb t) (seq n k) = true) by now apply existsb_seq.
    now rewrite E.
Qed.

(** Create [n] tensors, then dispose of them. *)
Lemma disposed_allocated s n :
  wfState s ->
  liveTensors (disposed (allocated s n) (seq (nextTensorId s) n)) = liveTensors s.
Proof.
  intro H. unfold disposed, allocated. simpl.
  pose proof (filter_fresh (liveTensors s) [] (nextTensorId s) n H (Forall_nil _)) as E.
  now rewrite !app_nil_r in E.
Qed.

(** What [tf.tidy] leaves of the tensors created in its scope. *)
Lemma tidy_keeps (live : list nat) (n k : nat) (kept : list nat) :
  Forall (fun t => (t < n)%nat) live ->
  (forall t, In t (seq n k) -> In t kept) ->
  filter (fun t => (t <? n)%nat || existsb (Nat.eqb t) kept) (live ++ seq n k)
  = live ++ seq n k.
Proof.
  intros Hlive Hkept. apply filter_all. intros t Hin. apply in_app_or in Hin.
  destruct Hin as [Hin|Hin].
  - rewrite Forall_forall in Hlive. apply Hlive in Hin.
    apply Nat.ltb_lt in Hin. now rewrite Hin.
  - apply orb_true_iff. right. apply existsb_exists. exists t.
    split; [now apply Hkept | apply Nat.eqb_refl].
Qed.

Lemma tidy_disposes (live : list nat) (n k : nat) :
  Forall (fun t => (t < n)%nat) live ->
  filter (fun t => (t <? n)%nat || false) (live ++ seq n k) = live.
Proof.
  intro Hlive. rewrite filter_app, (filter_none _ (seq n k)).
  - rewrite app_nil_r. apply filter_all. intros t Hin.
    rewrite Forall_forall in Hlive. apply Hlive in Hin.
    apply Nat.ltb_lt in Hin. now rewrite Hin.
  - intros t Hin. apply in_seq in Hin. rewrite orb_false_r.
    apply Nat.ltb_ge. lia.
Qed.

(** The body of the tidy scope of [getRandomInputsAndOutputs]. *)
Lemma randomInputsAndOutputs_body (w : World) (model : Model) (b : JS.number) s :
  let i := List.length (inputs model) in
  let o := List.length (outputs model) in
  let result :=
    (xs <- forEach (inputs model)
             (fun input xs =>
                t <- tf_randomUniform w (batchShape b input) ;;
                ret (xs ++ [t])) [] ;;
     ys <- forEach (outputs model)
             (fun output ys =>
                t <- tf_randomUniform w (batchShape b output) ;;
                ret (ys ++ [t])) [] ;;
     ret (singletonOrArray xs, singletonOrArray ys)) s in
  (Forall (fun shape => tf_randomUniform_creates w (history s) shape = true)
          (shapesOf model b) /\
   result = (Return (singletonOrArray (seq (nextTensorId s) i),
                     singletonOrArray (seq (nextTensorId s + i) o)),
             allocated s (i + o))) \/
  (exists shape k,
      In shape (shapesOf model b) /\
      tf_randomUniform_creates w (history s) shape = false /\
      result = (Throw (RandomUniformError shape), allocated s k)).
Proof.
  cbv zeta. unfold shapesOf.
  match goal with
  | |- context [bind ?m ?k s] => set (body := bind m k s)
  end.
  assert (E : body =
              match forEach (inputs model)
                      (fun input xs =>
                         t <- tf_randomUniform w (batchShape b input) ;;
                         ret (xs ++ [t])) [] s with
              | (Return xs, s1) =>
                  match forEach (outputs model)
                          (fun output ys =>
                             t <- tf_randomUniform w (batchShape b output) ;;
                             ret (ys ++ [t])) [] s1 with
                  | (Return ys, s2) =>
                      (Return (singletonOrArray xs, singletonOrArray ys), s2)
                  | (Throw e, s2) => (Throw e, s2)
                  end
              | (Throw e, s1) => (Throw e, s1)
              end).
  { unfold body, bind at 1.
    destruct (forEach (inputs model) _ [] s) as [[xs|e] s1]; [|reflexivity].
    unfold bind at 1.
    destruct (forEach (outputs model) _ [] s1) as [[ys|e] s2]; reflexivity. }
  rewrite E. clear E body.
  destruct (forEach_randomUniform w b (inputs model) [] s)
    as [[Hin ->]|(x & k & Hx & Hno & ->)].
  - destruct (forEach_randomUniform w b (outputs model) []
                (allocated s (List.length (inputs model))))
      as [[Hout ->]|(x & k & Hx & Hno & ->)].
    + left. split.
      * apply Forall_app. split; apply Forall_map; assumption.
      * rewrite allocated_allocated. reflexivity.
    + right. exists (batchShape b x), (List.length (inputs model) + k)%nat.
      split; [apply in_or_app; right; now apply in_map|].
      split; [exact Hno|]. now rewrite allocated_allocated.
  - right. exists (batchShape b x), k.
    split; [apply in_or_app; left; now apply in_map|].
    split; [exact Hno | reflexivity].
Qed.

(** [getRandomInputsAndOutputs]: either the engine creates every tensor
    asked for, and these are alive on return; or it refuses a shape, and
    the tensors created until then are disposed of when the exception
    leaves the tidy scope.  No call is recorded. *)
Lemma wp_getRandomInputsAndOutputs (w : World) (model : Model) (b : JS.number) s
    (Q : Result (Tensors * Tensors) -> State -> Prop) :
  (let i := List.length (inputs model) in
   let o := List.length (outputs model) in
   forall s',
     Forall (fun shape => tf_randomUniform_creates w (history s) shape = true)
            (shapesOf model b) ->
     history s' = history s ->
     nextTensorId s' = (nextTensorId s + (i + o))%nat ->
     (wfState s ->
      liveTensors s' = liveTensors s ++ seq (nextTensorId s) (i + o)) ->
     Q (Return (singletonOrArray (seq (nextTensorId s) i),
                singletonOrArray (seq (nextTensorId s + i) o))) s') ->
  (forall shape s',
     In shape (shapesOf model b) ->
     tf_randomUniform_creates w (history s) shape = false ->
     history s' = history s ->
     (nextTensorId s <= nextTensorId s')%nat ->
     (wfState s -> liveTensors s' = liveTensors s) ->
     Q (Throw (RandomUniformError shape)) s') ->
  wp (getRandomInputsAndOutputs w model b) s Q.
Proof.
  cbv zeta. intros Hok Hfail.
  unfold wp, getRandomInputsAndOutputs, tf_tidy. cbv zeta.
  destruct (randomInputsAndOutputs_body w model b s)
    as [[Hall ->]|(shape & k & Hin & Hno & ->)]; cbn [fst snd].
  - apply Hok; [exact Hall | reflexivity | reflexivity |].
    intro Hwf. simpl. rewrite !tensorIds_singletonOrArray.
    apply tidy_keeps; [exact Hwf|].
    intros t Ht. rewrite <- seq_app. exact Ht.
  - apply Hfail; [exact Hin | exact Hno | reflexivity | simpl; lia |].
    intro Hwf. simpl. now apply tidy_disposes.
Qed.

(** What [getRandomInputsAndOutputs] returns: when the engine creates
    every tensor, the fresh tensors, first those of the inputs; and
    whenever it returns, the tensors it returns are alive. *)
Lemma getRandomInputsAndOutputs_made (w : World) (model : Model) (b : JS.number) s :
  let made := getRandomInputsAndOutputs w model b s in
  let n := nextTensorId s in
  let i := List.length (inputs model) in
  let o := List.length (outputs model) in
  (Forall (fun shape => tf_randomUniform_creates w (history s) shape = true)
          (shapesOf model b) ->
   fst made = Return (singletonOrArray (seq n i), singletonOrArray (seq (n + i) o))) /\
  (forall xs ys, fst made = Return (xs, ys) ->
     tensorIds xs ++ tensorIds ys = seq n (i + o) /\
     (wfState s -> liveTensors (snd made) = liveTensors s ++ tensorIds xs ++ tensorIds ys)).
Proof.
  cbv zeta.
  match goal with
  | |- (?H -> fst (?m ?s) = ?r) /\ _ =>
      change (wp m s (fun res s' =>
                (H -> res = r) /\
                (forall xs ys, res = Return (xs, ys) ->
                   tensorIds xs ++ tensorIds ys
                   = seq (nextTensorId s)
                         (List.length (inputs model) + List.length (outputs model)) /\
                   (wfState s ->
                    liveTensors s' = liveTensors s ++ tensorIds xs ++ tensorIds ys))))
  end.
  apply wp_getRandomInputsAndOutputs; cbv zeta.
  - intros s' _ _ _ Hlive. split; [reflexivity|].
    intros xs ys [= <- <-]. rewrite !tensorIds_singletonOrArray, <- seq_app.
    split; [reflexivity | exact Hlive].
  - intros shape s' Hin Hno _ _ _. split; [|discriminate].
    intro Hall. rewrite Forall_forall in Hall. rewrite (Hall _ Hin) in Hno.
    discriminate.
Qed.

(** ** Steps *)

Lemma keptDuring_app (w : World) (h evs evs' : list Event) :
  keptDuring w h (evs ++ evs') =
  (keptDuring w h evs + keptDuring w (h ++ evs) evs')%nat.
Proof.
  revert h. induction evs as [|e r IH]; intro h; simpl.
  - now rewrite app_nil_r.
  - rewrite IH, <- app_assoc. simpl. lia.
Qed.

Section Steps.

Context (w : World).

Lemma step_refl s : step w s s [].
Proof.
  unfold step. rewrite app_nil_r. split; [reflexivity|]. split; [lia|].
  intros _. exists []. rewrite app_nil_r. repeat split. constructor.
Qed.

Lemma step_wf s s' evs : step w s s' evs -> wfState s -> wfState s'.
Proof.
  intros (_ & Hn & Hl) Hwf. destruct (Hl Hwf) as (kept & Hlive & _ & Hkept).
  unfold wfState. rewrite Hlive. apply Forall_app. split.
  - eapply Forall_impl; [|exact Hwf]. simpl. intros; lia.
  - eapply Forall_impl; [|exact Hkept]. simpl. intros; lia.
Qed.

Lemma step_trans s1 s2 s3 evs1 evs2 :
  step w s1 s2 evs1 -> step w s2 s3 evs2 -> step w s1 s3 (evs1 ++ evs2).
Proof.
  intros H1 H2. pose proof (step_wf _ _ _ H1) as Hwf.
  destruct H1 as (Hh1 & Hn1 & Hl1), H2 as (Hh2 & Hn2 & Hl2).
  split; [|split].
  - now rewrite Hh2, Hh1, app_assoc.
  - lia.
  - intro H. destruct (Hl1 H) as (kept1 & Hlive1 & Hlen1 & Hk1).
    destruct (Hl2 (Hwf H)) as (kept2 & Hlive2 & Hlen2 & Hk2).
    exists (kept1 ++ kept2). split; [now rewrite Hlive2, Hlive1, app_assoc|].
    split.
    + rewrite length_app, keptDuring_app, <- Hh1. lia.
    + apply Forall_app. split.
      * eapply Forall_impl; [|exact Hk1]. simpl. intros; lia.
      * eapply Forall_impl; [|exact Hk2]. simpl. intros; lia.
Qed.

(** A call after which the engine keeps nothing. *)
Lemma step_recorded s e : keeps e = false -> step w s (recorded s e) [e].
Proof.
  intro He. unfold step, recorded. simpl. rewrite He.
  split; [reflexivity|]. split; [lia|].
  intros _. exists []. rewrite app_nil_r. repeat split. constructor.
Qed.

(** A call after which the engine keeps tensors of its own. *)
Lemma step_kept s e :
  keeps e = true ->
  step w s (allocated (recorded s e) (tf_kept w (history (recorded s e)))) [e].
Proof.
  intro He. unfold step, allocated, recorded. simpl. rewrite He.
  split; [reflexivity|]. split; [lia|].
  intros _. exists (seq (nextTensorId s) (tf_kept w (history s ++ [e]))).
  split; [reflexivity|]. split; [rewrite length_seq; lia|].
  apply Forall_forall. intros t Ht. apply in_seq in Ht. lia.
Qed.

(** A step that creates [n] tensors and disposes of them at once. *)
Lemma step_alloc_dispose s n :
  step w s (disposed (allocated s n) (seq (nextTensorId s) n)) [].
Proof.
  split; [|split].
  - simpl. now rewrite app_nil_r.
  - simpl. lia.
  - intro Hwf. exists []. rewrite app_nil_r.
    split; [now apply disposed_allocated|]. split; [reflexivity | constructor].
Qed.

(** A call recorded, [n] tensors created by it, and these disposed of. *)
Lemma step_predict_dispose s n e :
  keeps e = false ->
  step w s (disposed (allocated (recorded s e) n) (seq (nextTensorId s) n)) [e].
Proof.
  intro He. apply (step_trans _ _ _ [_] [] (step_recorded s e He)).
  apply (step_alloc_dispose (recorded s e)).
Qed.

Lemma step_then_recorded s s' evs e :
  keeps e = false -> step w s s' evs -> step w s (recorded s' e) (evs ++ [e]).
Proof. intros He H. eapply step_trans; [exact H | now apply step_recorded]. Qed.

Lemma step_then_kept s s' evs e :
  keeps e = true -> step w s s' evs ->
  step w s (allocated (recorded s' e) (tf_kept w (history (recorded s' e))))
       (evs ++ [e]).
Proof. intros He H. eapply step_trans; [exact H | now apply step_kept]. Qed.

Lemma step_recorded_then s s' evs e :
  keeps e = false -> step w (recorded s e) s' evs -> step w s s' (e :: evs).
Proof.
  intros He H.
  apply (step_trans s (recorded s e) s' [e] evs); [now apply step_recorded | exact H].
Qed.

Lemma step_kept_then s s' evs e :
  keeps e = true ->
  step w (allocated (recorded s e) (tf_kept w (history (recorded s e)))) s' evs ->
  step w s s' (e :: evs).
Proof.
  intros He H.
  eapply (step_trans s _ s' [e] evs); [apply step_kept, He | exact H].
Qed.

Lemma thrown_after s1 s2 s3 evs e :
  step w s1 s2 evs -> thrown w s2 s3 e -> thrown w s1 s3 e.
Proof.
  intros Hstep [He [evs' Hstep']]. split; [exact He|].
  eexists. eapply step_trans; eassumption.
Qed.

(** An engine call that leaves tensors behind when it returns. *)
Lemma wp_engineCall (answer : list Event -> bool) (ev : bool -> Event) s
    (Q : Result unit -> State -> Prop) :
  (answer (history s) = true ->
   Q (Return tt)
     (allocated (recorded s (ev true)) (tf_kept w (history (recorded s (ev true)))))) ->
  (answer (history s) = false ->
   Q (Throw (RejectedError (ev false))) (recorded s (ev false))) ->
  wp (callOk answer ev ;; engineKeeps w) s Q.
Proof.
  intros Ht Hf. apply wp_bind, wp_callOk; [intro H | exact Hf].
  exact (Ht H).
Qed.

End Steps.

(** A step that only records calls, read off the final state, and read
    off the calls. *)
Ltac step_records :=
  first [ apply step_refl
        | eapply step_then_recorded; [reflexivity | step_records]
        | eapply step_then_kept; [reflexivity | step_records] ].

Ltac step_calls :=
  repeat first [ apply step_refl
               | apply step_recorded_then; [reflexivity|]
               | apply step_kept_then; [reflexivity|] ].

(** ** The predict branch *)

Section Predict.

Context (w : World) (model : Model) (xs : Tensors).

Let predictReturns : Prop := forall h, tf_predict w h model xs = true.

Lemma wp_model_predict s (Q : Result Tensors -> State -> Prop) :
  (tf_predict w (history s) model xs = true ->
   Q (Return (singletonOrArray (seq (nextTensorId s) (List.length (outputs model)))))
     (allocated (recorded s (EvPredict xs true)) (List.length (outputs model)))) ->
  (tf_predict w (history s) model xs = false ->
   Q (Throw (RejectedError (EvPredict xs false))) (recorded s (EvPredict xs false))) ->
  wp (model_predict w model xs) s Q.
Proof.
  intros Ht Hf. unfold model_predict.
  apply wp_bind, wp_callOk; [intro Hok | exact Hf].
  apply wp_bind, wp_forEach_alloc. apply wp_ret. exact (Ht Hok).
Qed.

(** [await syncDataAndDispose(model.predict(xs))]: one call, and the
    outputs are gone afterwards. *)
Lemma predict_dispose_spec s :
  wp (out <- model_predict w model xs ;; syncDataAndDispose out) s
     (fun r s' =>
        match r with
        | Return _ => step w s s' [EvPredict xs true]
        | Throw e => thrown w s s' e
        end /\
        (tf_predict w (history s) model xs = true -> returns r)).
Proof.
  apply wp_bind, wp_model_predict; intro Hok.
  - unfold syncDataAndDispose. rewrite tensorIds_singletonOrArray.
    apply wp_tf_dispose. split; [|intros _; now exists tt].
    now apply step_predict_dispose.
  - split; [|congruence]. split; [exact I|]. eexists. now apply step_recorded.
Qed.

Lemma warmUp_spec (n : nat) s :
  wp (forCount n (warmUpPredict w model xs) tt) s
     (fun r s' =>
        match r with
        | Return _ => step w s s' (repeat (EvPredict xs true) n)
        | Throw e => thrown w s s' e
        end /\
        (predictReturns -> returns r)).
Proof.
  apply (wp_forCount
           (fun k _ s' => exists d, (d + k = n)%nat /\
                                    step w s s' (repeat (EvPredict xs true) d))).
  - intros k [] s1 (d & Hd & Hstep). unfold warmUpPredict.
    eapply wp_mono; [apply predict_dispose_spec|].
    intros [[]|e] s2 [Hr Hret]; simpl in *.
    + exists (S d). split; [lia|].
      replace (S d) with (d + 1)%nat by lia. rewrite repeat_app.
      eapply step_trans; eassumption.
    + split; [eapply thrown_after; eassumption|]. intro Hall. apply Hret, Hall.
  - intros [] s1 (d & Hd & Hstep). rewrite Nat.add_0_r in Hd. subst d.
    split; [exact Hstep | intros _; now exists tt].
  - exists O. split; [reflexivity | apply step_refl].
Qed.

(** One benchmarked call and its two clock readings. *)
Lemma timedPredict_spec (ts : list Q) s :
  wp (timedPredict w model xs ts) s
     (fun r s' =>
        match r with
        | Return ts' => exists reading, step w s s' (timedCall xs reading) /\
                                        ts' = ts ++ [duration reading]
        | Throw e => thrown w s s' e
        end /\
        (predictReturns -> returns r)).
Proof.
  unfold timedPredict, now.
  apply wp_bind, wp_readClock.
  set (t0 := tf_util_now w (history s)). set (s1 := recorded s (EvNow t0)).
  apply wp_bind, wp_model_predict; intro Hok.
  - unfold syncDataAndDispose. rewrite tensorIds_singletonOrArray.
    apply wp_bind, wp_tf_dispose. apply wp_bind, wp_readClock. apply wp_ret.
    split; [|intros _; eexists; reflexivity].
    eexists (t0, _). split; [|reflexivity].
    unfold timedCall. simpl.
    apply step_recorded_then; [reflexivity|]. fold s1.
    eapply (step_trans _ _ _ _ [_] [_]);
      [apply (step_predict_dispose w s1); reflexivity|].
    now apply step_recorded.
  - split; [|intro Hall; specialize (Hall (history s1)); congruence].
    split; [exact I|]. eexists.
    eapply step_trans; [apply (step_recorded w s) | apply step_recorded];
      reflexivity.
Qed.

Lemma timed_spec (n : nat) s :
  wp (forCount n (timedPredict w model xs) []) s
     (fun r s' =>
        match r with
        | Return ts => exists readings,
            List.length readings = n /\
            step w s s' (flat_map (timedCall xs) readings) /\
            ts = map duration readings
        | Throw e => thrown w s s' e
        end /\
        (predictReturns -> returns r)).
Proof.
  apply (wp_forCount
           (fun k ts s' => exists readings,
                (List.length readings + k = n)%nat /\
                step w s s' (flat_map (timedCall xs) readings) /\
                ts = map duration readings)).
  - intros k ts s1 (readings & Hlen & Hstep & Hts).
    eapply wp_mono; [apply timedPredict_spec|].
    intros [ts'|e] s2 [Hr Hret]; simpl in *.
    + destruct Hr as (reading & Hstep' & ->).
      exists (readings ++ [reading]). rewrite length_app. simpl.
      split; [lia|]. split.
      * rewrite flat_map_app. cbn [flat_map]. rewrite app_nil_r.
        eapply step_trans; eassumption.
      * now rewrite map_app, Hts.
    + split; [eapply thrown_after; eassumption|]. intro Hall. apply Hret, Hall.
  - intros ts s1 (readings & Hlen & Hstep & Hts). rewrite Nat.add_0_r in Hlen.
    split; [|intros _; eexists; reflexivity].
    exists readings. auto.
  - exists []. simpl. split; [reflexivity|]. split; [apply step_refl | reflexivity].
Qed.

End Predict.

Lemma returns_Throw {A} (e : Exception) : ~ @returns A (Throw e).
Proof. intros [a H]. discriminate. Qed.

Lemma Dispatched_recognised ids m f tid pyRun xs ys evs tf :
  Dispatched ids m f tid pyRun xs ys evs tf ->
  (recognised f = true -> exists run, tf = Some run) /\
  (recognised f = false -> tf = None).
Proof.
  intros [readings ending -> _ _ | t0 t1 ending -> | Hskip].
  - split; [eauto | discriminate].
  - split; [eauto | discriminate].
  - rewrite Hskip. split; [discriminate | reflexivity].
Qed.

Section Branches.

Context (w : World) (ids : Ids) (model : Model).
Context (modelName functionName taskId : string) (pyRun : ModelBenchmarkRun).
Context (xs ys : Tensors).

Lemma benchmarkPredict_spec s :
  functionName = "predict" ->
  wp (benchmarkPredict w ids model modelName functionName taskId pyRun xs) s
     (fun r s' =>
        match r with
        | Return run => exists evs,
            step w s s' evs /\
            Dispatched ids modelName functionName taskId pyRun xs ys evs (Some run)
        | Throw e => thrown w s s' e
        end /\
        ((forall h, tf_predict w h model xs = true) ->
         (0 < numBenchmarkedIterations pyRun)%nat -> returns r)).
Proof.
  intro Hf. unfold benchmarkPredict.
  apply wp_bind. eapply wp_mono; [apply warmUp_spec|].
  intros [[]|e] s1 [Hr Hret]; simpl in *;
    [|split; [exact Hr | intros Hall _; destruct (returns_Throw _ (Hret Hall))]].
  apply wp_bind. eapply wp_mono; [apply timed_spec|].
  intros [ts|e] s2 [Hr2 Hret2]; simpl in *;
    [|split; [eapply thrown_after; eassumption |
              intros Hall _; destruct (returns_Throw _ (Hret2 Hall))]].
  destruct Hr2 as (readings & Hlen & Hstep & ->).
  apply wp_bind. unfold math_mean.
  destruct readings as [|reading readings].
  - simpl. apply wp_throw. split; [|simpl in Hlen; intros _ Hpos; lia].
    split; [exact I|]. eexists. eapply step_trans; eassumption.
  - cbn [map]. apply wp_ret. unfold Date_getTime_now.
    apply wp_bind, wp_readClock. apply wp_ret.
    split; [|intros _ _; eexists; reflexivity].
    eexists. split.
    + eapply step_trans; [exact Hr|].
      eapply step_trans; [exact Hstep|]. now apply step_recorded.
    + apply (DispatchedPredict _ _ _ _ _ _ _ (reading :: readings));
        [exact Hf | exact Hlen | simpl in Hlen; lia].
Qed.

Lemma benchmarkFit_spec s :
  functionName = "fit" ->
  wp (benchmarkFit w ids model modelName functionName taskId pyRun xs ys) s
     (fun r s' =>
        match r with
        | Return run => exists evs,
            step w s s' evs /\
            Dispatched ids modelName functionName taskId pyRun xs ys evs (Some run)
        | Throw e => thrown w s s' e
        end /\
        ((forall h, tf_compile w h model (getNamed LOSS_MAP (loss pyRun))
                               (getNamed OPTIMIZER_MAP (optimizer pyRun)) = true) ->
         (forall h n, tf_fit w h model xs ys n = true) -> returns r)).
Proof.
  intro Hf. unfold benchmarkFit, model_compile, model_fit, now, Date_getTime_now.
  apply wp_bind, wp_engineCall; intro Hc;
    [|split; [split; [exact I | eexists; step_records] |
              intros Hall _; rewrite Hall in Hc; discriminate]].
  apply wp_bind, wp_engineCall; intro Hw;
    [|split; [split; [exact I | eexists; step_records] |
              intros _ Hall; rewrite Hall in Hw; discriminate]].
  apply wp_bind, wp_readClock.
  apply wp_bind, wp_engineCall; intro Hb;
    [|split; [split; [exact I | eexists; step_records] |
              intros _ Hall; rewrite Hall in Hb; discriminate]].
  apply wp_bind, wp_readClock.
  apply wp_bind, wp_readClock. apply wp_ret.
  split; [|intros _ _; eexists; reflexivity].
  eexists. split; [|apply DispatchedFit; exact Hf].
  step_calls.
Qed.

Lemma benchmarkDispatch_spec s :
  wp (benchmarkDispatch w ids model modelName functionName taskId pyRun xs ys) s
     (fun r s' =>
        match r with
        | Return tfjsRun => exists evs,
            step w s s' evs /\
            Dispatched ids modelName functionName taskId pyRun xs ys evs tfjsRun
        | Throw e => thrown w s s' e
        end /\
        ((functionName = "predict" ->
          (forall h, tf_predict w h model xs = true) /\
          (0 < numBenchmarkedIterations pyRun)%nat) ->
         (functionName = "fit" ->
          (forall h, tf_compile w h model (getNamed LOSS_MAP (loss pyRun))
                                (getNamed OPTIMIZER_MAP (optimizer pyRun)) = true) /\
          (forall h n, tf_fit w h model xs ys n = true)) ->
         returns r)).
Proof.
  unfold benchmarkDispatch.
  destruct (String.eqb_spec functionName "predict") as [Hp|Hp].
  - apply wp_bind. eapply wp_mono; [apply benchmarkPredict_spec, Hp|].
    intros [run|e] s1 [Hr Hret]; simpl in *.
    + apply wp_ret. split; [exact Hr | intros _ _; eexists; reflexivity].
    + split; [exact Hr|]. intros H _. destruct (H Hp).
      exfalso. eapply returns_Throw. apply Hret; assumption.
  - destruct (String.eqb_spec functionName "fit") as [Hf|Hf].
    + apply wp_bind. eapply wp_mono; [apply benchmarkFit_spec, Hf|].
      intros [run|e] s1 [Hr Hret]; simpl in *.
      * apply wp_ret. split; [exact Hr | intros _ _; eexists; reflexivity].
      * split; [exact Hr|]. intros _ H. destruct (H Hf).
        exfalso. eapply returns_Throw. apply Hret; assumption.
    + apply wp_bind. unfold console_warn. apply wp_emit. apply wp_ret.
      split; [|intros _ _; eexists; reflexivity].
      eexists. split; [now apply step_recorded|].
      apply DispatchedSkip. unfold recognised.
      apply String.eqb_neq in Hp, Hf. now rewrite Hp, Hf.
Qed.

End Branches.

(** ** The body of the loop over the functions of a model *)

(** Tensors created before a step and disposed of after it: [s1] is the
    state after [k] tensors were created in [s]. *)
Lemma step_alloc_frame (w : World) s s1 k s' evs :
  history s1 = history s ->
  nextTensorId s1 = (nextTensorId s + k)%nat ->
  (wfState s -> liveTensors s1 = liveTensors s ++ seq (nextTensorId s) k) ->
  step w s1 s' evs ->
  step w s (disposed s' (seq (nextTensorId s) k)) evs /\
  (wfState s ->
   exists kept,
     liveTensors s' = liveTensors s ++ seq (nextTensorId s) k ++ kept /\
     List.length kept = keptDuring w (history s) evs /\
     Forall (fun t => (nextTensorId s + k <= t)%nat) kept /\
     liveTensors (disposed s' (seq (nextTensorId s) k)) = liveTensors s ++ kept).
Proof.
  intros Hh1 Hn1 Hl1 (Hh & Hn & Hl).
  assert (Hmain : wfState s ->
                  exists kept,
                    liveTensors s' = liveTensors s ++ seq (nextTensorId s) k ++ kept /\
                    List.length kept = keptDuring w (history s) evs /\
                    Forall (fun t => (nextTensorId s + k <= t < nextTensorId s')%nat) kept /\
                    liveTensors (disposed s' (seq (nextTensorId s) k))
                    = liveTensors s ++ kept).
  { intro Hwf.
    assert (Hwf1 : wfState s1).
    { unfold wfState. rewrite (Hl1 Hwf), Hn1. apply Forall_app. split.
      - eapply Forall_impl; [|exact Hwf]. simpl. intros; lia.
      - apply Forall_forall. intros t Ht. apply in_seq in Ht. lia. }
    destruct (Hl Hwf1) as (kept & Hlive & Hlen & Hkept).
    exists kept. rewrite Hn1 in Hkept.
    split; [now rewrite Hlive, (Hl1 Hwf), <- app_assoc|].
    split; [now rewrite <- Hh1|]. split; [exact Hkept|].
    unfold disposed. simpl. rewrite Hlive, (Hl1 Hwf), <- app_assoc.
    apply filter_fresh; [exact Hwf|].
    eapply Forall_impl; [|exact Hkept]. simpl. intros; lia. }
  split.
  - split; [simpl; now rewrite Hh, Hh1|]. split; [simpl; lia|].
    intro Hwf. destruct (Hmain Hwf) as (kept & _ & Hlen & Hkept & Hlive).
    exists kept. split; [exact Hlive|]. split; [exact Hlen|].
    eapply Forall_impl; [|exact Hkept]. simpl. intros; lia.
  - intro Hwf. destruct (Hmain Hwf) as (kept & H1 & H2 & H3 & H4).
    exists kept. repeat split; try assumption.
    eapply Forall_impl; [|exact H3]. simpl. intros; lia.
Qed.

Lemma attemptable_batchSize f pyRun :
  attemptable f pyRun = true -> positiveInteger (batchSize pyRun) = true.
Proof. unfold attemptable. intro H. now apply andb_prop in H. Qed.

Lemma attemptable_predict pyRun :
  attemptable "predict" pyRun = true -> (0 < numBenchmarkedIterations pyRun)%nat.
Proof.
  unfold attemptable. intro H. apply andb_prop in H. destruct H as [_ H].
  simpl in H. now apply Nat.ltb_lt in H.
Qed.

Lemma replayable_attemptable f pyRun :
  replayable f pyRun = true -> attemptable f pyRun = true.
Proof. unfold replayable. intro H. now apply andb_prop in H. Qed.

(** The body of the loop for one pair.  When it returns, the calls were
    the answered request of the task identifier and those of the dispatch,
    the random tensors [xs] and [ys] of the pair were created first and are
    no longer alive, and what is alive beyond the tensors alive before is
    what the engine kept for itself.  When it throws, either the request
    was rejected, or the batch size is invalid, or the engine refused to
    create a random tensor (in these three cases no tensor of the pair is
    alive), or the dispatch threw, and then [xs] and [ys] are all alive. *)
Lemma benchmarkFunction_spec (w : World) (ids : Ids) (model : Model)
    (modelName functionName : string) (pyRun : ModelBenchmarkRun) (runs : Runs) s :
  let request := EvAddOrGetTaskId taskType_model modelName functionName in
  let n := nextTensorId s in
  let k := (List.length (inputs model) + List.length (outputs model))%nat in
  wp (benchmarkFunction w ids model modelName (functionName, pyRun) runs) s
     (fun r s' =>
        match r with
        | Return runs' => exists taskId xs ys evs tfjsRun,
            step w s s' (request (Some taskId) :: evs) /\
            positiveInteger (batchSize pyRun) = true /\
            Dispatched ids modelName functionName taskId pyRun xs ys evs tfjsRun /\
            runs' = (fst runs ++ [identified pyRun taskId (pyEnvironmentId ids)],
                     snd runs ++ [tfjsRun]) /\
            tensorIds xs ++ tensorIds ys = seq n k /\
            (wfState s ->
             exists kept,
               liveTensors s' = liveTensors s ++ kept /\
               List.length kept
               = keptDuring w (history s) (request (Some taskId) :: evs) /\
               Forall (fun t => (n + k <= t)%nat) kept) /\
            firestore_addOrGetTaskId w (history s) taskType_model modelName functionName
            = Some taskId /\
            fst (getRandomInputsAndOutputs w model (batchSize pyRun)
                   (recorded s (request (Some taskId)))) = Return (xs, ys)
        | Throw e =>
            (e = RejectedError (request None) /\ s' = recorded s (request None)) \/
            (exists taskId,
                e = BatchSizeError (batchSize pyRun) /\
                positiveInteger (batchSize pyRun) = false /\
                s' = recorded s (request (Some taskId))) \/
            (exists taskId shape,
                e = RandomUniformError shape /\
                In shape (shapesOf model (batchSize pyRun)) /\
                positiveInteger (batchSize pyRun) = true /\
                history s' = history s ++ [request (Some taskId)] /\
                (n <= nextTensorId s')%nat /\
                (wfState s -> liveTensors s' = liveTensors s)) \/
            (dispatchError e /\
             (n <= nextTensorId s')%nat /\
             exists taskId evs xs ys,
               history s' = history s ++ request (Some taskId) :: evs /\
               (wfState s ->
                exists kept,
                  liveTensors s' = liveTensors s ++ seq n k ++ kept /\
                  List.length kept
                  = keptDuring w (history s) (request (Some taskId) :: evs) /\
                  Forall (fun t => (n + k <= t)%nat) kept) /\
               firestore_addOrGetTaskId w (history s) taskType_model modelName
                                        functionName = Some taskId /\
               fst (getRandomInputsAndOutputs w model (batchSize pyRun)
                      (recorded s (request (Some taskId)))) = Return (xs, ys))
        end /\
        (pairAnswered w model modelName functionName pyRun ->
         attemptable functionName pyRun = true -> returns r)).
Proof.
  cbv zeta. unfold benchmarkFunction, addOrGetTaskId. cbn [fst snd].
  apply wp_bind, wp_call; [intros taskId Htask | intro Htask];
    [|split; [left; split; reflexivity |
              intros (Hans & _) _; now destruct (Hans (history s))]].
  set (request := EvAddOrGetTaskId taskType_model modelName functionName).
  set (s1 := recorded s _).
  assert (Hs1 : step w s s1 [request (Some taskId)]) by now apply step_recorded.
  apply wp_bind, wp_checkBatchSize; intro Hbatch;
    [|split; [right; left; exists taskId; split; [reflexivity|]; split;
              [exact Hbatch | reflexivity] |
              intros _ Hrep; apply attemptable_batchSize in Hrep; congruence]].
  apply wp_bind, wp_getRandomInputsAndOutputs; cbv zeta.
  - intros s2 Hcreated Hh2 Hn2 Hl2.
    set (i := List.length (inputs model)). set (o := List.length (outputs model)).
    fold i o in Hn2, Hl2.
    set (xs := singletonOrArray (seq (nextTensorId s1) i)).
    set (ys := singletonOrArray (seq (nextTensorId s1 + i) o)).
    cbn [fst snd].
    assert (Hids : tensorIds xs ++ tensorIds ys = seq (nextTensorId s) (i + o)).
    { unfold xs, ys. now rewrite !tensorIds_singletonOrArray, <- seq_app. }
    assert (Hmade : fst (getRandomInputsAndOutputs w model (batchSize pyRun) s1)
                    = Return (xs, ys))
      by exact (proj1 (getRandomInputsAndOutputs_made w model _ s1) Hcreated).
    apply wp_bind. eapply wp_mono; [apply benchmarkDispatch_spec|].
    intros [tfjsRun|e] s3 [Hr Hret]; cbn beta iota.
    + destruct Hr as (evs & Hstep & Hdisp).
      apply wp_bind, wp_tf_dispose. apply wp_ret.
      split; [|intros _ _; eexists; reflexivity].
      exists taskId, xs, ys, evs, tfjsRun.
      rewrite Hids.
      destruct (step_alloc_frame w s1 s2 (i + o) s3 evs Hh2 Hn2 Hl2 Hstep)
        as [Hframe Hkept].
      split; [apply (step_trans w _ _ _ [_] evs Hs1 Hframe)|].
      split; [exact Hbatch|]. split; [exact Hdisp|]. split; [reflexivity|].
      split; [reflexivity|].
      split; [|split; [exact Htask | exact Hmade]].
      intro Hwf. destruct (Hkept (step_wf _ _ _ _ Hs1 Hwf))
        as (kept & _ & Hlen & Hge & Hlive).
      exists kept. split; [exact Hlive|]. split; [|exact Hge].
      exact Hlen.
    + split.
      * right; right; right. destruct Hr as [He (evs & Hstep)].
        split; [exact He|].
        destruct (step_alloc_frame w s1 s2 (i + o) s3 evs Hh2 Hn2 Hl2 Hstep)
          as [(Hh & Hn & _) Hkept].
        split; [simpl in Hn; exact Hn|].
        exists taskId, evs, xs, ys. split.
        { destruct Hstep as (Hh3 & _). rewrite Hh3, Hh2. unfold s1. simpl.
          now rewrite <- app_assoc. }
        split; [|split; [exact Htask | exact Hmade]].
        intro Hwf. destruct (Hkept (step_wf _ _ _ _ Hs1 Hwf))
          as (kept & Hlive & Hlen & Hge & _).
        exists kept. split; [exact Hlive|]. split; [|exact Hge].
        exact Hlen.
      * intros (_ & _ & Hp & Hf) Hrep.
        exfalso. eapply returns_Throw. apply Hret.
        -- intro E. split; [intro h; apply Hp, E|].
           rewrite E in Hrep. now apply attemptable_predict.
        -- intro E. destruct (Hf E) as [Hc Hfit]. split; [exact Hc|].
           intros h m. apply Hfit.
  - intros shape s2 Hin Hno Hh2 Hn2 Hl2. split.
    + right; right; left. exists taskId, shape.
      split; [reflexivity|]. split; [exact Hin|]. split; [exact Hbatch|].
      split; [rewrite Hh2; reflexivity|]. split; [exact Hn2|].
      intro Hwf. exact (Hl2 Hwf).
    + intros (_ & Hcreated & _) _. rewrite (Hcreated _ _ Hin) in Hno. discriminate.
Qed.

(** ** The loops *)

Lemma Collected_between ids evs before after p py tfjs :
  Collected ids evs p py tfjs -> Collected ids (before ++ evs ++ after) p py tfjs.
Proof.
  intros (taskId & xs & ys & calls & earlier & later & -> & H).
  exists taskId, xs, ys, calls, (before ++ earlier), (later ++ after).
  split; [|exact H].
  rewrite <- !app_assoc. simpl. now rewrite <- !app_assoc.
Qed.

Lemma CollectedAll_between ids evs before after ps pys tfjss :
  CollectedAll ids evs ps pys tfjss ->
  CollectedAll ids (before ++ evs ++ after) ps pys tfjss.
Proof.
  induction 1; constructor; auto using Collected_between.
Qed.

Lemma CollectedAll_after ids evs after ps pys tfjss :
  CollectedAll ids evs ps pys tfjss -> CollectedAll ids (evs ++ after) ps pys tfjss.
Proof. apply (CollectedAll_between ids evs []). Qed.

Lemma CollectedAll_before ids evs before ps pys tfjss :
  CollectedAll ids evs ps pys tfjss -> CollectedAll ids (before ++ evs) ps pys tfjss.
Proof.
  intro H. apply (CollectedAll_between ids evs before []) in H.
  now rewrite app_nil_r in H.
Qed.

Lemma Collected_request ids evs p py tfjs :
  Collected ids evs p py tfjs ->
  exists taskId,
    In (EvAddOrGetTaskId taskType_model (fst p) (fst (snd p)) (Some taskId)) evs /\
    py = identified (snd (snd p)) taskId (pyEnvironmentId ids).
Proof.
  intros (taskId & xs & ys & calls & earlier & later & -> & -> & _).
  exists taskId. split; [|reflexivity].
  apply in_or_app. right. now left.
Qed.

Lemma CollectedAll_app ids evs ps ps' pys pys' tfjss tfjss' :
  CollectedAll ids evs ps pys tfjss ->
  CollectedAll ids evs ps' pys' tfjss' ->
  CollectedAll ids evs (ps ++ ps') (pys ++ pys') (tfjss ++ tfjss').
Proof.
  induction 1; simpl; [auto|]. intro H'. constructor; auto.
Qed.

Lemma CollectedAll_length ids evs ps pys tfjss :
  CollectedAll ids evs ps pys tfjss ->
  List.length pys = List.length ps /\ List.length tfjss = List.length ps.
Proof. induction 1; simpl; [auto|]. destruct IHCollectedAll. auto. Qed.

Lemma Dispatched_notWrite ids m f tid pyRun xs ys evs tfjs :
  Dispatched ids m f tid pyRun xs ys evs tfjs -> Forall notWrite evs.
Proof.
  intros [readings ending _ _ _ | t0 t1 ending _ | _].
  - apply Forall_app. split.
    + apply Forall_forall. intros e He. apply repeat_spec in He. now subst e.
    + apply Forall_app. split; [|repeat constructor].
      apply Forall_forall. intros e He. apply in_flat_map in He.
      destruct He as (reading & _ & [<-|[<-|[<-|[]]]]); exact I.
  - repeat constructor.
  - repeat constructor.
Qed.

Lemma Dispatched_Collected ids m f tid pyRun xs ys evs tfjs :
  Dispatched ids m f tid pyRun xs ys evs tfjs ->
  Collected ids (EvAddOrGetTaskId taskType_model m f (Some tid) :: evs)
            (m, (f, pyRun)) (identified pyRun tid (pyEnvironmentId ids)) tfjs.
Proof.
  intro H. exists tid, xs, ys, evs, [], []. cbn [fst snd].
  split; [now rewrite app_nil_r|]. split; [reflexivity | exact H].
Qed.

Lemma Dispatched_predict ids m tid pyRun xs ys evs tfjs :
  Dispatched ids m "predict" tid pyRun xs ys evs tfjs ->
  exists readings ending,
    List.length readings = numBenchmarkedIterations pyRun /\
    (0 < numBenchmarkedIterations pyRun)%nat /\
    evs = repeat (EvPredict xs true) (numWarmUpIterations pyRun) ++
          flat_map (timedCall xs) readings ++ [EvDate (JS.ofZ ending)] /\
    tfjs = Some (measuredRun ids m "predict" tid pyRun
                   (Some (map duration readings))
                   (JS.Num (fold_left Qplus (map duration readings) 0 /
                            inject_Z (Z.of_nat (List.length (map duration readings)))))
                   (JS.ofZ ending)).
Proof.
  intro H. inversion H as [readings ending| |Hskip]; subst; try discriminate.
  exists readings, ending. auto.
Qed.

Lemma Dispatched_identifiers ids m f tid pyRun xs ys evs tfjsRun :
  Dispatched ids m f tid pyRun xs ys evs (Some tfjsRun) ->
  taskId tfjsRun = Some tid /\
  environmentId tfjsRun = Some (tfjsEnvironmentId ids) /\
  versionSetId tfjsRun = Some (versionSet_Id ids) /\
  In (EvDate (endingTimestampMs tfjsRun)) evs.
Proof.
  intro H. inversion H; subst; repeat split; try reflexivity.
  - apply in_or_app. right. apply in_or_app. right. now left.
  - simpl. auto 10.
Qed.

Lemma dispatchError_loopFailure e evs : dispatchError e -> loopFailure e evs.
Proof. destruct e; simpl; tauto. Qed.

Lemma loopFailure_after e evs evs' : loopFailure e evs' -> loopFailure e (evs ++ evs').
Proof.
  assert (H : endsWithTaskRequest evs' -> endsWithTaskRequest (evs ++ evs')).
  { intros (before & m & f & tid & ->). exists (evs ++ before), m, f, tid.
    now rewrite app_assoc. }
  destruct e; simpl; auto.
Qed.

(** A failure of a later part of the loops is a failure of the loops. *)
Lemma failure_after (w : World) s s1 s' evs e :
  step w s s1 evs ->
  (exists evs', history s' = history s1 ++ evs' /\ loopFailure e evs') ->
  exists evs', history s' = history s ++ evs' /\ loopFailure e evs'.
Proof.
  intros (Hh & _) (evs' & Hh' & He). exists (evs ++ evs').
  split; [now rewrite Hh', Hh, app_assoc | now apply loopFailure_after].
Qed.

Lemma failure_after_if (w : World) s s1 s' evs e (P : Prop) :
  step w s s1 evs ->
  (exists evs', history s' = history s1 ++ evs' /\ (P -> loopFailure e evs')) ->
  exists evs', history s' = history s ++ evs' /\ (P -> loopFailure e evs').
Proof.
  intros (Hh & _) (evs' & Hh' & He). exists (evs ++ evs').
  split; [now rewrite Hh', Hh, app_assoc|].
  intro HP. now apply loopFailure_after, He.
Qed.

Lemma knownName_getNamed (map : Object string) (name : option string) :
  knownName map name = true ->
  exists key value, get map key = Some value /\ getNamed map name = JS.Own value.
Proof.
  unfold knownName, getNamed. destruct name as [n|]; [|discriminate].
  destruct (get map n) as [value|] eqn:E; [|discriminate].
  intros _. exists n, value. split; [exact E | reflexivity].
Qed.

Lemma wp_engineKeeps (w : World) s (Q : Result unit -> State -> Prop) :
  Q (Return tt) (allocated s (tf_kept w (history s))) -> wp (engineKeeps w) s Q.
Proof. intro H. exact H. Qed.

Lemma wp_getBrowserEnvironmentInfo (w : World) s
    (Q : Result EnvironmentInfo -> State -> Prop) :
  (forall info, detected w info -> Q (Return info) s) ->
  ((~ exists info, detected w info) -> Q (Throw TypeError) s) ->
  wp (getBrowserEnvironmentInfo w) s Q.
Proof.
  intros Hsome Hnone.
  unfold wp, getBrowserEnvironmentInfo, getBrowserEnvironmentType, detected, bind,
    nonNull in *.
  destruct (detectBrowser_detectOS w (navigator_userAgent w)) as [os|] eqn:Hos;
    cbn [ret throw fst snd].
  - destruct (detectBrowser_detect_name w) as [browser|] eqn:Hbrowser;
      cbn [ret throw fst snd].
    + apply Hsome. now exists os, browser.
    + apply Hnone. intros (info & os' & browser' & _ & H & _). discriminate.
  - apply Hnone. intros (info & os' & browser' & H & _). discriminate.
Qed.

Section FunctionLoop.

Context (w : World) (ids : Ids) (model : Model) (modelName : string).

Lemma functionLoop_spec (functions : MultiFunctionModelTaskLog) (runs : Runs) s :
  wp (forEach functions (benchmarkFunction w ids model modelName) runs) s
     (fun r s' =>
        match r with
        | Return runs' => exists evs pys tfjss,
            step w s s' evs /\ Forall notWrite evs /\
            runs' = (fst runs ++ pys, snd runs ++ tfjss) /\
            CollectedAll ids evs (map (pair modelName) functions) pys tfjss
        | Throw e => exists evs, history s' = history s ++ evs /\ loopFailure e evs
        end /\
        ((forall f pyRun, In (f, pyRun) functions ->
            pairAnswered w model modelName f pyRun /\ attemptable f pyRun = true) ->
         returns r)).
Proof.
  apply (wp_forEach
           (fun rest runs' s' => exists done evs pys tfjss,
                functions = done ++ rest /\
                step w s s' evs /\ Forall notWrite evs /\
                runs' = (fst runs ++ pys, snd runs ++ tfjss) /\
                CollectedAll ids evs (map (pair modelName) done) pys tfjss)).
  - intros [f pyRun] rest runs1 s1 (done & evs & pys & tfjss & Hfun & Hstep & Hnw & -> & Hall).
    eapply wp_mono; [apply benchmarkFunction_spec|].
    intros [runs2|e] s2 [Hr Hret]; cbn beta iota.
    + destruct Hr as (taskId & xs & ys & devs & tfjsRun & Hstep2 & _ & Hdisp & -> & _).
      cbn [fst snd].
      exists (done ++ [(f, pyRun)]),
             (evs ++ EvAddOrGetTaskId taskType_model modelName f (Some taskId) :: devs),
             (pys ++ [identified pyRun taskId (pyEnvironmentId ids)]),
             (tfjss ++ [tfjsRun]).
      split; [now rewrite <- app_assoc|].
      split; [eapply step_trans; eassumption|].
      split; [apply Forall_app; split; [exact Hnw|];
              constructor; [exact I | eapply Dispatched_notWrite, Hdisp]|].
      split; [now rewrite <- !app_assoc|].
      pose proof (Dispatched_Collected _ _ _ _ _ _ _ _ _ Hdisp) as Hdisp'.
      rewrite map_app. apply CollectedAll_app.
      * apply CollectedAll_after, Hall.
      * simpl. constructor; [|constructor].
        apply (Collected_between _ _ evs []) in Hdisp'.
        now rewrite app_nil_r in Hdisp'.
    + split.
      * apply (failure_after w s s1 s2 evs e Hstep).
        destruct Hr as [[-> ->]|[(taskId & -> & _ & ->)|
                                 [(taskId & shape & -> & _ & _ & Hh & _)|
                                  (Hr & _ & taskId & devs & xs & ys & Hh & _)]]].
        -- eexists. split; [reflexivity | exact I].
        -- eexists. split; [reflexivity|]. now exists [], modelName, f, taskId.
        -- eexists. split; [exact Hh|]. now exists [], modelName, f, taskId.
        -- eexists. split; [exact Hh|]. now apply dispatchError_loopFailure.
      * intro Hgood. exfalso. eapply returns_Throw.
        destruct (Hgood f pyRun) as [Ha Hrep].
        { rewrite Hfun. apply in_or_app. right. now left. }
        now apply Hret.
  - intros runs1 s1 (done & evs & pys & tfjss & Hfun & Hstep & Hnw & -> & Hall).
    rewrite app_nil_r in Hfun. subst done.
    split; [|intros _; eexists; reflexivity].
    exists evs, pys, tfjss. auto.
  - exists [], [], [], []. simpl. rewrite !app_nil_r.
    split; [reflexivity|]. split; [apply step_refl|]. split; [constructor|].
    split; [now destruct runs | constructor].
Qed.

End FunctionLoop.

Lemma get_In {V} (o : Object V) (k : string) (v : V) :
  get o k = Some v -> In (k, v) o.
Proof.
  induction o as [|[k' v'] r IH]; simpl; [discriminate|].
  destruct (String.eqb_spec k' k) as [->|_].
  - intros [= ->]. now left.
  - intro H. right. auto.
Qed.

Lemma In_get {V} (o : Object V) (k : string) (v : V) :
  wfObject o -> In (k, v) o -> get o k = Some v.
Proof.
  unfold wfObject, Object_keys. induction o as [|[k' v'] r IH]; simpl; [tauto|].
  intros Hnd [[= -> ->]|Hin].
  - now rewrite String.eqb_refl.
  - inversion Hnd as [|? ? Hnotin Hnd']; subst.
    destruct (String.eqb_spec k' k) as [->|_]; [|auto].
    exfalso. apply Hnotin. apply (in_map fst) in Hin. exact Hin.
Qed.

Lemma pairsOf_app suiteLog names names' :
  pairsOf suiteLog (names ++ names') = pairsOf suiteLog names ++ pairsOf suiteLog names'.
Proof. apply flat_map_app. Qed.

(** In a good world the calls of a pair the harness can replay answer. *)
Lemma GoodWorld_pairAnswered (w : World) (model : Model) (modelName f : string)
    (pyRun : ModelBenchmarkRun) :
  GoodWorld w -> tensorsCreated w model (batchSize pyRun) ->
  replayable f pyRun = true ->
  pairAnswered w model modelName f pyRun.
Proof.
  intros Hgood Hcreated Hrep.
  split; [intro h; apply (good_taskId w Hgood)|].
  split; [exact Hcreated|].
  split; [intros _ h xs; apply (good_predict w Hgood)|].
  intros ->. split; [|intros h xs ys n; apply (good_fit w Hgood)].
  unfold replayable in Hrep. apply andb_prop in Hrep. destruct Hrep as [_ Hrep].
  simpl in Hrep. apply andb_prop in Hrep. destruct Hrep as [Hl Ho].
  destruct (knownName_getNamed _ _ Hl) as (lossName & l & Hlget & ->).
  destruct (knownName_getNamed _ _ Ho) as (optimizerName & o & Hoget & ->).
  intro h. exact (good_compile w Hgood h model _ _ _ _ Hlget Hoget).
Qed.

Section ModelLoop.

Context (w : World) (ids : Ids) (suiteLog : SuiteLog).

Lemma benchmarkModel_spec (modelName : string) (runs : Runs) s :
  wp (benchmarkModel w ids suiteLog modelName runs) s
     (fun r s' =>
        match r with
        | Return runs' => exists evs pys tfjss,
            step w s s' evs /\ Forall notWrite evs /\
            runs' = (fst runs ++ pys, snd runs ++ tfjss) /\
            CollectedAll ids evs (pairsOf suiteLog [modelName]) pys tfjss
        | Throw e => exists evs,
            history s' = history s ++ evs /\
            (hasLog suiteLog modelName -> loopFailure e evs)
        end /\
        (GoodWorld w -> tensorsAvailable w suiteLog -> hasLog suiteLog modelName ->
         (forall functions f pyRun,
             get (data suiteLog) modelName = Some functions ->
             In (f, pyRun) functions -> replayable f pyRun = true) ->
         returns r)).
Proof.
  unfold benchmarkModel, loadModel. cbn zeta.
  apply wp_bind, wp_bind, wp_emit. set (s1 := recorded s _).
  apply wp_bind, wp_call; [intros model Hload | intro Hload];
    [|split; [eexists; split; [|intros _; exact I];
              simpl; rewrite <- app_assoc; reflexivity |
              intros Hgood _ _ _;
              now destruct (good_load w Hgood (history s1) modelName)]].
  apply wp_bind, wp_engineKeeps. apply wp_ret.
  set (s2 := allocated _ _).
  assert (Hs2 : step w s s2 [EvFetch (DATA_SERVER_ROOT ++ "/" ++ modelName ++ "/model.json");
                             EvLoadModel modelName true]) by step_calls.
  simpl pairsOf. rewrite app_nil_r.
  destruct (get (data suiteLog) modelName) as [[|function functions]|] eqn:Hget.
  - apply wp_throw. split.
    + exists [EvFetch (DATA_SERVER_ROOT ++ "/" ++ modelName ++ "/model.json");
              EvLoadModel modelName true].
      split; [exact (proj1 Hs2)|].
      intros (fs & Hfs & Hne). rewrite Hget in Hfs. injection Hfs as <-.
      now destruct Hne.
    + intros _ _ (fs & Hfs & Hne). rewrite Hget in Hfs. injection Hfs as <-.
      now destruct Hne.
  - eapply wp_mono; [apply functionLoop_spec|].
    intros [runs'|e] s3 [Hr Hret]; cbn beta iota.
    + destruct Hr as (evs & pys & tfjss & Hstep & Hnw & -> & Hall).
      split; [|intros _ _ _ _; eexists; reflexivity].
      eexists _, pys, tfjss.
      split; [eapply step_trans; [exact Hs2 | exact Hstep]|].
      split; [apply Forall_app; split; [repeat constructor | exact Hnw]|].
      split; [reflexivity|].
      apply CollectedAll_before, Hall.
    + split.
      { apply (failure_after_if w _ _ _ _ _ _ Hs2).
        destruct Hr as (evs & Hh & He). exists evs. auto. }
      intros Hgood Havail _ Hrep. apply Hret. intros f pyRun Hin.
      assert (Hr' : replayable f pyRun = true)
        by (eapply Hrep; [reflexivity | exact Hin]).
      split; [|now apply replayable_attemptable].
      apply GoodWorld_pairAnswered; [exact Hgood | | exact Hr'].
      exact (Havail _ _ _ _ _ _ Hload Hget Hin).
  - apply wp_throw. split.
    + exists [EvFetch (DATA_SERVER_ROOT ++ "/" ++ modelName ++ "/model.json");
              EvLoadModel modelName true].
      split; [exact (proj1 Hs2)|].
      intros (fs & Hfs & _). rewrite Hget in Hfs. discriminate.
    + intros _ _ (fs & Hfs & _). rewrite Hget in Hfs. discriminate.
Qed.

End ModelLoop.

(** ** The whole test *)

Lemma names_hasLog (suiteLog : SuiteLog) (modelName : string) :
  wfSuiteLog suiteLog ->
  In modelName (getChronologicalModelNames suiteLog) ->
  hasLog suiteLog modelName.
Proof.
  intros [Hwf _] Hin. rewrite getChronologicalModelNames_entries in Hin.
  apply in_map_iff in Hin. destruct Hin as ([name functions] & <- & Hin).
  eapply Permutation_in in Hin; [|apply Array_sort_perm].
  apply filter_In in Hin. destruct Hin as [Hin Hfun].
  exists functions. split; [now apply In_get|].
  intros ->. discriminate.
Qed.

Lemma allReplayable_get (suiteLog : SuiteLog) modelName functions f pyRun :
  allReplayable suiteLog = true ->
  get (data suiteLog) modelName = Some functions ->
  In (f, pyRun) functions -> replayable f pyRun = true.
Proof.
  unfold allReplayable. intros Hall Hget Hin. apply get_In in Hget.
  rewrite forallb_forall in Hall. specialize (Hall _ Hget). simpl in Hall.
  rewrite forallb_forall in Hall. exact (Hall _ Hin).
Qed.

Section WholeTest.

Context (w : World) (suiteLog : SuiteLog).

Lemma modelLoop_spec (ids : Ids) s :
  wp (forEach (getChronologicalModelNames suiteLog)
              (benchmarkModel w ids suiteLog) ([], [])) s
     (fun r s' =>
        match r with
        | Return runs => exists evs,
            step w s s' evs /\ Forall notWrite evs /\
            CollectedAll ids evs (referenceRuns suiteLog) (fst runs) (snd runs)
        | Throw e => exists evs,
            history s' = history s ++ evs /\
            (wfSuiteLog suiteLog -> loopFailure e evs)
        end /\
        (GoodWorld w -> tensorsAvailable w suiteLog -> wfSuiteLog suiteLog ->
         allReplayable suiteLog = true -> returns r)).
Proof.
  unfold referenceRuns.
  set (names := getChronologicalModelNames suiteLog).
  assert (Hnames : incl names (getChronologicalModelNames suiteLog))
    by apply incl_refl.
  apply (wp_forEach
           (fun rest runs s' => exists done evs,
                names = done ++ rest /\
                step w s s' evs /\ Forall notWrite evs /\
                CollectedAll ids evs (pairsOf suiteLog done) (fst runs) (snd runs))).
  - intros modelName rest runs s1 (done & evs & Hn & Hstep & Hnw & Hall).
    assert (Hin : In modelName (getChronologicalModelNames suiteLog)).
    { apply Hnames. rewrite Hn. apply in_or_app. right. now left. }
    eapply wp_mono; [apply benchmarkModel_spec|].
    intros [runs'|e] s2 [Hr Hret]; cbn beta iota.
    + destruct Hr as (evs' & pys & tfjss & Hstep' & Hnw' & -> & Hall').
      exists (done ++ [modelName]), (evs ++ evs').
      split; [now rewrite <- app_assoc|].
      split; [eapply step_trans; eassumption|].
      split; [apply Forall_app; now split|].
      rewrite pairsOf_app. cbn [fst snd]. apply CollectedAll_app.
      * apply CollectedAll_after, Hall.
      * apply CollectedAll_before, Hall'.
    + split.
      * apply (failure_after_if w s s1 s2 evs e _ Hstep).
        destruct Hr as (evs' & Hh & He). exists evs'. split; [exact Hh|].
        intro Hwf. apply He. now apply names_hasLog.
      * intros Hgood Havail Hwf Hrep.
        apply Hret; [exact Hgood | exact Havail | now apply names_hasLog|].
        intros functions f pyRun. now apply allReplayable_get.
  - intros runs s1 (done & evs & Hn & Hstep & Hnw & Hall).
    rewrite app_nil_r in Hn. subst done.
    split; [|intros _ _ _ _; eexists; reflexivity].
    exists evs. auto.
  - exists [], []. simpl. split; [reflexivity|]. split; [apply step_refl|].
    split; constructor.
Qed.

(** The whole test.  When it returns, the user agent was recognised and
    the calls were those before the loops, those of the loops and the
    accepted write of the runs.  When it throws, either the user agent was
    not recognised, and then nothing was called, or at least one call was
    made. *)
Lemma Benchmark_models_spec s :
  wp (Benchmark_models w suiteLog) s
     (fun r s' =>
        match r with
        | Return runs => exists info ids evs,
            detected w info /\
            step w s s' (preamble w info suiteLog ids ++ evs ++
                         [EvAddBenchmarkRuns (fst runs) true]) /\
            Forall notWrite evs /\
            CollectedAll ids evs (referenceRuns suiteLog) (fst runs) (snd runs)
        | Throw e =>
            (e = TypeError /\ s' = s /\ ~ (exists info, detected w info)) \/
            (exists info first rest,
                detected w info /\
                history s' = history s ++ first :: rest /\
                (exists id, first = EvAddEnvironmentInfo info id) /\
                (wfSuiteLog suiteLog -> loopFailure e (first :: rest)))
        end /\
        (GoodWorld w -> tensorsAvailable w suiteLog -> wfSuiteLog suiteLog ->
         allReplayable suiteLog = true -> returns r)).
Proof.
  unfold Benchmark_models, addEnvironmentInfoToFirestore, addVersionSetToFirestore,
    addBenchmarkRunsToFirestore.
  cbn zeta.
  apply wp_bind, wp_getBrowserEnvironmentInfo; [intros info Hinfo | intro Hnone];
    [|split; [left; auto |
              intros Hgood _ _ _; exfalso; apply Hnone;
              destruct (detectBrowser_detectOS w (navigator_userAgent w)) as [os|] eqn:Hos;
              [|now destruct (good_detectOS w Hgood)];
              destruct (detectBrowser_detect_name w) as [browser|] eqn:Hbrowser;
              [|now destruct (good_detect w Hgood)];
              eexists; exists os, browser; auto]].
  apply wp_bind, wp_call; [intros tfjsEnv H1 | intro H1];
    [|split; [right; exists info; eexists; exists []; split; [exact Hinfo|];
              split; [reflexivity|]; split; [eauto | intros _; exact I] |
              intros Hgood _ _ _; now destruct (good_environment w Hgood _ _ H1)]].
  set (s1 := recorded s _).
  apply wp_bind, wp_call; [intros vs H2 | intro H2];
    [|split; [right; exists info; eexists; eexists; split; [exact Hinfo|];
              split; [simpl; rewrite <- app_assoc; reflexivity|];
              split; [eauto | intros _; exact I] |
              intros Hgood _ _ _; now destruct (good_versionSet w Hgood _ _ H2)]].
  set (s2 := recorded s1 _).
  apply wp_bind, wp_emit. set (s3 := recorded s2 _).
  apply wp_bind, wp_call; [intros pyEnv H4 | intro H4];
    [|split; [right; exists info; eexists; eexists; split; [exact Hinfo|];
              split; [simpl; rewrite <- !app_assoc; reflexivity|];
              split; [eauto | intros _; exact I] |
              intros Hgood _ _ _; now destruct (good_environment w Hgood _ _ H4)]].
  set (s4 := recorded s3 _). set (ids := mkIds tfjsEnv vs pyEnv).
  assert (Hs4 : step w s s4 (preamble w info suiteLog ids))
    by (unfold preamble; step_calls).
  apply wp_bind. eapply wp_mono; [apply modelLoop_spec|].
  intros [runs|e] s5 [Hr Hret]; cbn beta iota.
  - destruct Hr as (evs & Hstep & Hnw & Hall).
    apply wp_bind, wp_callOk; intro Hw.
    + apply wp_ret. split; [|intros _ _ _ _; eexists; reflexivity].
      exists info, ids, evs. split; [exact Hinfo|]. split; [|split; assumption].
      eapply step_trans; [exact Hs4|].
      eapply step_trans; [exact Hstep | now apply step_recorded].
    + split; [|intros Hgood _ _ _; rewrite (good_write w Hgood) in Hw; discriminate].
      right. exists info. eexists. eexists. split; [exact Hinfo|].
      split; [|split; [eauto | intros _; exact I]].
      simpl. destruct Hstep as (-> & _). destruct Hs4 as (-> & _).
      unfold preamble. rewrite <- !app_assoc. reflexivity.
  - split; [|intros Hgood Havail Hwf Hrep; exfalso; eapply returns_Throw;
             now apply Hret].
    destruct Hr as (evs & Hh5 & He). destruct Hs4 as (Hh4 & _).
    right. exists info. eexists. eexists. split; [exact Hinfo|].
    split; [|split; [eauto|]].
    + rewrite Hh5, Hh4. unfold preamble. rewrite <- app_assoc. reflexivity.
    + intro Hwf.
      apply (loopFailure_after e (preamble w info suiteLog ids) evs), He, Hwf.
Qed.

End WholeTest.

(** ** Batch-size validation *)

Lemma Qred_inject_Z (n : Z) : Qred (inject_Z n) = inject_Z n.
Proof.
  unfold Qred, inject_Z.
  generalize (Z.ggcd_gcd n 1) (Z.ggcd_correct_divisors n 1).
  destruct (Z.ggcd n 1) as [g [r1 r2]]. simpl. rewrite Z.gcd_1_r.
  intros -> [H1 H2]. rewrite Z.mul_1_l in H1, H2. now subst.
Qed.

Lemma Number_isInteger_spec (q : Q) :
  JS.Number_isInteger (JS.Num q) = true <-> exists n : Z, (q == inject_Z n)%Q.
Proof.
  unfold JS.Number_isInteger. rewrite Pos.eqb_eq. split.
  - intro Hden. exists (Qnum (Qred q)).
    rewrite <- (Qred_correct q) at 1.
    destruct (Qred q) as [n d]. simpl in *. subst d. reflexivity.
  - intros [n Hn]. apply Qred_complete in Hn. rewrite Hn.
    now rewrite Qred_inject_Z.
Qed.

Lemma gt0_spec (q : Q) : JS.gt0 (JS.Num q) = true <-> (0 < q)%Q.
Proof.
  unfold JS.gt0. rewrite (Qgt_alt q 0).
  destruct (q ?= 0)%Q; split; congruence.
Qed.

(** The test of [checkBatchSize] holds exactly of the positive integers. *)
Lemma positiveInteger_spec (x : JS.number) :
  positiveInteger x = true <-> PositiveInteger x.
Proof.
  unfold positiveInteger, PositiveInteger. rewrite andb_true_iff. split.
  - intros [Hint Hpos]. destruct x as [q| | |]; try discriminate.
    apply Number_isInteger_spec in Hint. apply gt0_spec in Hpos.
    destruct Hint as [n Hn]. rewrite Hn in Hpos.
    destruct n as [|p|p]; try (now exfalso; revert Hpos; compute).
    exists p, q. split; [reflexivity | exact Hn].
  - intros (n & q & -> & Hq). split.
    + apply Number_isInteger_spec. now exists (Zpos n).
    + apply gt0_spec. rewrite Hq. reflexivity.
Qed.

Lemma positiveInteger_false (x : JS.number) :
  positiveInteger x = false <-> ~ PositiveInteger x.
Proof.
  rewrite <- positiveInteger_spec. destruct (positiveInteger x); split; congruence.
Qed.

(** C3.  [checkBatchSize] throws its validation error exactly when the
    batch size is not a positive integer, and returns otherwise.  In the
    loop body the check comes before the tensors are created: when the
    batch size of a pair is not a positive integer the body does not return,
    the error is the validation error as soon as the task identifier was
    obtained, and in the state the exception leaves behind no tensor has
    been created (the live tensors and the next fresh identity are those
    the pair started with). *)
Theorem checkBatchSize_validation :
  (forall b s, checkBatchSize b s = (Throw (BatchSizeError b), s) <-> ~ PositiveInteger b) /\
  (forall b s, checkBatchSize b s = (Return tt, s) <-> PositiveInteger b) /\
  (forall w ids model modelName functionName pyRun runs s,
      ~ PositiveInteger (batchSize pyRun) ->
      let r := benchmarkFunction w ids model modelName (functionName, pyRun) runs s in
      ~ returns (fst r) /\
      (firestore_addOrGetTaskId w (history s) taskType_model modelName functionName
         <> None ->
       fst r = Throw (BatchSizeError (batchSize pyRun))) /\
      liveTensors (snd r) = liveTensors s /\
      nextTensorId (snd r) = nextTensorId s).
Proof.
  split; [|split].
  - intros b s. rewrite <- positiveInteger_false. unfold checkBatchSize.
    destruct (positiveInteger b); simpl; unfold ret, throw; split;
      congruence.
  - intros b s. rewrite <- positiveInteger_spec. unfold checkBatchSize.
    destruct (positiveInteger b); simpl; unfold ret, throw; split;
      congruence.
  - intros w ids model modelName functionName pyRun runs s Hbad.
    apply positiveInteger_false in Hbad.
    unfold benchmarkFunction, addOrGetTaskId, call, checkBatchSize, bind.
    cbn [fst snd]. rewrite Hbad.
    destruct (firestore_addOrGetTaskId w (history s) taskType_model modelName
                                       functionName); simpl.
    + repeat split; auto. intros [a Ha]. discriminate.
    + repeat split; auto; [intros [a Ha]; discriminate | congruence].
Qed.

(** ** Benchmarking [predict] *)

Lemma fold_left_Qplus (ts : list Q) (a : Q) :
  (fold_left Qplus ts a == a + sumQ ts)%Q.
Proof.
  revert a. induction ts as [|t r IH]; intro a; simpl.
  - now rewrite Qplus_0_r.
  - rewrite IH. now rewrite Qplus_assoc.
Qed.

(** The quotient [math.mean] computes is the arithmetic mean: times the
    number of values it gives their sum. *)
Lemma mean_is_arithmetic (ts : list Q) :
  ts <> [] ->
  (fold_left Qplus ts 0 / inject_Z (Z.of_nat (List.length ts))
   * inject_Z (Z.of_nat (List.length ts)) == sumQ ts)%Q.
Proof.
  intro Hne. rewrite Qmult_comm, Qmult_div_r.
  - rewrite fold_left_Qplus. apply Qplus_0_l.
  - destruct ts as [|t r]; [contradiction|]. simpl List.length.
    intro H. unfold Qeq in H. simpl in H. lia.
Qed.

(** The predict branch, call by call, when [model.predict] returns. *)
Lemma benchmarkPredict_calls (w : World) (ids : Ids) (model : Model)
    (modelName functionName taskId : string) (pyRun : ModelBenchmarkRun)
    (xs : Tensors) s :
  (forall h, tf_predict w h model xs = true) ->
  wp (benchmarkPredict w ids model modelName functionName taskId pyRun xs) s
     (fun r s' => exists readings rest,
          List.length readings = numBenchmarkedIterations pyRun /\
          step w s s' (repeat (EvPredict xs true) (numWarmUpIterations pyRun) ++
                       flat_map (timedCall xs) readings ++ rest) /\
          match readings with
          | [] => rest = [] /\ r = Throw EmptyMeanError
          | _ => exists ending,
              rest = [EvDate ending] /\
              r = Return (measuredRun ids modelName functionName taskId pyRun
                            (Some (map duration readings))
                            (JS.Num (fold_left Qplus (map duration readings) 0 /
                                     inject_Z (Z.of_nat (List.length
                                                           (map duration readings)))))
                            ending)
          end).
Proof.
  intro Hok. unfold benchmarkPredict.
  apply wp_bind. eapply wp_mono; [apply warmUp_spec|].
  intros [[]|e] s1 [Hr Hret]; cbn beta iota;
    [|exfalso; eapply returns_Throw; apply Hret, Hok].
  apply wp_bind. eapply wp_mono; [apply timed_spec|].
  intros [ts|e] s2 [Hr2 Hret2]; cbn beta iota;
    [|exfalso; eapply returns_Throw; apply Hret2, Hok].
  destruct Hr2 as (readings & Hlen & Hstep & ->).
  apply wp_bind. unfold math_mean.
  destruct readings as [|reading readings].
  - simpl map. apply wp_throw. exists [], []. split; [exact Hlen|].
    split; [|split; reflexivity].
    eapply step_trans; [exact Hr | exact Hstep].
  - cbn [map]. apply wp_ret. unfold Date_getTime_now.
    apply wp_bind, wp_readClock. apply wp_ret.
    eexists (reading :: readings), [_]. split; [exact Hlen|]. split.
    + eapply step_trans; [exact Hr|].
      eapply step_trans; [exact Hstep | now apply step_recorded].
    + eexists. split; reflexivity.
Qed.

(** C4, as the code has it.  For a [predict] pair whose batch size is a
    positive integer, when the task identifier is answered, the engine
    creates the random tensors of the pair and [model.predict] returns:
    the calls of the pair are the task-identifier request, then exactly
    [numWarmUpIterations] calls of [model.predict] with no clock reading
    between them, then exactly [numBenchmarkedIterations] calls of
    [model.predict], each between two readings of the clock, and no call of
    [model.predict] after these.  When there is at least one benchmarked
    iteration the body returns, the measured run it pushes has for
    [timesMs] the differences of the readings, one per benchmarked
    iteration, and its [averageTimeMs] is their arithmetic mean.  Without
    a benchmarked iteration there is no run record: [math.mean] throws on
    the empty list. *)
Theorem predict_benchmark (w : World) (ids : Ids) (model : Model)
    (modelName : string) (pyRun : ModelBenchmarkRun) (runs : Runs) (s : State) :
  PositiveInteger (batchSize pyRun) ->
  (forall h, firestore_addOrGetTaskId w h taskType_model modelName "predict" <> None) ->
  tensorsCreated w model (batchSize pyRun) ->
  (forall h xs, tf_predict w h model xs = true) ->
  let result := benchmarkFunction w ids model modelName ("predict", pyRun) runs s in
  exists taskId xs readings rest,
    List.length readings = numBenchmarkedIterations pyRun /\
    history (snd result) =
      history s ++
      EvAddOrGetTaskId taskType_model modelName "predict" (Some taskId)
        :: repeat (EvPredict xs true) (numWarmUpIterations pyRun)
        ++ flat_map (timedCall xs) readings ++ rest /\
    Forall notPredict rest /\
    ((0 < numBenchmarkedIterations pyRun)%nat ->
     exists tfjsRun,
       fst result = Return (fst runs ++ [identified pyRun taskId (pyEnvironmentId ids)],
                            snd runs ++ [Some tfjsRun]) /\
       timesMs tfjsRun = Some (map duration readings) /\
       List.length (map duration readings) = numBenchmarkedIterations pyRun /\
       exists average,
         averageTimeMs tfjsRun = JS.Num average /\
         (average * inject_Z (Z.of_nat (numBenchmarkedIterations pyRun))
          == sumQ (map duration readings))%Q) /\
    (numBenchmarkedIterations pyRun = 0%nat -> fst result = Throw EmptyMeanError).
Proof.
  intros Hbatch Htask Hcreated Hpredict result. subst result.
  apply positiveInteger_spec in Hbatch.
  as_wp.
  unfold benchmarkFunction, addOrGetTaskId. cbn [fst snd].
  apply wp_bind, wp_call; [intros taskId Ht | intro Ht; now destruct (Htask (history s))].
  set (s1 := recorded s _).
  apply wp_bind, wp_checkBatchSize; [intros _ | congruence].
  apply wp_bind, wp_getRandomInputsAndOutputs; cbv zeta;
    [intros s2 _ Hh2 _ _ |
     intros shape s2 Hin Hno; rewrite (Hcreated _ _ Hin) in Hno; discriminate].
  cbn [fst snd].
  set (xs := singletonOrArray (seq (nextTensorId s1) (List.length (inputs model)))).
  set (ys := singletonOrArray _).
  unfold benchmarkDispatch. cbn [String.eqb Ascii.eqb Bool.eqb].
  apply wp_bind, wp_bind.
  eapply wp_mono; [apply benchmarkPredict_calls; intro h; apply Hpredict|].
  intros r s3 (readings & rest & Hlen & (Hh & _) & Hcases).
  assert (Hhist : history s3 =
                  history s ++
                  EvAddOrGetTaskId taskType_model modelName "predict" (Some taskId)
                    :: repeat (EvPredict xs true) (numWarmUpIterations pyRun)
                    ++ flat_map (timedCall xs) readings ++ rest).
  { rewrite Hh, Hh2. unfold s1. simpl. now rewrite <- app_assoc. }
  destruct readings as [|reading readings].
  - destruct Hcases as [-> ->]. exists taskId, xs, [], [].
    split; [exact Hlen|]. split; [exact Hhist|]. split; [constructor|].
    split; [simpl in Hlen; lia | reflexivity].
  - destruct Hcases as (ending & -> & ->).
    apply wp_ret, wp_bind, wp_tf_dispose, wp_ret.
    exists taskId, xs, (reading :: readings), [EvDate ending].
    split; [exact Hlen|]. split; [exact Hhist|].
    split; [repeat constructor|].
    split; [|simpl in Hlen; lia].
    intros _. eexists. split; [reflexivity|].
    split; [reflexivity|]. split; [now rewrite length_map|].
    eexists. split; [reflexivity|].
    rewrite <- Hlen, <- (length_map duration).
    apply mean_is_arithmetic. discriminate.
Qed.

(** C4 as stated fails: a [predict] pair with a valid batch size and no
    benchmarked iteration yields no run record at all.  The two warm-up
    calls are made, then [math.mean] throws on the empty list of timings. *)
Lemma predict_without_benchmarked_iteration_throws :
  let pyRun := Samples.noBenchmarkedIteration in
  let result :=
    benchmarkFunction Samples.world Samples.ids Samples.model "mnist"
      ("predict", pyRun) ([], []) initialState in
  positiveInteger (batchSize pyRun) = true /\
  numWarmUpIterations pyRun = 2%nat /\
  numBenchmarkedIterations pyRun = 0%nat /\
  fst result = Throw EmptyMeanError /\
  history (snd result) =
    [EvAddOrGetTaskId "model" "mnist" "predict" (Some "model/mnist/predict");
     EvPredict (Tensor 0) true; EvPredict (Tensor 0) true].
Proof. vm_compute. repeat split. Qed.

Lemma pairAnswered_unknown w model modelName functionName pyRun :
  functionName <> "predict" -> functionName <> "fit" ->
  (forall h, firestore_addOrGetTaskId w h taskType_model modelName functionName <> None) ->
  tensorsCreated w model (batchSize pyRun) ->
  pairAnswered w model modelName functionName pyRun.
Proof.
  intros Hp Hf Ht Hc. split; [exact Ht|]. split; [exact Hc|].
  split; intro; contradiction.
Qed.

Lemma recognised_false f : recognised f = false <-> f <> "predict" /\ f <> "fit".
Proof.
  unfold recognised. rewrite orb_false_iff, !String.eqb_neq. reflexivity.
Qed.

(** ** Benchmarking [fit] *)

(** What [MAP[name]] yields: a string exactly for the keys of the map, a
    member of [Object.prototype] for the names every object inherits, and
    [undefined] for any other name and for a run without the field. *)
Lemma getNamed_Own (map : Object string) (name : option string) (value : string) :
  getNamed map name = JS.Own value <->
  get map (match name with Some n => n | None => "undefined" end) = Some value.
Proof.
  unfold getNamed. destruct (get map _) as [v|]; split.
  - now intros [= ->].
  - now intros [= ->].
  - destruct (existsb _ _); discriminate.
  - discriminate.
Qed.

Lemma getNamed_samples :
  getNamed LOSS_MAP (Some "mean_squared_error") = JS.Own "meanSquaredError" /\
  getNamed OPTIMIZER_MAP (Some "AdamOptimizer") = JS.Own "adam" /\
  getNamed LOSS_MAP (Some "constructor") = JS.Inherited "constructor" /\
  getNamed OPTIMIZER_MAP (Some "toString") = JS.Inherited "toString" /\
  getNamed LOSS_MAP (Some "hinge") = JS.Undefined /\
  getNamed OPTIMIZER_MAP None = JS.Undefined.
Proof. repeat split. Qed.



(** ** Other function names *)

(** C8, as the code has it.  A pair whose function name is neither
    [predict] nor [fit] is skipped with a warning, without an exception,
    provided its batch size is a positive integer, the task identifier is
    answered and the engine creates the random tensors of the pair, which
    are asked for before the function name is looked at: the calls of the
    pair are the task-identifier request and the warning, the reference
    run is pushed with its identifiers, and no measured run is pushed. *)
Theorem unknown_function_skipped (w : World) (ids : Ids) (model : Model)
    (modelName functionName : string) (pyRun : ModelBenchmarkRun) (runs : Runs)
    (s : State) :
  functionName <> "predict" -> functionName <> "fit" ->
  PositiveInteger (batchSize pyRun) ->
  (forall h, firestore_addOrGetTaskId w h taskType_model modelName functionName <> None) ->
  tensorsCreated w model (batchSize pyRun) ->
  let result := benchmarkFunction w ids model modelName (functionName, pyRun) runs s in
  exists taskId,
    fst result = Return (fst runs ++ [identified pyRun taskId (pyEnvironmentId ids)],
                         snd runs ++ [None]) /\
    history (snd result) =
      history s ++
      [EvAddOrGetTaskId taskType_model modelName functionName (Some taskId);
       EvWarn (skipMessage modelName functionName)].
Proof.
  intros Hp Hf Hbatch Htask Hcreated result. subst result.
  apply positiveInteger_spec in Hbatch.
  as_wp. eapply wp_mono; [apply benchmarkFunction_spec|].
  intros [runs'|e] s' [Hr Hret]; cbn beta iota.
  - destruct Hr as (taskId & xs & ys & evs & tfjsRun & (Hh & _) & _ & Hdisp & -> & _).
    inversion Hdisp as [readings ending Hf' _ _ | t0 t1 ending Hf' | Hskip Hevs Htf];
      [contradiction | contradiction |].
    subst evs. exists taskId. split; [reflexivity | exact Hh].
  - exfalso. eapply returns_Throw. apply Hret.
    + now apply pairAnswered_unknown.
    + unfold attemptable. rewrite Hbatch.
      apply String.eqb_neq in Hp. now rewrite Hp.
Qed.

(** C8 as stated fails: a pair with an unknown function name and a batch
    size of zero is not skipped with a warning; the batch-size check, which
    comes before the dispatch, throws, and no warning is issued. *)
Lemma unknown_function_invalid_batch_throws :
  let result :=
    benchmarkFunction Samples.world Samples.ids Samples.model "early"
      ("fitDataset", Samples.pyRun "early" "fitDataset" (JS.Num 0) 1 1 1000)
      ([], []) initialState in
  "fitDataset" <> "predict" /\ "fitDataset" <> "fit" /\
  fst result = Throw (BatchSizeError (JS.Num 0)) /\
  Forall (fun e => ~ isWarning e) (history (snd result)).
Proof.
  vm_compute. repeat split; try discriminate.
  repeat constructor; exact (fun H => H).
Qed.

(** ** Release of the tensors of a pair *)

(** C6, as the code has it.  The random tensors [xs] and [ys] of a pair
    are those [getRandomInputsAndOutputs] returns right after the request of
    the task identifier; once created they are alive.  When the body of the
    loop returns, none of them is alive any more: the live tensors are those
    the pair started with and the tensors the engine kept for itself during
    the calls of the pair.  When the body throws, nothing is disposed of: if
    the exception comes from the dispatch (a rejected call into the engine,
    or the mean of no timing), every tensor of [xs] and [ys] is still
    alive; otherwise (the task-identifier request was rejected, the batch
    size is invalid, or the engine refused to create a random tensor) the
    live tensors are those the pair started with.  The body returns
    whenever the calls of the pair are answered and the reference run can be
    attempted. *)
Theorem pair_tensors_released (w : World) (ids : Ids) (model : Model)
    (modelName functionName : string) (pyRun : ModelBenchmarkRun) (runs : Runs)
    (s : State) :
  wfState s ->
  let result := benchmarkFunction w ids model modelName (functionName, pyRun) runs s in
  let request :=
    EvAddOrGetTaskId taskType_model modelName functionName
      (firestore_addOrGetTaskId w (history s) taskType_model modelName functionName) in
  let made :=
    getRandomInputsAndOutputs w model (batchSize pyRun) (recorded s request) in
  match fst result with
  | Return _ =>
      exists xs ys kept calls,
        fst made = Return (xs, ys) /\
        liveTensors (snd made) = liveTensors s ++ tensorIds xs ++ tensorIds ys /\
        (forall t, In t (tensorIds xs ++ tensorIds ys) ->
                   ~ In t (liveTensors (snd result))) /\
        liveTensors (snd result) = liveTensors s ++ kept /\
        history (snd result) = history s ++ calls /\
        List.length kept = keptDuring w (history s) calls
  | Throw e =>
      (dispatchError e /\
       exists xs ys,
         fst made = Return (xs, ys) /\
         List.length (tensorIds xs ++ tensorIds ys)
         = (List.length (inputs model) + List.length (outputs model))%nat /\
         forall t, In t (tensorIds xs ++ tensorIds ys) ->
                   In t (liveTensors (snd result))) \/
      (~ dispatchError e /\ liveTensors (snd result) = liveTensors s)
  end /\
  (pairAnswered w model modelName functionName pyRun ->
   attemptable functionName pyRun = true -> returns (fst result)).
Proof.
  intros Hwf result request made. subst result request made.
  as_wp. eapply wp_mono; [apply benchmarkFunction_spec|].
  intros [runs'|e] s' [Hr Hret]; cbn beta iota; (split; [|exact Hret]).
  - destruct Hr as (taskId & xs & ys & evs & tfjsRun & (Hh & _) & _ & _ & _ &
                    Hids & Hlive & Htask & Hmade).
    destruct (Hlive Hwf) as (kept & Hl & Hlen & Hge).
    rewrite Htask.
    destruct (proj2 (getRandomInputsAndOutputs_made w model (batchSize pyRun)
                       (recorded s (EvAddOrGetTaskId taskType_model modelName
                                      functionName (Some taskId))))
                    xs ys Hmade) as [_ Halive].
    exists xs, ys, kept, (EvAddOrGetTaskId taskType_model modelName functionName
                            (Some taskId) :: evs).
    split; [exact Hmade|]. split; [exact (Halive Hwf)|].
    split; [|split; [exact Hl|split; [exact Hh | exact Hlen]]].
    intros t Ht Hin. rewrite Hids in Ht. apply in_seq in Ht.
    rewrite Hl in Hin. apply in_app_or in Hin. destruct Hin as [Hin|Hin].
    + unfold wfState in Hwf. rewrite Forall_forall in Hwf.
      specialize (Hwf t Hin). lia.
    + rewrite Forall_forall in Hge. specialize (Hge t Hin). simpl in Hge. lia.
  - destruct Hr as [[-> ->]|[(taskId & -> & _ & ->)|
                             [(taskId & shape & -> & _ & _ & _ & _ & Hl)|
                              (He & _ & taskId & evs & xs & ys & _ & Hl & Htask & Hmade)]]].
    + right. simpl. auto.
    + right. simpl. auto.
    + right. simpl. auto.
    + left. split; [exact He|]. rewrite Htask. exists xs, ys.
      split; [exact Hmade|].
      destruct (proj2 (getRandomInputsAndOutputs_made w model (batchSize pyRun)
                         (recorded s (EvAddOrGetTaskId taskType_model modelName
                                        functionName (Some taskId))))
                      xs ys Hmade) as [Hids _].
      simpl in Hids. rewrite Hids, length_seq. split; [reflexivity|].
      destruct (Hl Hwf) as (kept & -> & _).
      intros t Ht. apply in_or_app. right. apply in_or_app. now left.
Qed.

(** C6 as stated fails on the failure path: when [model.predict] throws,
    the two tensors created for the pair (identities 0 and 1) are still
    alive in the state the exception leaves behind. *)
Lemma predict_throws_tensors_leak :
  let result :=
    benchmarkFunction Samples.worldPredictThrows Samples.ids Samples.model "mnist"
      ("predict", Samples.mnistPredict) ([], []) initialState in
  fst result = Throw (RejectedError (EvPredict (Tensor 0) false)) /\
  liveTensors initialState = [] /\
  liveTensors (snd result) = [0; 1]%nat.
Proof. vm_compute. repeat split. Qed.

(** ** Models without functions *)

(** C2, as the code has it.  A model entry without functions never makes
    the test fail with the missing-task error: the chronological ordering
    leaves such a model out, so the loop never reaches it.  And the test
    does not look at the suite log before it contacts the datastore: either
    the detection library does not recognise the user agent, and then the
    test fails with a type error before any call; or the first call of the
    run registers the browser environment with the datastore. *)
Theorem empty_model_not_an_error (w : World) (suiteLog : SuiteLog) (s : State) :
  wfSuiteLog suiteLog ->
  let result := Benchmark_models w suiteLog s in
  (forall modelName, fst result <> Throw (NoTaskError modelName)) /\
  (forall modelName, In (modelName, []) (data suiteLog) ->
                     ~ In modelName (getChronologicalModelNames suiteLog)) /\
  ((~ (exists info, detected w info) /\
    fst result = Throw TypeError /\ snd result = s) \/
   (exists info id rest,
       detected w info /\
       history (snd result) = history s ++ EvAddEnvironmentInfo info id :: rest)).
Proof.
  intros Hwf result. subst result. split; [|split].
  - as_wp. eapply wp_mono; [apply Benchmark_models_spec|].
    intros [runs|e] s' [Hr _]; cbn beta iota; intros modelName; [discriminate|].
    intros [= ->].
    destruct Hr as [(He & _)|(info & first & rest & _ & _ & _ & He)];
      [discriminate He | exact (He Hwf)].
  - intros modelName Hin Hnames.
    destruct (names_hasLog _ _ Hwf Hnames) as (functions & Hget & Hne).
    destruct Hwf as [Hwf _]. rewrite (In_get _ _ _ Hwf Hin) in Hget.
    injection Hget as <-. now apply Hne.
  - as_wp. eapply wp_mono; [apply Benchmark_models_spec|].
    intros [runs|e] s' [Hr _]; cbn beta iota.
    + destruct Hr as (info & ids & evs & Hinfo & (Hh & _) & _).
      right. exists info. eexists. eexists. split; [exact Hinfo|].
      rewrite Hh. reflexivity.
    + destruct Hr as [(-> & -> & Hnone)|
                      (info & first & rest & Hinfo & Hh & (id & ->) & _)].
      * left. auto.
      * right. exists info, id, rest. auto.
Qed.

(** C2 as stated fails: for a suite log whose only model has no function
    the test completes; no missing-task error is raised, and the datastore
    is contacted four times. *)
Lemma empty_model_run_completes :
  let result := Benchmark_models Samples.world Samples.emptyModelLog initialState in
  In ("empty", []) (data Samples.emptyModelLog) /\
  fst result = Return ([], []) /\
  history (snd result) =
    [EvAddEnvironmentInfo (BrowserEnvironmentInfo "chrome-linux" "Mozilla/5.0")
                          (Some "env-browser");
     EvAddVersionSet (mkVersionSet "1.0.0") (Some "versions-1");
     EvFetch "./base/data/benchmarks.json";
     EvAddEnvironmentInfo (PythonEnvironmentInfo "python-3") (Some "env-python");
     EvAddBenchmarkRuns [] true].
Proof. vm_compute. repeat split. now left. Qed.

(** When the detection library does not recognise the user agent the test
    fails at its first statement, before any call. *)
Lemma undetected_user_agent_fails_before_any_call :
  Benchmark_models Samples.worldUndetected Samples.mnistLog initialState
  = (Throw TypeError, initialState).
Proof. reflexivity. Qed.

(** ** What a completed run collected and wrote *)

Lemma Benchmark_models_returns (w : World) (suiteLog : SuiteLog) (s : State) py tfjs :
  fst (Benchmark_models w suiteLog s) = Return (py, tfjs) ->
  exists info ids evs,
    detected w info /\
    step w s (snd (Benchmark_models w suiteLog s))
         (preamble w info suiteLog ids ++ evs ++ [EvAddBenchmarkRuns py true]) /\
    Forall notWrite evs /\
    CollectedAll ids evs (referenceRuns suiteLog) py tfjs.
Proof.
  as_wp. eapply wp_mono; [apply Benchmark_models_spec|].
  intros [runs|e] s' [Hr _]; cbn beta iota; [|discriminate].
  intros [= ->]. destruct Hr as (info & ids & evs & Hinfo & Hstep & Hnw & Hall).
  exists info, ids, evs. auto.
Qed.

Lemma Benchmark_models_succeeds (w : World) (suiteLog : SuiteLog) (s : State) :
  GoodWorld w -> tensorsAvailable w suiteLog -> wfSuiteLog suiteLog ->
  allReplayable suiteLog = true ->
  returns (fst (Benchmark_models w suiteLog s)).
Proof.
  as_wp. eapply wp_mono; [apply Benchmark_models_spec|].
  intros r s' [_ Hret]. exact Hret.
Qed.

Lemma CollectedAll_nth ids evs ps pys tfjss i p :
  CollectedAll ids evs ps pys tfjss ->
  nth_error ps i = Some p ->
  exists py tfjs,
    nth_error pys i = Some py /\ nth_error tfjss i = Some tfjs /\
    Collected ids evs p py tfjs.
Proof.
  intro H. revert i. induction H as [|p' ps py pys tfjs tfjss Hc _ IH]; intros [|i]; simpl;
    try discriminate.
  - intros [= ->]. eauto.
  - apply IH.
Qed.

Lemma preamble_notWrite w info suiteLog ids :
  Forall notWrite (preamble w info suiteLog ids).
Proof. repeat constructor. Qed.


(** C7, as the code has it.  A completed run writes to the datastore once,
    with its last call, after every model was processed: the batch is the
    list [pyRuns] of the reference runs, one per pair in the order of
    processing and each with the task identifier the datastore answered
    earlier and with the Python environment identifier; no other call
    writes runs, so the measured runs of [tfjsRuns] are not written.  The
    run completes whenever the user agent is recognised, no call is
    rejected, the engine creates the random tensors the suite log asks for
    and every reference run can be replayed. *)
Theorem reference_runs_written_once (w : World) (suiteLog : SuiteLog) (s : State) :
  let result := Benchmark_models w suiteLog s in
  (forall py tfjs,
      fst result = Return (py, tfjs) ->
      exists info ids evs,
        detected w info /\
        history (snd result) =
          history s ++ preamble w info suiteLog ids ++ evs ++
          [EvAddBenchmarkRuns py true] /\
        Forall notWrite (preamble w info suiteLog ids ++ evs) /\
        List.length py = List.length (referenceRuns suiteLog) /\
        forall i modelName functionName pyRun,
          nth_error (referenceRuns suiteLog) i = Some (modelName, (functionName, pyRun)) ->
          exists taskId,
            In (EvAddOrGetTaskId taskType_model modelName functionName (Some taskId)) evs /\
            nth_error py i = Some (identified pyRun taskId (pyEnvironmentId ids))) /\
  (GoodWorld w -> tensorsAvailable w suiteLog -> wfSuiteLog suiteLog ->
   allReplayable suiteLog = true -> returns (fst result)).
Proof.
  intro result. subst result. split; [|apply Benchmark_models_succeeds].
  intros py tfjs Hret.
  destruct (Benchmark_models_returns _ _ _ _ _ Hret)
    as (info & ids & evs & Hinfo & (Hh & _) & Hnw & Hall).
  exists info, ids, evs. split; [exact Hinfo|]. split; [exact Hh|].
  split; [apply Forall_app; split; [apply preamble_notWrite | exact Hnw]|].
  split; [apply (CollectedAll_length _ _ _ _ _ Hall)|].
  intros i modelName functionName pyRun Hnth.
  destruct (CollectedAll_nth _ _ _ _ _ _ _ Hall Hnth) as (py' & tfjs' & Hpy & _ & Hc).
  destruct (Collected_request _ _ _ _ _ Hc) as (taskId & Hin & ->).
  exists taskId. auto.
Qed.

(** C7 as stated fails: in the end-to-end scenario a measured run is
    collected in [tfjsRuns], and no write to the datastore contains it. *)
Lemma measured_run_not_written :
  let result := Benchmark_models Samples.world Samples.mnistLog initialState in
  exists py tfjsRun,
    fst result = Return (py, [Some tfjsRun]) /\
    forall runs ok, In (EvAddBenchmarkRuns runs ok) (history (snd result)) ->
                    ~ In tfjsRun runs.
Proof.
  vm_compute. eexists. eexists. split; [reflexivity|].
  intros runs ok Hin.
  repeat (destruct Hin as [Hin|Hin]; [try discriminate Hin|]); [|contradiction].
  injection Hin as <- <-. intros [H|[]]. discriminate H.
Qed.

(** C9.  In a completed run every run record is built after its
    identifiers were obtained from the datastore.  The write of the batch
    is the last call; before it the two environments were registered, and
    for every pair, in the order of processing, the calls of the pair start
    with the request of the task identifier of (["model"], model name,
    function name), which was answered.  The reference run written for the
    pair carries that task identifier and the Python environment
    identifier.  The measured run of the pair, when there is one, carries
    the same task identifier and the browser environment identifier, and
    the clock reading it is stamped with comes after the request.  Every
    record of the batch belongs to a pair.  The run completes whenever the
    user agent is recognised, no call is rejected, the engine creates the
    random tensors the suite log asks for and every reference run can be
    replayed. *)
Theorem runs_reference_identifiers (w : World) (suiteLog : SuiteLog) (s : State) :
  let result := Benchmark_models w suiteLog s in
  (forall py tfjs,
      fst result = Return (py, tfjs) ->
      exists info ids evs,
        detected w info /\
        history (snd result) =
          history s ++ preamble w info suiteLog ids ++ evs ++
          [EvAddBenchmarkRuns py true] /\
        List.length py = List.length (referenceRuns suiteLog) /\
        forall i modelName functionName pyRun,
          nth_error (referenceRuns suiteLog) i = Some (modelName, (functionName, pyRun)) ->
          exists id written measured earlier calls later,
            evs = earlier ++
                  EvAddOrGetTaskId taskType_model modelName functionName (Some id)
                    :: calls ++ later /\
            nth_error py i = Some written /\
            taskId written = Some id /\
            environmentId written = Some (pyEnvironmentId ids) /\
            nth_error tfjs i = Some measured /\
            forall tfjsRun,
              measured = Some tfjsRun ->
              taskId tfjsRun = Some id /\
              environmentId tfjsRun = Some (tfjsEnvironmentId ids) /\
              In (EvDate (endingTimestampMs tfjsRun)) calls) /\
  (GoodWorld w -> tensorsAvailable w suiteLog -> wfSuiteLog suiteLog ->
   allReplayable suiteLog = true -> returns (fst result)).
Proof.
  intro result. subst result. split; [|apply Benchmark_models_succeeds].
  intros py tfjs Hret.
  destruct (Benchmark_models_returns _ _ _ _ _ Hret)
    as (info & ids & evs & Hinfo & (Hh & _) & Hnw & Hall).
  exists info, ids, evs. split; [exact Hinfo|]. split; [exact Hh|].
  split; [apply (CollectedAll_length _ _ _ _ _ Hall)|].
  intros i modelName functionName pyRun Hnth.
  destruct (CollectedAll_nth _ _ _ _ _ _ _ Hall Hnth)
    as (py' & tfjs' & Hpy & Htf & id & xs & ys & calls & earlier & later
        & Hevs & -> & Hdisp).
  cbn [fst snd] in *.
  exists id, (identified pyRun id (pyEnvironmentId ids)), tfjs', earlier, calls, later.
  split; [exact Hevs|].
  split; [exact Hpy|]. split; [reflexivity|]. split; [reflexivity|].
  split; [exact Htf|].
  intros tfjsRun ->.
  destruct (Dispatched_identifiers _ _ _ _ _ _ _ _ _ Hdisp) as (Ht & He & _ & Hd).
  auto.
Qed.


(** ** The properties at work on the samples *)

Lemma Samples_world_good : GoodWorld Samples.world.
Proof.
  constructor; intros; simpl; try reflexivity; try discriminate.
Qed.

Lemma Samples_model_creates (b : JS.number) :
  positiveInteger b = true -> tensorsCreated Samples.world Samples.model b.
Proof.
  intros Hb h shape [<-|[<-|[]]]; simpl; now rewrite Hb.
Qed.

Lemma Samples_threeModels_wf : wfSuiteLog Samples.threeModels.
Proof.
  split.
  - unfold wfObject. simpl.
    repeat (constructor; [simpl; intuition discriminate|]). constructor.
  - repeat (constructor;
            [unfold wfObject; simpl;
             repeat (constructor; [simpl; intuition discriminate|]); constructor|]).
    constructor.
Qed.

Lemma Samples_32_positive : PositiveInteger (JS.Num 32).
Proof. apply positiveInteger_spec. reflexivity. Qed.

Lemma empty_model_not_an_error_witness :
  wfSuiteLog Samples.threeModels /\
  In ("empty", []) (data Samples.threeModels) /\
  ~ In "empty" (getChronologicalModelNames Samples.threeModels) /\
  forall modelName,
    fst (Benchmark_models Samples.world Samples.threeModels initialState)
    <> Throw (NoTaskError modelName).
Proof.
  pose proof (empty_model_not_an_error Samples.world Samples.threeModels initialState
                                       Samples_threeModels_wf) as H.
  split; [exact Samples_threeModels_wf|].
  split; [simpl; auto|].
  split; [apply (proj1 (proj2 H)); simpl; auto | exact (proj1 H)].
Defined.

Lemma predict_benchmark_witness :
  exists taskId tfjsRun,
    fst (benchmarkFunction Samples.world Samples.ids Samples.model "mnist"
           ("predict", Samples.mnistPredict) ([], []) initialState)
    = Return ([identified Samples.mnistPredict taskId "env-python"], [Some tfjsRun]) /\
    exists ts, timesMs tfjsRun = Some ts /\ List.length ts = 5%nat.
Proof.
  destruct (predict_benchmark Samples.world Samples.ids Samples.model "mnist"
              Samples.mnistPredict ([], []) initialState)
    as (taskId & xs & readings & rest & _ & _ & _ & Hpos & _).
  - exact Samples_32_positive.
  - intros h. discriminate.
  - now apply Samples_model_creates.
  - intros h xs. reflexivity.
  - destruct Hpos as (tfjsRun & Hret & Hts & Hlen & _); [simpl; lia|].
    exists taskId, tfjsRun. split; [exact Hret|].
    exists (map duration readings). split; [exact Hts | exact Hlen].
Defined.


Lemma unknown_function_skipped_witness :
  exists taskId,
    fst (benchmarkFunction Samples.world Samples.ids Samples.model "early"
           ("fitDataset", Samples.earlyFitDataset) ([], []) initialState)
    = Return ([identified Samples.earlyFitDataset taskId "env-python"], [None]).
Proof.
  destruct (unknown_function_skipped Samples.world Samples.ids Samples.model "early"
              "fitDataset" Samples.earlyFitDataset ([], []) initialState)
    as (taskId & Hret & _).
  - discriminate.
  - discriminate.
  - apply positiveInteger_spec. reflexivity.
  - intros h. discriminate.
  - now apply Samples_model_creates.
  - exists taskId. exact Hret.
Defined.

Lemma pair_tensors_released_witness :
  wfState initialState /\
  exists kept,
    liveTensors (snd (benchmarkFunction Samples.world Samples.ids Samples.model "late"
                        ("fit", Samples.lateFit) ([], []) initialState))
    = liveTensors initialState ++ kept /\
    List.length kept = 6%nat /\
    ~ In 0%nat kept /\ ~ In 1%nat kept.
Proof.
  assert (Hwf : wfState initialState) by constructor.
  split; [exact Hwf|].
  destruct (pair_tensors_released Samples.world Samples.ids Samples.model "late"
              "fit" Samples.lateFit ([], []) initialState Hwf) as [Hlive Hgood].
  assert (Hreturns : returns (fst (benchmarkFunction Samples.world Samples.ids
                                     Samples.model "late"
                                     ("fit", Samples.lateFit) ([], [])
                                     initialState))).
  { apply Hgood; [|reflexivity].
    split; [intros h; discriminate|].
    split; [now apply Samples_model_creates|].
    split; [intros _ h xs; reflexivity|].
    intros _. split; [intros h; reflexivity | intros h xs ys n; reflexivity]. }
  destruct Hreturns as [runs Hruns]. rewrite Hruns in Hlive.
  destruct Hlive as (xs & ys & kept & calls & _ & _ & _ & Hl & _).
  exists kept. split; [exact Hl|].
  revert Hl. vm_compute. intros [= <-]. repeat split; intuition discriminate.
Defined.

(** ** Further properties of the whole test *)

(** X1.  What a completed run leaves alive.  Started in a state whose
    live tensors lie below the next fresh identity, a run that completes
    ends with the tensors alive before it and, after them, tensors created
    during the run, exactly as many as the engine kept for itself when it
    built, compiled and fitted the models: no random tensor of a pair and
    no result of [model.predict] adds to the count. *)
Theorem completed_run_releases_tensors (w : World) (suiteLog : SuiteLog) (s : State) :
  wfState s ->
  returns (fst (Benchmark_models w suiteLog s)) ->
  exists calls kept,
    history (snd (Benchmark_models w suiteLog s)) = history s ++ calls /\
    liveTensors (snd (Benchmark_models w suiteLog s)) = liveTensors s ++ kept /\
    List.length kept = keptDuring w (history s) calls /\
    Forall (fun t => (nextTensorId s <= t)%nat) kept.
Proof.
  intros Hwf [[py tfjs] Hret].
  destruct (Benchmark_models_returns _ _ _ _ _ Hret)
    as (info & ids & evs & _ & (Hh & _ & Hl) & _).
  destruct (Hl Hwf) as (kept & Hlive & Hlen & Hkept).
  eexists. exists kept. split; [exact Hh|]. split; [exact Hlive|].
  split; [exact Hlen|].
  eapply Forall_impl; [|exact Hkept]. simpl. intros; lia.
Qed.

Lemma completed_run_releases_tensors_witness :
  exists calls kept,
    history (snd (Benchmark_models Samples.world Samples.threeModels initialState))
    = calls /\
    liveTensors (snd (Benchmark_models Samples.world Samples.threeModels initialState))
    = kept /\
    List.length kept = keptDuring Samples.world [] calls /\
    List.length kept = 10%nat.
Proof.
  destruct (completed_run_releases_tensors Samples.world Samples.threeModels
              initialState)
    as (calls & kept & Hh & Hl & Hlen & _).
  - constructor.
  - eexists. vm_compute. reflexivity.
  - exists calls, kept. split; [exact Hh|]. split; [exact Hl|].
    split; [exact Hlen|].
    revert Hl. vm_compute. intros <-. reflexivity.
Defined.

Lemma Samples_mnistLog_wf : wfSuiteLog Samples.mnistLog.
Proof.
  split.
  - unfold wfObject. simpl. repeat constructor. simpl. tauto.
  - repeat constructor. simpl. tauto.
Qed.

(** X2.  The end-to-end scenario of the specification: for the suite log
    with the single model "mnist" and its single [predict] entry (batch
    size 32, 2 warm-up and 5 benchmarked iterations, reference average
    10.2), in a world where the user agent is recognised, no call is
    rejected and the engine creates the random tensors of the model for
    batch size 32, the run completes with one reference run and one
    measured run; the measured run has five timings and its average is
    their arithmetic mean, whatever the reference average. *)
Theorem mnist_scenario (w : World) (s : State) :
  GoodWorld w ->
  tensorsAvailable w Samples.mnistLog ->
  exists ids id tfjsRun ts average,
    fst (Benchmark_models w Samples.mnistLog s)
    = Return ([identified Samples.mnistPredict id (pyEnvironmentId ids)],
              [Some tfjsRun]) /\
    timesMs tfjsRun = Some ts /\ List.length ts = 5%nat /\
    averageTimeMs tfjsRun = JS.Num average /\
    (average * 5 == sumQ ts)%Q.
Proof.
  intros Hgood Havail.
  destruct (Benchmark_models_succeeds w Samples.mnistLog s Hgood Havail
                                      Samples_mnistLog_wf eq_refl) as [[py tfjs] Hret].
  destruct (Benchmark_models_returns _ _ _ _ _ Hret)
    as (info & ids & evs & _ & _ & _ & Hall).
  assert (Href : referenceRuns Samples.mnistLog
                 = [("mnist", ("predict", Samples.mnistPredict))]) by reflexivity.
  rewrite Href in Hall.
  inversion Hall as [|p ps py0 pys t0 tfjss Hc Hrest]; subst.
  inversion Hrest; subst.
  destruct Hc as (id & xs & ys & calls & earlier & later & _ & -> & Hdisp).
  cbn [fst snd] in Hdisp.
  apply Dispatched_predict in Hdisp.
  destruct Hdisp as (readings & ending & Hlen & _ & _ & ->).
  assert (Hlen' : List.length (map duration readings) = 5%nat)
    by (rewrite length_map; exact Hlen).
  eexists ids, id, _, (map duration readings), _.
  split; [exact Hret|]. split; [reflexivity|].
  split; [exact Hlen'|]. split; [reflexivity|].
  pose proof (mean_is_arithmetic (map duration readings)) as Hmean.
  rewrite Hlen' in Hmean |- *. apply Hmean.
  intro Hnil. rewrite Hnil in Hlen'. discriminate Hlen'.
Qed.

(** The sample world creates the random tensors a suite log asks for when
    the batch sizes of its reference runs are positive integers. *)
Lemma Samples_tensorsAvailable (suiteLog : SuiteLog) :
  (forall modelName functions functionName pyRun,
      get (data suiteLog) modelName = Some functions ->
      In (functionName, pyRun) functions ->
      positiveInteger (batchSize pyRun) = true) ->
  tensorsAvailable Samples.world suiteLog.
Proof.
  intros Hb h modelName model functions functionName pyRun [= <-] Hget Hin.
  apply Samples_model_creates. eapply Hb; eassumption.
Qed.

Lemma Samples_mnistLog_available : tensorsAvailable Samples.world Samples.mnistLog.
Proof.
  apply Samples_tensorsAvailable.
  intros modelName functions functionName pyRun Hget Hin. apply get_In in Hget.
  destruct Hget as [[= <- <-]|[]]. destruct Hin as [[= <- <-]|[]]. reflexivity.
Qed.

Lemma mnist_scenario_witness :
  exists ids id tfjsRun ts,
    fst (Benchmark_models Samples.world Samples.mnistLog initialState)
    = Return ([identified Samples.mnistPredict id (pyEnvironmentId ids)],
              [Some tfjsRun]) /\
    timesMs tfjsRun = Some ts /\ List.length ts = 5%nat.
Proof.
  destruct (mnist_scenario Samples.world initialState Samples_world_good
                           Samples_mnistLog_available)
    as (ids & id & tfjsRun & ts & average & Hret & Hts & Hlen & _).
  exists ids, id, tfjsRun, ts. auto.
Defined.

(** ** The calls of a completed run, block by block *)

Lemma PairsTrace_app ids ps ps' evs evs' pys pys' tfjss tfjss' :
  PairsTrace ids ps evs pys tfjss ->
  PairsTrace ids ps' evs' pys' tfjss' ->
  PairsTrace ids (ps ++ ps') (evs ++ evs') (pys ++ pys') (tfjss ++ tfjss').
Proof.
  induction 1 as [|m f pyRun ps taskId xs ys calls tfjs evs pys tfjss Hb Hd Ht IH];
    simpl; [auto|].
  intro H'. rewrite <- app_assoc. econstructor; eauto.
Qed.

Lemma ModelsTrace_app ids suiteLog names names' evs evs' pys pys' tfjss tfjss' :
  ModelsTrace ids suiteLog names evs pys tfjss ->
  ModelsTrace ids suiteLog names' evs' pys' tfjss' ->
  ModelsTrace ids suiteLog (names ++ names') (evs ++ evs') (pys ++ pys')
              (tfjss ++ tfjss').
Proof.
  induction 1 as [|m functions names evs1 pys1 tfjss1 evs pys tfjss Hg Hne Hp Ht IH];
    simpl; [auto|].
  intro H'. rewrite <- !app_assoc. econstructor; eauto.
Qed.

Lemma functionLoop_trace (w : World) (ids : Ids) (model : Model) (modelName : string)
    (functions : MultiFunctionModelTaskLog) (runs : Runs) s :
  wp (forEach functions (benchmarkFunction w ids model modelName) runs) s
     (fun r s' =>
        forall runs', r = Return runs' ->
        exists evs pys tfjss,
          history s' = history s ++ evs /\
          runs' = (fst runs ++ pys, snd runs ++ tfjss) /\
          PairsTrace ids (map (pair modelName) functions) evs pys tfjss).
Proof.
  apply (wp_forEach
           (fun rest runs1 s1 => exists done evs pys tfjss,
                functions = done ++ rest /\
                history s1 = history s ++ evs /\
                runs1 = (fst runs ++ pys, snd runs ++ tfjss) /\
                PairsTrace ids (map (pair modelName) done) evs pys tfjss)).
  - intros [f pyRun] rest runs1 s1 (done & evs & pys & tfjss & Hfun & Hh & -> & Ht).
    eapply wp_mono; [apply benchmarkFunction_spec|].
    intros [runs2|e] s2 [Hr _]; cbn beta iota; [|discriminate].
    destruct Hr as (taskId & xs & ys & calls & tfjsRun & (Hh2 & _) & Hb & Hdisp & -> & _).
    cbn [fst snd].
    exists (done ++ [(f, pyRun)]),
           (evs ++ EvAddOrGetTaskId taskType_model modelName f (Some taskId)
                :: calls ++ []),
           (pys ++ [identified pyRun taskId (pyEnvironmentId ids)]),
           (tfjss ++ [tfjsRun]).
    split; [now rewrite <- app_assoc|].
    split; [now rewrite Hh2, Hh, app_nil_r, <- app_assoc|].
    split; [now rewrite <- !app_assoc|].
    rewrite map_app. apply PairsTrace_app; [exact Ht|].
    simpl. econstructor; [exact Hb | exact Hdisp | constructor].
  - intros runs1 s1 (done & evs & pys & tfjss & Hfun & Hh & -> & Ht) runs' [= <-].
    rewrite app_nil_r in Hfun. subst done. exists evs, pys, tfjss. auto.
  - exists [], [], [], []. simpl. rewrite !app_nil_r.
    split; [reflexivity|]. split; [reflexivity|].
    split; [now destruct runs | constructor].
Qed.

Lemma benchmarkModel_trace (w : World) (ids : Ids) (suiteLog : SuiteLog)
    (modelName : string) (runs : Runs) s :
  wp (benchmarkModel w ids suiteLog modelName runs) s
     (fun r s' =>
        forall runs', r = Return runs' ->
        exists evs pys tfjss,
          history s' = history s ++ evs /\
          runs' = (fst runs ++ pys, snd runs ++ tfjss) /\
          ModelsTrace ids suiteLog [modelName] evs pys tfjss).
Proof.
  unfold benchmarkModel, loadModel. cbn zeta.
  apply wp_bind, wp_bind, wp_emit. set (s1 := recorded s _).
  apply wp_bind, wp_call; [intros model Hload | intros _; discriminate].
  apply wp_bind, wp_engineKeeps. apply wp_ret.
  destruct (get (data suiteLog) modelName) as [[|function functions]|] eqn:Hget;
    try (apply wp_throw; discriminate).
  eapply wp_mono; [apply functionLoop_trace|].
  intros r s3 Hr runs' ->.
  destruct (Hr _ eq_refl) as (evs & pys & tfjss & Hh & -> & Ht).
  exists (EvFetch (modelJSONPath modelName) :: EvLoadModel modelName true :: evs ++ []),
         (pys ++ []), (tfjss ++ []).
  split; [rewrite Hh; simpl; now rewrite app_nil_r, <- !app_assoc|].
  split; [now rewrite !app_nil_r|].
  econstructor; [exact Hget | discriminate | exact Ht | constructor].
Qed.

Lemma modelLoop_trace (w : World) (ids : Ids) (suiteLog : SuiteLog)
    (names : list string) s :
  wp (forEach names (benchmarkModel w ids suiteLog) ([], [])) s
     (fun r s' =>
        forall runs, r = Return runs ->
        exists evs,
          history s' = history s ++ evs /\
          ModelsTrace ids suiteLog names evs (fst runs) (snd runs)).
Proof.
  apply (wp_forEach
           (fun rest runs s1 => exists done evs,
                names = done ++ rest /\
                history s1 = history s ++ evs /\
                ModelsTrace ids suiteLog done evs (fst runs) (snd runs))).
  - intros modelName rest runs s1 (done & evs & Hn & Hh & Ht).
    eapply wp_mono; [apply benchmarkModel_trace|].
    intros [runs'|e] s2 Hr; [|discriminate].
    destruct (Hr _ eq_refl) as (evs' & pys & tfjss & Hh' & -> & Ht').
    exists (done ++ [modelName]), (evs ++ evs').
    split; [now rewrite <- app_assoc|].
    split; [now rewrite Hh', Hh, app_assoc|].
    cbn [fst snd]. now apply ModelsTrace_app.
  - intros runs s1 (done & evs & Hn & Hh & Ht) runs' [= <-].
    rewrite app_nil_r in Hn. subst done. exists evs. auto.
  - exists [], []. simpl. rewrite app_nil_r.
    split; [reflexivity|]. split; [reflexivity | constructor].
Qed.

(** The calls of a completed run: the four calls before the loop, the
    blocks of the models in chronological order, and the write. *)
Lemma Benchmark_models_trace (w : World) (suiteLog : SuiteLog) (s : State) py tfjs :
  fst (Benchmark_models w suiteLog s) = Return (py, tfjs) ->
  exists info ids evs,
    detected w info /\
    history (snd (Benchmark_models w suiteLog s)) =
      history s ++ preamble w info suiteLog ids ++ evs ++
      [EvAddBenchmarkRuns py true] /\
    ModelsTrace ids suiteLog (getChronologicalModelNames suiteLog) evs py tfjs.
Proof.
  as_wp.
  unfold Benchmark_models, addEnvironmentInfoToFirestore, addVersionSetToFirestore,
    addBenchmarkRunsToFirestore.
  cbn zeta.
  apply wp_bind, wp_getBrowserEnvironmentInfo;
    [intros info Hinfo | intros _; discriminate].
  apply wp_bind, wp_call; [intros tfjsEnv _ | intros _; discriminate].
  apply wp_bind, wp_call; [intros vs _ | intros _; discriminate].
  apply wp_bind, wp_emit.
  apply wp_bind, wp_call; [intros pyEnv _ | intros _; discriminate].
  set (s4 := recorded _ _). set (ids := mkIds tfjsEnv vs pyEnv).
  apply wp_bind. eapply wp_mono; [apply modelLoop_trace|].
  intros [runs|e] s5 Hr; cbn beta iota; [|discriminate].
  destruct (Hr _ eq_refl) as (evs & Hh & Ht).
  apply wp_bind, wp_callOk; [intros _ | intros _; discriminate].
  apply wp_ret. intros [= ->]. exists info, ids, evs.
  split; [exact Hinfo|]. split; [|exact Ht].
  simpl. rewrite Hh. unfold s4. simpl. now rewrite <- !app_assoc.
Qed.

Lemma Dispatched_calls ids m f tid pyRun xs ys calls tfjs :
  Dispatched ids m f tid pyRun xs ys calls tfjs -> Forall isDispatchCall calls.
Proof.
  intros [readings ending _ _ _ | t0 t1 ending _ | _].
  - apply Forall_app. split.
    + apply Forall_forall. intros e He. apply repeat_spec in He. now subst e.
    + apply Forall_app. split; [|repeat constructor].
      apply Forall_forall. intros e He. apply in_flat_map in He.
      destruct He as (reading & _ & [<-|[<-|[<-|[]]]]); exact I.
  - repeat constructor.
  - repeat constructor.
Qed.

Lemma flat_map_none {X Y} (f : X -> list Y) (l : list X) :
  (forall x, In x l -> f x = []) -> flat_map f l = [].
Proof.
  induction l as [|x r IH]; intro H; simpl; [reflexivity|].
  rewrite (H x (or_introl eq_refl)), IH; [reflexivity|].
  intros y Hy. apply H. now right.
Qed.

Lemma dispatch_loadedModels calls :
  Forall isDispatchCall calls -> loadedModels calls = [].
Proof.
  intro H. apply flat_map_none. intros e He.
  rewrite Forall_forall in H. specialize (H e He). now destruct e.
Qed.

Lemma dispatch_requestedTasks calls :
  Forall isDispatchCall calls -> requestedTasks calls = [].
Proof.
  intro H. apply flat_map_none. intros e He.
  rewrite Forall_forall in H. specialize (H e He). now destruct e.
Qed.

Lemma PairsTrace_projections ids ps evs pys tfjss :
  PairsTrace ids ps evs pys tfjss ->
  loadedModels evs = [] /\ requestedTasks evs = map taskOf ps /\
  Forall attemptablePair ps.
Proof.
  induction 1 as [|m f pyRun ps taskId xs ys calls tfjs evs pys tfjss Hb Hd Ht IH].
  - repeat split; constructor.
  - destruct IH as (Hl & Hr & Hv).
    pose proof (Dispatched_calls _ _ _ _ _ _ _ _ _ Hd) as Hc.
    unfold loadedModels, requestedTasks in *. simpl.
    rewrite !flat_map_app. fold (loadedModels calls). fold (requestedTasks calls).
    rewrite dispatch_loadedModels, dispatch_requestedTasks by exact Hc.
    simpl. rewrite Hl, Hr. split; [reflexivity|]. split; [reflexivity|].
    constructor; [|exact Hv].
    unfold attemptablePair, attemptable. cbn [fst snd]. rewrite Hb. simpl.
    destruct (String.eqb_spec f "predict") as [->|_]; [|reflexivity].
    apply Dispatched_predict in Hd. destruct Hd as (_ & _ & _ & Hpos & _).
    simpl. now apply Nat.ltb_lt.
Qed.

Lemma ModelsTrace_projections ids suiteLog names evs pys tfjss :
  ModelsTrace ids suiteLog names evs pys tfjss ->
  loadedModels evs = names /\
  requestedTasks evs = map taskOf (pairsOf suiteLog names) /\
  Forall attemptablePair (pairsOf suiteLog names).
Proof.
  induction 1 as [|m functions names evs1 pys1 tfjss1 evs pys tfjss Hg Hne Hp Ht IH].
  - repeat split; constructor.
  - destruct IH as (Hl & Hr & Hv).
    destruct (PairsTrace_projections _ _ _ _ _ Hp) as (Hl1 & Hr1 & Hv1).
    unfold pairsOf in *. simpl. rewrite Hg.
    unfold loadedModels, requestedTasks in *. simpl.
    rewrite !flat_map_app, map_app, Hl1, Hr1, Hl, Hr.
    split; [reflexivity|]. split; [reflexivity|].
    apply Forall_app. now split.
Qed.

Lemma count_repeat_predict xs n :
  List.length (filter isPredict (repeat (EvPredict xs true) n)) = n /\
  List.length (filter isFit (repeat (EvPredict xs true) n)) = 0%nat.
Proof. induction n as [|n [IH1 IH2]]; simpl; auto. Qed.

Lemma count_timedCalls xs readings :
  List.length (filter isPredict (flat_map (timedCall xs) readings))
  = List.length readings /\
  List.length (filter isFit (flat_map (timedCall xs) readings)) = 0%nat.
Proof. induction readings as [|r l [IH1 IH2]]; simpl; auto. Qed.

Lemma Dispatched_counts ids m f tid pyRun xs ys calls tfjs :
  Dispatched ids m f tid pyRun xs ys calls tfjs ->
  List.length (filter isPredict calls) = predictIterations (m, (f, pyRun)) /\
  List.length (filter isFit calls) = fitCalls (m, (f, pyRun)).
Proof.
  unfold predictIterations, fitCalls. cbn [fst snd].
  intros [readings ending -> Hlen _ | t0 t1 ending -> | Hskip].
  - rewrite !filter_app, !length_app.
    destruct (count_repeat_predict xs (numWarmUpIterations pyRun)) as [-> ->].
    destruct (count_timedCalls xs readings) as [-> ->].
    simpl. rewrite Hlen. lia.
  - simpl. auto.
  - apply recognised_false in Hskip. destruct Hskip as [Hp Hf].
    apply String.eqb_neq in Hp, Hf. rewrite Hp, Hf. simpl. auto.
Qed.

Lemma PairsTrace_counts ids ps evs pys tfjss :
  PairsTrace ids ps evs pys tfjss ->
  List.length (filter isPredict evs) = list_sum (map predictIterations ps) /\
  List.length (filter isFit evs) = list_sum (map fitCalls ps).
Proof.
  induction 1 as [|m f pyRun ps taskId xs ys calls tfjs evs pys tfjss Hb Hd Ht [IH1 IH2]].
  - simpl. auto.
  - destruct (Dispatched_counts _ _ _ _ _ _ _ _ _ Hd) as [H1 H2].
    simpl. rewrite !filter_app, !length_app, H1, H2, IH1, IH2. auto.
Qed.

Lemma ModelsTrace_counts ids suiteLog names evs pys tfjss :
  ModelsTrace ids suiteLog names evs pys tfjss ->
  List.length (filter isPredict evs)
  = list_sum (map predictIterations (pairsOf suiteLog names)) /\
  List.length (filter isFit evs)
  = list_sum (map fitCalls (pairsOf suiteLog names)).
Proof.
  induction 1 as [|m functions names evs1 pys1 tfjss1 evs pys tfjss Hg Hne Hp Ht [IH1 IH2]].
  - simpl. auto.
  - destruct (PairsTrace_counts _ _ _ _ _ Hp) as [H1 H2].
    unfold pairsOf in *. simpl. rewrite Hg.
    rewrite !filter_app, !length_app, !map_app, !list_sum_app, H1, H2, IH1, IH2.
    auto.
Qed.

Lemma count_preamble_write w info suiteLog ids evs py (p : Event -> bool) :
  (forall e, p e = true -> isDispatchCall e) ->
  List.length (filter p (preamble w info suiteLog ids ++ evs ++
                         [EvAddBenchmarkRuns py true]))
  = List.length (filter p evs).
Proof.
  intro Hp. rewrite !filter_app, !length_app.
  assert (Hno : forall e, ~ isDispatchCall e -> p e = false).
  { intros e He. destruct (p e) eqn:E; [|reflexivity]. now apply Hp in E. }
  unfold preamble. simpl. rewrite !Hno by (simpl; tauto). simpl. lia.
Qed.

(** X3.  In a completed run the models are loaded in chronological order,
    each model of the ordering exactly once and no other model. *)
Theorem models_loaded_in_chronological_order (w : World) (suiteLog : SuiteLog)
    (s : State) :
  let result := Benchmark_models w suiteLog s in
  (forall runs,
      fst result = Return runs ->
      exists calls,
        history (snd result) = history s ++ calls /\
        loadedModels calls = getChronologicalModelNames suiteLog) /\
  (GoodWorld w -> tensorsAvailable w suiteLog -> wfSuiteLog suiteLog ->
   allReplayable suiteLog = true -> returns (fst result)).
Proof.
  intro result. subst result. split; [|apply Benchmark_models_succeeds].
  intros [py tfjs] Hret.
  destruct (Benchmark_models_trace _ _ _ _ _ Hret) as (info & ids & evs & _ & Hh & Ht).
  eexists. split; [exact Hh|].
  destruct (ModelsTrace_projections _ _ _ _ _ _ Ht) as (Hl & _).
  unfold loadedModels in *. rewrite !flat_map_app, Hl. simpl.
  now rewrite app_nil_r.
Qed.

(** X4.  In a completed run the task identifier is requested exactly once
    per pair of the benchmarked models, in the order of processing (models
    in chronological order, functions in the order of the suite log), each
    time for the task type ["model"], the model name and the function name
    of the pair; no other task identifier is requested. *)
Theorem one_task_request_per_pair (w : World) (suiteLog : SuiteLog) (s : State) :
  let result := Benchmark_models w suiteLog s in
  (forall runs,
      fst result = Return runs ->
      exists calls,
        history (snd result) = history s ++ calls /\
        requestedTasks calls = map taskOf (referenceRuns suiteLog)) /\
  (GoodWorld w -> tensorsAvailable w suiteLog -> wfSuiteLog suiteLog ->
   allReplayable suiteLog = true -> returns (fst result)).
Proof.
  intro result. subst result. split; [|apply Benchmark_models_succeeds].
  intros [py tfjs] Hret.
  destruct (Benchmark_models_trace _ _ _ _ _ Hret) as (info & ids & evs & _ & Hh & Ht).
  eexists. split; [exact Hh|].
  destruct (ModelsTrace_projections _ _ _ _ _ _ Ht) as (_ & Hr & _).
  unfold requestedTasks in *. rewrite !flat_map_app, Hr. simpl.
  now rewrite app_nil_r.
Qed.

(** X5.  The work of a completed run, in total.  The number of calls of
    [model.predict] is the sum, over the pairs of the benchmarked models, of
    the warm-up and benchmarked iterations of the [predict] pairs; the
    number of calls of [model.fit] is twice the number of [fit] pairs,
    whatever the numbers of epochs. *)
Theorem engine_calls_of_completed_run (w : World) (suiteLog : SuiteLog) (s : State) :
  let result := Benchmark_models w suiteLog s in
  (forall runs,
      fst result = Return runs ->
      exists calls,
        history (snd result) = history s ++ calls /\
        List.length (filter isPredict calls)
        = list_sum (map predictIterations (referenceRuns suiteLog)) /\
        List.length (filter isFit calls)
        = list_sum (map fitCalls (referenceRuns suiteLog))) /\
  (GoodWorld w -> tensorsAvailable w suiteLog -> wfSuiteLog suiteLog ->
   allReplayable suiteLog = true -> returns (fst result)).
Proof.
  intro result. subst result. split; [|apply Benchmark_models_succeeds].
  intros [py tfjs] Hret.
  destruct (Benchmark_models_trace _ _ _ _ _ Hret) as (info & ids & evs & _ & Hh & Ht).
  eexists. split; [exact Hh|].
  destruct (ModelsTrace_counts _ _ _ _ _ _ Ht) as (Hp & Hf).
  rewrite !count_preamble_write by (intros []; simpl; auto; discriminate).
  now split.
Qed.

(** ** Discipline of the calls on every path *)

Lemma explained_after e evs evs' : explained e evs' -> explained e (evs ++ evs').
Proof.
  destruct e; simpl; auto. intros [Hr [before ->]]. split; [exact Hr|].
  exists (evs ++ before). now rewrite app_assoc.
Qed.

Section Discipline.

Context (P : Event -> Prop).

Lemma disciplined_ret {A} (a : A) : disciplined P (ret a).
Proof.
  intro s. exists []. simpl. rewrite app_nil_r.
  split; [reflexivity|]. split; [constructor | discriminate].
Qed.

Lemma disciplined_throw {A} (e : Exception) :
  explained e [] -> disciplined P (@throw A e).
Proof.
  intros He s. exists []. simpl. rewrite app_nil_r.
  split; [reflexivity|]. split; [constructor|]. now intros e' [= <-].
Qed.

Lemma disciplined_bind {A B} (m : M A) (k : A -> M B) :
  disciplined P m -> (forall a, disciplined P (k a)) -> disciplined P (bind m k).
Proof.
  intros Hm Hk s. unfold bind. destruct (Hm s) as (evs & Hevs & HP & He).
  destruct (m s) as [[a|e] s1]; simpl in *.
  - destruct (Hk a s1) as (evs' & Hevs' & HP' & He'). exists (evs ++ evs').
    split; [now rewrite Hevs', Hevs, app_assoc|].
    split; [now apply Forall_app|].
    intros e Hthrow. apply explained_after. now apply He'.
  - exists evs. split; [exact Hevs|]. split; [exact HP|].
    intros e0 [= <-]. now apply He.
Qed.

Lemma disciplined_emit (e : Event) : P e -> disciplined P (emit e).
Proof.
  intros He s. exists [e]. split; [reflexivity|].
  split; [now constructor | discriminate].
Qed.

Lemma disciplined_call {A} (answer : list Event -> option A) (ev : option A -> Event) :
  (forall a, P (ev a)) -> isRejection (ev None) -> disciplined P (call answer ev).
Proof.
  intros HP Hrej s. unfold call. exists [ev (answer (history s))].
  destruct (answer (history s)); simpl.
  - split; [reflexivity|]. split; [now constructor | discriminate].
  - split; [reflexivity|]. split; [now constructor|].
    intros e [= <-]. split; [exact Hrej | now exists []].
Qed.

Lemma disciplined_callOk (answer : list Event -> bool) (ev : bool -> Event) :
  (forall b, P (ev b)) -> isRejection (ev false) -> disciplined P (callOk answer ev).
Proof.
  intros HP Hrej s. unfold callOk. exists [ev (answer (history s))].
  destruct (answer (history s)); simpl.
  - split; [reflexivity|]. split; [now constructor | discriminate].
  - split; [reflexivity|]. split; [now constructor|].
    intros e [= <-]. split; [exact Hrej | now exists []].
Qed.

Lemma disciplined_readClock {A} (clock : list Event -> A) (ev : A -> Event) :
  (forall t, P (ev t)) -> disciplined P (readClock clock ev).
Proof.
  intros HP s. exists [ev (clock (history s))]. split; [reflexivity|].
  split; [now constructor | discriminate].
Qed.

Lemma disciplined_newTensor : disciplined P newTensor.
Proof.
  intro s. exists []. simpl. rewrite app_nil_r.
  split; [reflexivity|]. split; [constructor | discriminate].
Qed.

Lemma disciplined_tf_randomUniform (w : World) (shape : Shape) :
  disciplined P (tf_randomUniform w shape).
Proof.
  intro s. exists []. unfold tf_randomUniform.
  destruct (tf_randomUniform_creates w (history s) shape); simpl;
    rewrite app_nil_r; (split; [reflexivity|]); (split; [constructor|]).
  - discriminate.
  - now intros e [= <-].
Qed.

Lemma disciplined_engineKeeps (w : World) : disciplined P (engineKeeps w).
Proof.
  intro s. exists []. simpl. rewrite app_nil_r.
  split; [reflexivity|]. split; [constructor | discriminate].
Qed.

Lemma disciplined_tf_tidy {A} (kept : A -> list nat) (fn : M A) :
  disciplined P fn -> disciplined P (tf_tidy kept fn).
Proof.
  intros Hfn s. destruct (Hfn s) as (evs & Hh & HP & He). exists evs.
  split; [exact Hh|]. split; [exact HP | exact He].
Qed.

Lemma disciplined_nonNull {A} (x : option A) : disciplined P (nonNull x).
Proof.
  intro s. exists []. destruct x; simpl; rewrite app_nil_r;
    (split; [reflexivity|]); (split; [constructor|]).
  - discriminate.
  - now intros e [= <-].
Qed.

Lemma disciplined_tf_dispose (ids : list nat) : disciplined P (tf_dispose ids).
Proof.
  intro s. exists []. simpl. rewrite app_nil_r.
  split; [reflexivity|]. split; [constructor | discriminate].
Qed.

Lemma disciplined_checkBatchSize (b : JS.number) : disciplined P (checkBatchSize b).
Proof.
  unfold checkBatchSize. destruct (positiveInteger b) eqn:E; simpl.
  - apply disciplined_ret.
  - apply disciplined_throw. exact E.
Qed.

Lemma disciplined_forCount {A} (n : nat) (body : A -> M A) (a : A) :
  (forall a, disciplined P (body a)) -> disciplined P (forCount n body a).
Proof.
  intro Hbody. revert a. induction n as [|n IH]; intro a; simpl.
  - apply disciplined_ret.
  - apply disciplined_bind; auto.
Qed.

Lemma disciplined_forEach {A X} (l : list X) (body : X -> A -> M A) (a : A) :
  (forall x a, disciplined P (body x a)) -> disciplined P (forEach l body a).
Proof.
  intro Hbody. revert a. induction l as [|x r IH]; intro a; simpl.
  - apply disciplined_ret.
  - apply disciplined_bind; auto.
Qed.

End Discipline.

Ltac disciplined_steps :=
  repeat first
    [ progress intros
    | assumption
    | exact I
    | match goal with H : context [disciplined] |- disciplined _ _ => apply H end
    | apply disciplined_ret
    | apply disciplined_newTensor
    | apply disciplined_tf_randomUniform
    | apply disciplined_engineKeeps
    | apply disciplined_nonNull
    | apply disciplined_tf_tidy
    | apply disciplined_tf_dispose
    | apply disciplined_checkBatchSize
    | apply disciplined_throw; exact I
    | apply disciplined_emit
    | apply disciplined_call
    | apply disciplined_callOk
    | apply disciplined_readClock
    | apply disciplined_forCount
    | apply disciplined_forEach
    | apply disciplined_bind
    | match goal with
      | |- disciplined _ (if ?b then _ else _) => destruct b
      | |- disciplined _ (match ?x with _ => _ end) => destruct x
      end ].

(** The loop bodies register nothing and write no runs. *)
Lemma disciplined_benchmarkFunction w ids model m entry runs :
  disciplined loopCall (benchmarkFunction w ids model m entry runs).
Proof.
  unfold benchmarkFunction, addOrGetTaskId, getRandomInputsAndOutputs,
    benchmarkDispatch, benchmarkPredict, benchmarkFit, warmUpPredict,
    timedPredict, model_predict, syncDataAndDispose, model_compile, model_fit,
    now, Date_getTime_now, math_mean, console_warn.
  disciplined_steps.
Qed.

Lemma disciplined_benchmarkModel w ids suiteLog m runs :
  disciplined loopCall (benchmarkModel w ids suiteLog m runs).
Proof.
  pose proof (disciplined_benchmarkFunction w ids) as Hf.
  unfold benchmarkModel, loadModel. disciplined_steps.
Qed.

Lemma disciplined_Benchmark_models w suiteLog :
  disciplined (fun _ => True) (Benchmark_models w suiteLog).
Proof.
  assert (Hm : forall ids m runs,
             disciplined (fun _ => True) (benchmarkModel w ids suiteLog m runs)).
  { intros ids m runs s.
    destruct (disciplined_benchmarkModel w ids suiteLog m runs s) as (evs & Hh & _ & He).
    exists evs. split; [exact Hh|]. split; [|exact He].
    apply Forall_forall. intros; exact I. }
  unfold Benchmark_models, getBrowserEnvironmentInfo, getBrowserEnvironmentType,
    addEnvironmentInfoToFirestore, addVersionSetToFirestore,
    addBenchmarkRunsToFirestore.
  disciplined_steps.
Qed.

Lemma loopCall_notAcceptedWrite e : loopCall e -> notAcceptedWrite e.
Proof. destruct e; simpl; tauto. Qed.

Lemma loopCall_notRegistration e : loopCall e -> ~ isRegistration e.
Proof. destruct e; simpl; tauto. Qed.

Lemma allReplayable_referenceRuns (suiteLog : SuiteLog) :
  wfSuiteLog suiteLog ->
  Forall replayablePair (referenceRuns suiteLog) ->
  allReplayable suiteLog = true.
Proof.
  intros Hwf Hall. unfold allReplayable. apply forallb_forall.
  intros [m fs] Hin. simpl. apply forallb_forall. intros [f r] Hf. simpl.
  rewrite Forall_forall in Hall. apply (Hall (m, (f, r))).
  unfold referenceRuns, pairsOf. apply in_flat_map. exists m. split.
  - rewrite getChronologicalModelNames_entries. apply in_map_iff.
    exists (m, fs). split; [reflexivity|].
    eapply Permutation_in; [apply Permutation_sym, Array_sort_perm|].
    apply filter_In. split; [exact Hin|].
    unfold hasFunctions. simpl. destruct fs; [destruct Hf | reflexivity].
  - rewrite (In_get _ _ _ (proj1 Hwf) Hin). now apply in_map.
Qed.

(** X6.  What a completed run needed, and what suffices for a run to
    complete.  When the run completes, the user agent was recognised and
    every reference run of the benchmarked models passes the batch-size
    check and, for [predict], has at least one benchmarked iteration.  In
    the other direction, the run completes when the user agent is
    recognised, no call is rejected, the engine creates the random tensors
    the suite log asks for, the property names of the suite log are unique
    and every reference run of the benchmarked models can be replayed: it
    meets the two conditions above and, for [fit], its loss and its
    optimizer are names of the two maps. *)
Theorem run_completion_conditions (w : World) (suiteLog : SuiteLog) (s : State) :
  let result := Benchmark_models w suiteLog s in
  (returns (fst result) ->
   (exists info, detected w info) /\
   Forall attemptablePair (referenceRuns suiteLog)) /\
  (GoodWorld w -> tensorsAvailable w suiteLog -> wfSuiteLog suiteLog ->
   Forall replayablePair (referenceRuns suiteLog) -> returns (fst result)).
Proof.
  intro result. subst result. split.
  - intros [[py tfjs] Hret].
    destruct (Benchmark_models_trace _ _ _ _ _ Hret) as (info & ids & evs & Hinfo & _ & Ht).
    split; [now exists info|].
    now destruct (ModelsTrace_projections _ _ _ _ _ _ Ht) as (_ & _ & Hv).
  - intros Hgood Havail Hwf Hall. apply Benchmark_models_succeeds; auto.
    now apply allReplayable_referenceRuns.
Qed.

(** X7.  Every failure of the run is explained.  For a suite log with
    unique property names the exception is one of five.  A type error:
    the detection library did not recognise the user agent, and no call
    was made.  The batch-size error, for a batch size that is not a
    positive integer, or the refusal of the engine to create a random
    tensor: the last call made is then the answered request of a task
    identifier.  The error of the mean of no timing.  Or a rejected call,
    and then this call, recorded with its rejection, is the last call the
    run made: nothing is retried and nothing is called afterwards. *)
Theorem failed_run_explained (w : World) (suiteLog : SuiteLog) (s : State)
    (e : Exception) :
  wfSuiteLog suiteLog ->
  fst (Benchmark_models w suiteLog s) = Throw e ->
  exists calls,
    history (snd (Benchmark_models w suiteLog s)) = history s ++ calls /\
    ((e = TypeError /\ calls = [] /\ ~ (exists info, detected w info)) \/
     (exists b, e = BatchSizeError b /\ ~ PositiveInteger b /\
                endsWithTaskRequest calls) \/
     (exists shape, e = RandomUniformError shape /\ endsWithTaskRequest calls) \/
     e = EmptyMeanError \/
     (exists call before,
         e = RejectedError call /\ isRejection call /\ calls = before ++ [call])).
Proof.
  intros Hwf Hthrow.
  destruct (disciplined_Benchmark_models w suiteLog s) as (calls & Hh & _ & He).
  specialize (He _ Hthrow). exists calls. split; [exact Hh|].
  assert (Hspec : (e = TypeError /\ calls = [] /\ ~ (exists info, detected w info)) \/
                  loopFailure e calls).
  { revert Hthrow Hh Hwf. clear. as_wp.
    eapply wp_mono; [apply Benchmark_models_spec|].
    intros [runs|e'] s' [Hr _]; cbn beta iota; [discriminate|].
    intros [= ->] Hh Hwf.
    destruct Hr as [(-> & -> & Hnone)|(info & first & rest & _ & Hh' & _ & Hf)].
    - left. split; [reflexivity|]. split; [|exact Hnone].
      rewrite <- (app_nil_r (history s)) in Hh at 1.
      apply app_inv_head in Hh. now symmetry.
    - right. rewrite Hh in Hh'. apply app_inv_head in Hh'. rewrite Hh'.
      exact (Hf Hwf). }
  destruct Hspec as [Htype|Hloop]; [now left|]. right.
  destruct e as [b| | |shape| |call]; simpl in *; try contradiction.
  - left. exists b. split; [reflexivity|].
    split; [now apply positiveInteger_false | exact Hloop].
  - right. left. now exists shape.
  - right. right. now left.
  - right. right. right. destruct He as [Hrej [before ->]]. now exists call, before.
Qed.

Lemma failed_run_explained_witness :
  exists calls before,
    history (snd (Benchmark_models Samples.worldPredictThrows Samples.mnistLog
                    initialState)) = history initialState ++ calls /\
    calls = before ++ [EvPredict (Tensor 2) false].
Proof.
  destruct (failed_run_explained Samples.worldPredictThrows Samples.mnistLog
              initialState (RejectedError (EvPredict (Tensor 2) false)))
    as (calls & Hh & Hcases).
  - apply Samples_mnistLog_wf.
  - vm_compute. reflexivity.
  - destruct Hcases as [(H & _)|[(b & H & _)|[(shape & H & _)|[H|
                        (call & before & [= <-] & _ & Hlast)]]]];
      try discriminate H.
    exists calls, before. split; [exact Hh | exact Hlast].
Defined.

(** X8.  A run that fails has written no run record: among the calls it
    made there is no write of runs that the datastore accepted. *)
Theorem failed_run_writes_nothing (w : World) (suiteLog : SuiteLog) (s : State)
    (e : Exception) :
  fst (Benchmark_models w suiteLog s) = Throw e ->
  exists calls,
    history (snd (Benchmark_models w suiteLog s)) = history s ++ calls /\
    Forall notAcceptedWrite calls.
Proof.
  revert e.
  match goal with
  | |- forall e, fst (?m ?s) = _ -> _ =>
      change (wp m s (fun r s' => forall e, r = Throw e ->
                exists calls, history s' = history s ++ calls /\
                              Forall notAcceptedWrite calls))
  end.
  unfold Benchmark_models, addEnvironmentInfoToFirestore, addVersionSetToFirestore,
    addBenchmarkRunsToFirestore.
  cbn zeta.
  apply wp_bind, wp_getBrowserEnvironmentInfo; [intros info _ | intros _ e _];
    [|exists []; split; [now rewrite app_nil_r | constructor]].
  apply wp_bind, wp_call; [intros tfjsEnv _ | intros _ e _];
    [|eexists; split; [reflexivity | now repeat constructor]].
  apply wp_bind, wp_call; [intros vs _ | intros _ e _];
    [|eexists; split;
      [simpl; rewrite <- !app_assoc; reflexivity | now repeat constructor]].
  apply wp_bind, wp_emit.
  apply wp_bind, wp_call; [intros pyEnv _ | intros _ e _];
    [|eexists; split;
      [simpl; rewrite <- !app_assoc; reflexivity | now repeat constructor]].
  set (s4 := recorded _ _). set (ids := mkIds tfjsEnv vs pyEnv).
  assert (Hs4 : history s4 = history s ++ preamble w info suiteLog ids).
  { unfold s4, preamble. simpl. now rewrite <- !app_assoc. }
  assert (Hpre : Forall notAcceptedWrite (preamble w info suiteLog ids))
    by now repeat constructor.
  clearbody s4.
  apply wp_bind.
  destruct (disciplined_forEach loopCall (getChronologicalModelNames suiteLog)
              (benchmarkModel w ids suiteLog) ([], [])
              (disciplined_benchmarkModel w ids suiteLog) s4)
    as (evs & Hh & HP & _).
  apply (Forall_impl _ loopCall_notAcceptedWrite) in HP.
  unfold wp at 1.
  destruct (forEach _ _ _ s4) as [[runs|e'] s5]; simpl in Hh |- *.
  - apply wp_bind, wp_callOk; [intros _ | intros _ e _].
    + apply wp_ret. discriminate.
    + exists (preamble w info suiteLog ids ++ evs ++
              [EvAddBenchmarkRuns (fst runs) false]).
      split.
      * simpl. rewrite Hh, Hs4. now rewrite <- !app_assoc.
      * apply Forall_app. split; [exact Hpre|].
        apply Forall_app. split; [exact HP | now repeat constructor].
  - intros e _. exists (preamble w info suiteLog ids ++ evs). split.
    + rewrite Hh, Hs4. now rewrite <- app_assoc.
    + apply Forall_app. now split.
Qed.

Lemma failed_run_writes_nothing_witness :
  exists calls,
    history (snd (Benchmark_models Samples.worldPredictThrows Samples.mnistLog
                    initialState)) = history initialState ++ calls /\
    Forall notAcceptedWrite calls.
Proof.
  apply (failed_run_writes_nothing Samples.worldPredictThrows Samples.mnistLog
           initialState (RejectedError (EvPredict (Tensor 2) false))).
  vm_compute. reflexivity.
Defined.

(** ** The run records and the random tensors *)

Lemma Dispatched_metadata ids m f tid pyRun xs ys evs tfjsRun :
  Dispatched ids m f tid pyRun xs ys evs (Some tfjsRun) ->
  taskType tfjsRun = taskType_model /\
  modelName tfjsRun = m /\
  functionName tfjsRun = f /\
  batchSize tfjsRun = batchSize pyRun /\
  numWarmUpIterations tfjsRun = numWarmUpIterations pyRun /\
  numBenchmarkedIterations tfjsRun = numBenchmarkedIterations pyRun /\
  (timesMs tfjsRun = None <-> f = "fit") /\
  loss tfjsRun = None /\ optimizer tfjsRun = None.
Proof.
  intro H. inversion H; subst; simpl; repeat split; try reflexivity;
    try discriminate.
Qed.

(** X9.  The measured runs carry the metadata of the reference runs.  In
    a completed run the entry of [tfjsRuns] at the position of a pair is a
    run record exactly when the function name is [predict] or [fit].  The
    record has the task type ["model"], the model name and the function
    name under which the pair is logged (the keys of the suite log, not the
    fields of the reference run), the batch size and the two iteration
    counts of the reference run, and the version set registered at the
    start, the same for all records.  It has no list of timings exactly
    when the function is [fit], and never a loss or an optimizer. *)
Theorem measured_runs_carry_reference_metadata (w : World) (suiteLog : SuiteLog)
    (s : State) :
  let result := Benchmark_models w suiteLog s in
  (forall py tfjs,
      fst result = Return (py, tfjs) ->
      exists versions,
        In (EvAddVersionSet (mkVersionSet (tf_version w)) (Some versions))
           (history (snd result)) /\
        forall i modelName' functionName' pyRun,
          nth_error (referenceRuns suiteLog) i
            = Some (modelName', (functionName', pyRun)) ->
          exists measured,
            nth_error tfjs i = Some measured /\
            (measured <> None <-> recognised functionName' = true) /\
            forall tfjsRun,
              measured = Some tfjsRun ->
              taskType tfjsRun = "model" /\
              modelName tfjsRun = modelName' /\
              functionName tfjsRun = functionName' /\
              batchSize tfjsRun = batchSize pyRun /\
              numWarmUpIterations tfjsRun = numWarmUpIterations pyRun /\
              numBenchmarkedIterations tfjsRun = numBenchmarkedIterations pyRun /\
              versionSetId tfjsRun = Some versions /\
              (timesMs tfjsRun = None <-> functionName' = "fit") /\
              loss tfjsRun = None /\ optimizer tfjsRun = None) /\
  (GoodWorld w -> tensorsAvailable w suiteLog -> wfSuiteLog suiteLog ->
   allReplayable suiteLog = true -> returns (fst result)).
Proof.
  intro result. subst result. split; [|apply Benchmark_models_succeeds].
  intros py tfjs Hret.
  destruct (Benchmark_models_returns _ _ _ _ _ Hret)
    as (info & ids & evs & _ & (Hh & _) & Hnw & Hall).
  exists (versionSet_Id ids). split.
  { rewrite Hh. apply in_or_app. right. unfold preamble. simpl. auto. }
  intros i m f pyRun Hnth.
  destruct (CollectedAll_nth _ _ _ _ _ _ _ Hall Hnth)
    as (py' & tfjs' & Hpy & Htf & id & xs & ys & calls & earlier & later
        & Hevs & -> & Hdisp).
  cbn [fst snd] in *.
  exists tfjs'. split; [exact Htf|].
  destruct (Dispatched_recognised _ _ _ _ _ _ _ _ _ Hdisp) as [Hyes Hno].
  split.
  - split.
    + intro Hsome. destruct (recognised f); [reflexivity|].
      now destruct Hsome; apply Hno.
    + intros Hrec Hnone. destruct (Hyes Hrec) as [run Hrun]. congruence.
  - intros tfjsRun ->.
    destruct (Dispatched_identifiers _ _ _ _ _ _ _ _ _ Hdisp) as (_ & _ & Hv & _).
    destruct (Dispatched_metadata _ _ _ _ _ _ _ _ _ Hdisp)
      as (H1 & H2 & H3 & H4 & H5 & H6 & H7 & H8 & H9).
    repeat split; try assumption; apply H7.
Qed.

Lemma singletonOrArray_Tensor (ids : list nat) :
  (exists t, singletonOrArray ids = Tensor t) <-> List.length ids = 1%nat.
Proof.
  destruct ids as [|a [|b r]]; simpl; split; try discriminate; try reflexivity.
  - intros [t Ht]. discriminate.
  - intros _. now exists a.
  - intros [t Ht]. discriminate.
Qed.

(** X10.  [getRandomInputsAndOutputs] makes no call that the harness
    records, and it returns exactly when the engine creates every random
    tensor it is asked for: one per model input and one per model output,
    of the batch size followed by the dimensions of the input or output
    after the first.  When it returns, it has created one fresh tensor per
    model input and, after those, one per model output, all distinct and
    alive on return, next to the tensors that were alive before; [xs] is a
    bare tensor exactly when the model has one input, and [ys] when it has
    one output; otherwise they are arrays (empty for a model without inputs
    or outputs).  When the engine refuses a shape, the error of the engine
    is thrown, and [tf.tidy] has disposed of the tensors created until then:
    the live tensors are those alive before. *)
Theorem getRandomInputsAndOutputs_fresh_tensors (w : World) (model : Model)
    (batchSize' : JS.number) (s : State) :
  wfState s ->
  let result := getRandomInputsAndOutputs w model batchSize' s in
  let i := List.length (inputs model) in
  let o := List.length (outputs model) in
  let created :=
    Forall (fun shape => tf_randomUniform_creates w (history s) shape = true)
           (shapesOf model batchSize') in
  history (snd result) = history s /\
  (returns (fst result) <-> created) /\
  (forall xs ys,
      fst result = Return (xs, ys) ->
      tensorIds xs = seq (nextTensorId s) i /\
      tensorIds ys = seq (nextTensorId s + i) o /\
      NoDup (tensorIds xs ++ tensorIds ys) /\
      liveTensors (snd result) = liveTensors s ++ tensorIds xs ++ tensorIds ys /\
      nextTensorId (snd result) = (nextTensorId s + i + o)%nat /\
      ((exists t, xs = Tensor t) <-> i = 1%nat) /\
      ((exists t, ys = Tensor t) <-> o = 1%nat)) /\
  (forall e,
      fst result = Throw e ->
      exists shape,
        e = RandomUniformError shape /\
        In shape (shapesOf model batchSize') /\
        tf_randomUniform_creates w (history s) shape = false /\
        liveTensors (snd result) = liveTensors s).
Proof.
  intros Hwf result i o created. subst result created.
  match goal with
  | |- context [fst (?m s)] =>
      pattern (fst (m s)), (snd (m s));
      match goal with |- ?Q _ _ => change (wp m s Q) end
  end.
  apply wp_getRandomInputsAndOutputs; cbv zeta; fold i o.
  - intros s' Hcreated Hh Hn Hl.
    split; [exact Hh|]. split; [split; [intros _; exact Hcreated|]|split].
    + intros _. eexists. reflexivity.
    + intros xs ys [= <- <-].
      rewrite !tensorIds_singletonOrArray, <- seq_app.
      split; [reflexivity|]. split; [reflexivity|].
      split; [apply seq_NoDup|]. split; [exact (Hl Hwf)|].
      split; [rewrite Hn; lia|].
      split.
      * rewrite singletonOrArray_Tensor. now rewrite length_seq.
      * rewrite singletonOrArray_Tensor. now rewrite length_seq.
    + discriminate.
  - intros shape s' Hin Hno Hh _ Hl.
    split; [exact Hh|]. split; [split|split].
    + intros [a Ha]. discriminate Ha.
    + intro Hall. rewrite Forall_forall in Hall. rewrite (Hall _ Hin) in Hno.
      discriminate.
    + discriminate.
    + intros e [= <-]. exists shape. auto.
Qed.

Lemma getRandomInputsAndOutputs_fresh_tensors_witness :
  fst (getRandomInputsAndOutputs Samples.world Samples.model (JS.Num 32) initialState)
  = Return (Tensor 0, Tensor 1) /\
  (forall e,
      fst (getRandomInputsAndOutputs Samples.world Samples.model (JS.Num 0)
             initialState) = Throw e ->
      e = RandomUniformError [Some (JS.Num 0); Some (JS.Num 4)]).
Proof.
  assert (Hwf : wfState initialState) by constructor.
  split; [reflexivity|].
  intros e He.
  destruct (getRandomInputsAndOutputs_fresh_tensors Samples.world Samples.model
              (JS.Num 0) initialState Hwf) as (_ & _ & _ & Hthrow).
  destruct (Hthrow e He) as (shape & -> & _). revert He. vm_compute.
  intros [= <-]. reflexivity.
Defined.

(** X11.  The environments and the version set are registered once per
    run, before the first model.  Only the first four calls of a run can
    be registrations; in a completed run these four are the registration of
    the browser environment, of the version set, the fetch of the suite log
    and the registration of the Python environment.  No call made later,
    for a model or a pair or to write the runs, is a registration, however
    many models there are and also when the run fails. *)
Theorem registrations_come_first (w : World) (suiteLog : SuiteLog) (s : State) :
  let result := Benchmark_models w suiteLog s in
  exists start rest,
    history (snd result) = history s ++ start ++ rest /\
    (List.length start <= 4)%nat /\
    Forall (fun e => ~ isRegistration e) rest /\
    (returns (fst result) ->
     exists info ids, detected w info /\ start = preamble w info suiteLog ids).
Proof.
  cbv zeta.
  match goal with
  | |- context [fst (?m s)] =>
      pattern (fst (m s)), (snd (m s));
      match goal with |- ?Q _ _ => change (wp m s Q) end
  end.
  unfold Benchmark_models, addEnvironmentInfoToFirestore, addVersionSetToFirestore,
    addBenchmarkRunsToFirestore.
  cbn zeta.
  assert (Hfail : forall e : Exception, ~ returns (@Throw Runs e)).
  { intros e [a Ha]. discriminate Ha. }
  apply wp_bind, wp_getBrowserEnvironmentInfo; [intros info Hinfo | intros _];
    [|exists [], []; split; [now rewrite app_nil_r|]; split; [simpl; lia|];
      split; [constructor|]; intro H; now destruct (Hfail _ H)].
  apply wp_bind, wp_call; [intros tfjsEnv _ | intros _];
    [|exists [EvAddEnvironmentInfo info None], [];
      split; [reflexivity|]; split; [simpl; lia|]; split; [constructor|];
      intro H; now destruct (Hfail _ H)].
  apply wp_bind, wp_call; [intros vs _ | intros _];
    [|eexists [_; _], []; split; [simpl; rewrite <- !app_assoc; reflexivity|];
      split; [simpl; lia|]; split; [constructor|];
      intro H; now destruct (Hfail _ H)].
  apply wp_bind, wp_emit.
  apply wp_bind, wp_call; [intros pyEnv _ | intros _];
    [|eexists [_; _; _; _], []; split; [simpl; rewrite <- !app_assoc; reflexivity|];
      split; [simpl; lia|]; split; [constructor|];
      intro H; now destruct (Hfail _ H)].
  set (s4 := recorded _ _). set (ids := mkIds tfjsEnv vs pyEnv).
  assert (Hs4 : history s4 = history s ++ preamble w info suiteLog ids).
  { unfold s4, preamble. simpl. now rewrite <- !app_assoc. }
  clearbody s4.
  apply wp_bind.
  destruct (disciplined_forEach loopCall (getChronologicalModelNames suiteLog)
              (benchmarkModel w ids suiteLog) ([], [])
              (disciplined_benchmarkModel w ids suiteLog) s4)
    as (evs & Hh & HP & _).
  apply (Forall_impl _ loopCall_notRegistration) in HP.
  unfold wp at 1.
  destruct (forEach _ _ _ s4) as [[runs|e'] s5]; simpl in Hh |- *.
  - assert (Hw : forall ok,
               exists start rest,
                 history (recorded s5 (EvAddBenchmarkRuns (fst runs) ok)) =
                   history s ++ start ++ rest /\
                 (List.length start <= 4)%nat /\
                 Forall (fun e => ~ isRegistration e) rest /\
                 start = preamble w info suiteLog ids).
    { intro ok.
      exists (preamble w info suiteLog ids), (evs ++ [EvAddBenchmarkRuns (fst runs) ok]).
      split; [simpl; rewrite Hh, Hs4; now rewrite <- !app_assoc|].
      split; [simpl; lia|]. split; [|reflexivity].
      apply Forall_app. split; [exact HP|]. constructor; [exact (fun H => H) | constructor]. }
    apply wp_bind, wp_callOk; intros _.
    + apply wp_ret. destruct (Hw true) as (start & rest & H1 & H2 & H3 & H4).
      exists start, rest. split; [exact H1|]. split; [exact H2|].
      split; [exact H3|]. intros _. now exists info, ids.
    + destruct (Hw false) as (start & rest & H1 & H2 & H3 & H4).
      exists start, rest. split; [exact H1|]. split; [exact H2|].
      split; [exact H3|]. intros _. now exists info, ids.
  - exists (preamble w info suiteLog ids), evs.
    split; [rewrite Hh, Hs4; now rewrite <- app_assoc|].
    split; [simpl; lia|]. split; [exact HP|]. intros _. now exists info, ids.
Qed.

(** [lowerAscii] replaces an upper-case letter by its lower-case partner
    and keeps every other character. *)
Lemma lowerAscii_spec (c : ascii) :
  In (c, JS.lowerAscii c) (combine upperCaseLetters lowerCaseLetters) \/
  (~ isUpperCase c /\ JS.lowerAscii c = c).
Proof.
  destruct c as [[] [] [] [] [] [] [] []];
    first [ solve [left; vm_compute; repeat first [left; reflexivity | right]]
          | right; split; [|reflexivity];
            intro H; vm_compute in H;
            repeat (destruct H as [H|H]; [discriminate H|]); exact H ].
Qed.

Lemma toLowerCase_LowerCaseOf (s : string) : LowerCaseOf s (JS.toLowerCase s).
Proof.
  induction s as [|c r IH]; simpl; [constructor|].
  destruct (lowerAscii_spec c) as [Hletter|[Hkept ->]].
  - now apply LowerCaseLetter.
  - now apply LowerCaseKept.
Qed.

Lemma lowerCaseLetter_not_upper (c c' : ascii) :
  In (c, c') (combine upperCaseLetters lowerCaseLetters) -> ~ isUpperCase c'.
Proof.
  intros H Hup. vm_compute in H.
  repeat (destruct H as [H|H];
          [injection H as <- <-; vm_compute in Hup;
           repeat (destruct Hup as [Hup|Hup]; [discriminate Hup|]); exact Hup|]).
  exact H.
Qed.

Lemma LowerCaseOf_not_upper (reported name : string) :
  LowerCaseOf reported name ->
  Forall (fun c => ~ isUpperCase c) (list_ascii_of_string name).
Proof.
  induction 1 as [|c r r' Hc _ IH|c c' r r' Hc _ IH]; simpl; constructor; auto.
  eapply lowerCaseLetter_not_upper, Hc.
Qed.

Lemma list_ascii_of_string_app (a b : string) :
  list_ascii_of_string (a ++ b) = list_ascii_of_string a ++ list_ascii_of_string b.
Proof. induction a as [|c r IH]; simpl; [reflexivity | now rewrite IH]. Qed.

(** X12.  The description of the browser environment.  When the detection
    library recognises the system and the browser, the description is
    returned without any call: its type is the browser name, a hyphen and
    the system name, where each name is what the library reported with
    every upper-case letter replaced by its lower-case partner and every
    other character kept, so that the type holds no upper-case letter; the
    user agent is passed on as it is.  When the library does not recognise
    the system or the browser, a type error is thrown. *)
Theorem browser_environment_type_is_lower_case (w : World) (s : State) :
  match detectBrowser_detectOS w (navigator_userAgent w),
        detectBrowser_detect_name w with
  | Some os, Some browser =>
      exists browserName osName,
        getBrowserEnvironmentInfo w s =
          (Return (BrowserEnvironmentInfo (browserName ++ "-" ++ osName)
                                          (navigator_userAgent w)), s) /\
        LowerCaseOf browser browserName /\
        LowerCaseOf os osName /\
        Forall (fun c => ~ isUpperCase c)
               (list_ascii_of_string (browserName ++ "-" ++ osName))
  | _, _ => getBrowserEnvironmentInfo w s = (Throw TypeError, s)
  end.
Proof.
  unfold getBrowserEnvironmentInfo, getBrowserEnvironmentType, bind, nonNull.
  destruct (detectBrowser_detectOS w (navigator_userAgent w)) as [os|];
    [|reflexivity].
  destruct (detectBrowser_detect_name w) as [browser|]; [|reflexivity].
  exists (JS.toLowerCase browser), (JS.toLowerCase os).
  split; [reflexivity|].
  split; [apply toLowerCase_LowerCaseOf|].
  split; [apply toLowerCase_LowerCaseOf|].
  rewrite !list_ascii_of_string_app. apply Forall_app. split.
  - eapply LowerCaseOf_not_upper, toLowerCase_LowerCaseOf.
  - apply Forall_app. split.
    + constructor; [|constructor]. intro H. vm_compute in H.
      repeat (destruct H as [H|H]; [discriminate H|]). exact H.
    + eapply LowerCaseOf_not_upper, toLowerCase_LowerCaseOf.
Qed.

(** ** The script that starts the benchmarks *)

Lemma parseArguments_flags (flags : list Script.Flag) (v : Script.Variables)
    (tail : list string) :
  Script.parseArguments v (flat_map Script.flagWords flags ++ tail) =
  Script.parseArguments
    (Script.mkVariables (Script.lastPort flags (Script.DATA_PORT v))
       (if existsb Script.isSkip flags then "1" else Script.SKIP_PY_BENCHMAKRS v))
    tail.
Proof.
  revert v. induction flags as [|[value|] flags IH]; intro v.
  - now destruct v.
  - simpl. rewrite IH. reflexivity.
  - simpl. rewrite IH. simpl. now destruct (existsb Script.isSkip flags).
Qed.

Lemma unrecognized_dec (arg : string) :
  arg = "--port" \/ arg = "--skip_py_benchmarks" \/ arg = "" \/ Script.unrecognized arg.
Proof.
  unfold Script.unrecognized.
  destruct (String.eqb_spec arg "--port"); [now left|].
  destruct (String.eqb_spec arg "--skip_py_benchmarks"); [now right; left|].
  destruct (String.eqb_spec arg ""); [now right; right; left|].
  right. right. right. auto.
Qed.

Lemma parseArguments_unrecognized (v : Script.Variables) (arg : string)
    (rest : list string) :
  Script.unrecognized arg ->
  Script.parseArguments v (arg :: rest) = Script.Unrecognized arg.
Proof.
  intros (Hp & Hs & He). simpl.
  apply String.eqb_neq in Hp, Hs, He. now rewrite Hp, Hs, He.
Qed.

Lemma arguments_decompose (n : nat) (args : list string) :
  (List.length args <= n)%nat ->
  exists flags tail,
    args = flat_map Script.flagWords flags ++ tail /\
    (tail = [] \/ (exists rest, tail = "" :: rest) \/ tail = ["--port"] \/
     exists arg rest, tail = arg :: rest /\ Script.unrecognized arg).
Proof.
  revert args. induction n as [|n IH]; intros args Hlen.
  - destruct args; [|simpl in Hlen; lia]. exists [], []. auto.
  - destruct args as [|arg rest]; [exists [], []; auto|].
    simpl in Hlen.
    destruct (unrecognized_dec arg) as [->|[->|[->|Hun]]].
    + destruct rest as [|value rest]; [exists [], ["--port"]; auto|].
      simpl in Hlen.
      destruct (IH rest ltac:(lia)) as (flags & tail & -> & Htail).
      exists (Script.Port value :: flags), tail. auto.
    + destruct (IH rest ltac:(lia)) as (flags & tail & -> & Htail).
      exists (Script.SkipPyBenchmarks :: flags), tail. auto.
    + exists [], ("" :: rest). split; [reflexivity|]. right. left. now exists rest.
    + exists [], (arg :: rest). split; [reflexivity|]. right. right. right.
      now exists arg, rest.
Qed.

(** X13.  The argument loop of the script reads options from the left:
    [--port] with the word after it, whatever that word is, and
    [--skip_py_benchmarks].  Every list of arguments is such a list of
    options followed by a tail that decides how the loop ends.  With no
    tail, or at an empty argument (what follows it is ignored), the loop
    ends normally: the port is the word of the last [--port] option and
    the skip flag is 1 exactly when [--skip_py_benchmarks] was among the
    options.  With [--port] as the last argument, [shift 2] fails.  At any
    other argument the loop stops at that argument as unrecognised. *)
Theorem argument_loop_classification (v : Script.Variables) (args : list string) :
  exists flags tail,
    args = flat_map Script.flagWords flags ++ tail /\
    let v' := Script.mkVariables
                (Script.lastPort flags (Script.DATA_PORT v))
                (if existsb Script.isSkip flags then "1"
                 else Script.SKIP_PY_BENCHMAKRS v) in
    (((tail = [] \/ exists rest, tail = "" :: rest) /\
      Script.parseArguments v args = Script.Break v') \/
     (tail = ["--port"] /\ Script.parseArguments v args = Script.ShiftFailed) \/
     (exists arg rest,
         tail = arg :: rest /\ Script.unrecognized arg /\
         Script.parseArguments v args = Script.Unrecognized arg)).
Proof.
  destruct (arguments_decompose (List.length args) args (le_n _))
    as (flags & tail & -> & Htail).
  exists flags, tail. split; [reflexivity|]. cbn zeta.
  rewrite parseArguments_flags.
  destruct Htail as [->|[[rest ->]|[->|(arg & rest & -> & Hun)]]].
  - left. auto.
  - left. split; [right; now exists rest | reflexivity].
  - right. left. auto.
  - right. right. exists arg, rest. split; [reflexivity|]. split; [exact Hun|].
    now apply parseArguments_unrecognized.
Qed.

(** X15.  Rejected arguments run nothing.  At an unrecognised argument
    after any options the script prints the error message with that
    argument and exits with status 1; with [--port] as the last argument it
    exits with status 1 without a message.  In both cases no command has
    been run. *)
Theorem rejected_arguments_run_nothing (m : Script.Machine) (flags : list Script.Flag)
    (arg : string) (rest : list string) :
  Script.unrecognized arg ->
  Script.runScript m (flat_map Script.flagWords flags ++ arg :: rest) =
    (Script.Exit 1, [Script.Echo ("ERROR: Unrecognized argument: " ++ arg)]) /\
  Script.runScript m (flat_map Script.flagWords flags ++ ["--port"]) =
    (Script.Exit 1, []).
Proof.
  intro Hun. unfold Script.runScript, Script.main.
  rewrite !parseArguments_flags, parseArguments_unrecognized by exact Hun.
  split; reflexivity.
Qed.

Lemma rejected_arguments_run_nothing_witness :
  Script.runScript Script.obliging ["--skip_py_benchmarks"; "--help"; "--port"] =
    (Script.Exit 1, [Script.Echo "ERROR: Unrecognized argument: --help"]) /\
  Script.runScript Script.obliging ["--skip_py_benchmarks"; "--port"] =
    (Script.Exit 1, []).
Proof.
  apply (rejected_arguments_run_nothing Script.obliging [Script.SkipPyBenchmarks]
           "--help" ["--port"]).
  unfold Script.unrecognized. repeat split; discriminate.
Defined.

Ltac script_paths :=
  cbv delta [Script.pythonBenchmarks Script.cleanUp Script.andThen Script.echo
             Script.run Script.capture Script.testDirectory Script.exit
             Script.continue];
  repeat (cbn beta iota zeta delta [app fst snd negb];
          match goal with
          | |- context [match Script.exitStatus ?m ?h ?c with _ => _ end] =>
              destruct (Script.exitStatus m h c) eqn:?
          | |- context [Script.directoryExists ?m ?h ?d] =>
              destruct (Script.directoryExists m h d) eqn:?
          end);
  cbn beta iota zeta delta [app fst snd negb].

Lemma Break_skip (flags : list Script.Flag) (tail : list string) :
  tail = [] \/ (exists rest, tail = "" :: rest) ->
  Script.parseArguments Script.initialVariables (flat_map Script.flagWords flags ++ tail)
  = Script.Break (Script.mkVariables (Script.lastPort flags "8090")
                    (if existsb Script.isSkip flags then "1" else "0")).
Proof.
  intro Htail. rewrite parseArguments_flags.
  destruct Htail as [->|[rest ->]]; reflexivity.
Qed.

(** X16.  With [--skip_py_benchmarks] among the accepted options the
    script runs no command of the Python part: no [pip], [mktemp],
    [virtualenv], [source], [python], [deactivate] or [rm]. *)
Theorem skip_flag_skips_python (m : Script.Machine) (flags : list Script.Flag)
    (tail : list string) :
  tail = [] \/ (exists rest, tail = "" :: rest) ->
  In Script.SkipPyBenchmarks flags ->
  Forall (fun c => ~ Script.isPythonStep c)
         (snd (Script.runScript m (flat_map Script.flagWords flags ++ tail))).
Proof.
  intros Htail Hin. unfold Script.runScript, Script.main.
  rewrite (Break_skip _ _ Htail).
  assert (Hskip : existsb Script.isSkip flags = true).
  { apply existsb_exists. now exists Script.SkipPyBenchmarks. }
  rewrite Hskip. cbn [Script.SKIP_PY_BENCHMAKRS String.eqb Ascii.eqb Bool.eqb andb].
  script_paths.
  all: repeat (apply Forall_cons || apply Forall_nil).
  all: simpl; try tauto.
  all: intuition congruence.
Qed.

Lemma skip_flag_skips_python_witness :
  Forall (fun c => ~ Script.isPythonStep c)
         (snd (Script.runScript Script.obliging ["--port"; "1"; "--skip_py_benchmarks"])).
Proof.
  apply (skip_flag_skips_python Script.obliging
           [Script.Port "1"; Script.SkipPyBenchmarks] []).
  - now left.
  - simpl. auto.
Defined.



Ltac script_cases v Hskip :=
  unfold Script.runScript, Script.main;
  match goal with
  | |- context [Script.parseArguments ?v0 ?a] =>
      destruct (Script.parseArguments v0 a) as [v| |?] eqn:Hparse
  end;
  [destruct (String.eqb (Script.SKIP_PY_BENCHMAKRS v) "0") eqn:Hskip|..];
  script_paths.

(** X17.  The exit status of the script.  When the script runs to its
    end, its last command is the start of the Karma tests, which
    succeeded.  Otherwise the status is not zero, and it is: 1 for rejected
    arguments, with nothing run but the message; or 1 when the data root
    is not a directory, right after the test and the message; or the status
    of the last command run, which failed. *)
Theorem exit_status_of_the_script (m : Script.Machine) (args : list string) :
  let outcome := fst (Script.runScript m args) in
  let trace := snd (Script.runScript m args) in
  let DATA_ROOT := (Script.scriptDir m ++ "/data")%string in
  match outcome with
  | Script.Continue _ =>
      exists before,
        trace = before ++ [Script.karmaStart] /\
        Script.exitStatus m before Script.karmaStart = 0%nat
  | Script.Exit status =>
      status <> 0%nat /\
      ((status = 1%nat /\ Forall Script.isEcho trace /\
        forall v, Script.parseArguments Script.initialVariables args <> Script.Break v) \/
       (status = 1%nat /\
        exists before,
          trace = before ++
                  [Script.TestDirectory DATA_ROOT;
                   Script.Echo ("Cannot find data root directory: " ++ DATA_ROOT)] /\
          Script.directoryExists m before DATA_ROOT = false) \/
       (exists before c,
           trace = before ++ [c] /\ Script.exitStatus m before c = status))
  end.
Proof.
  cbv zeta. unfold Script.initialVariables.
  script_cases v Hskip.
  all: try (split; [discriminate|]).
  all: try match goal with
           | |- exists before, ?l = before ++ [Script.karmaStart] /\ _ =>
               exists (removelast l); split; [reflexivity | assumption]
           end.
  all: try match goal with
           | H : Script.exitStatus _ _ _ = S ?n |- context [?l = _ ++ [_] /\ _ = S ?n] =>
               right; right;
               exists (removelast l), (last l (Script.Echo ""));
               split; [reflexivity | exact H]
           end.
  all: try match goal with
           | H : Script.directoryExists _ ?h _ = false |- _ =>
               right; left; split; [reflexivity|];
               exists h; split; [reflexivity | exact H]
           end.

  all: left; split; [reflexivity|]; split; [repeat constructor | discriminate].
Qed.

(** X18.  The virtualenv directory is removed only after the Python
    benchmarks succeeded: when [rm -rf] is run on a directory, this is the
    directory the virtualenv was created in, and [benchmarks.py] ran before
    and returned status 0.  A failure up to there leaves the directory
    behind. *)
Theorem virtualenv_removed_only_after_benchmarks (m : Script.Machine)
    (args : list string) (d : string) :
  In (Script.Run ["rm"; "-rf"; d]) (snd (Script.runScript m args)) ->
  exists before after,
    snd (Script.runScript m args) = before ++ Script.benchmarksPy m :: after /\
    Script.exitStatus m before (Script.benchmarksPy m) = 0%nat /\
    In (Script.Run ["virtualenv"; d]) before.
Proof.
  unfold Script.benchmarksPy.
  script_cases v Hskip.
  all: intro Hin; simpl in Hin.
  all: repeat (destruct Hin as [Hin|Hin]; [try discriminate Hin|]);
    try contradiction.
  all: injection Hin as <-.
  all: match goal with
       | |- exists before after, ?l = _ /\ _ =>
           exists (firstn 9 l), (skipn 10 l);
           split; [reflexivity|]; split; [assumption|]; simpl; auto 10
       end.
Qed.

Lemma virtualenv_removed_only_after_benchmarks_witness :
  exists before after,
    snd (Script.runScript Script.obliging []) =
      before ++ Script.benchmarksPy Script.obliging :: after /\
    Script.exitStatus Script.obliging before (Script.benchmarksPy Script.obliging) = 0%nat /\
    In (Script.Run ["virtualenv"; "/tmp/venv"]) before.
Proof.
  apply (virtualenv_removed_only_after_benchmarks Script.obliging [] "/tmp/venv").
  vm_compute. auto 20.
Defined.

(** X19.  The Karma tests are started last and only with the data at
    hand: when they are started, the commands before are the test that the
    data root is a directory, which it was, the change to the directory of
    the script and [yarn], which succeeded.  Without the skip flag the
    Python benchmarks and the removal of the virtualenv come before that;
    with it, nothing does. *)
Theorem tests_start_last_and_only_with_data (m : Script.Machine) (args : list string) :
  let trace := snd (Script.runScript m args) in
  let DATA_ROOT := (Script.scriptDir m ++ "/data")%string in
  In Script.karmaStart trace ->
  exists before v,
    trace = before ++
            [Script.TestDirectory DATA_ROOT; Script.Cd (Script.scriptDir m);
             Script.Run ["yarn"]; Script.Echo "Starting benchmark tests...";
             Script.karmaStart] /\
    Script.directoryExists m before DATA_ROOT = true /\
    Script.exitStatus m (before ++ [Script.TestDirectory DATA_ROOT;
                                    Script.Cd (Script.scriptDir m)])
      (Script.Run ["yarn"]) = 0%nat /\
    Script.parseArguments Script.initialVariables args = Script.Break v /\
    (Script.SKIP_PY_BENCHMAKRS v = "0" ->
     In (Script.benchmarksPy m) before /\
     exists d, In (Script.Run ["rm"; "-rf"; d]) before) /\
    (Script.SKIP_PY_BENCHMAKRS v <> "0" -> before = []).
Proof.
  cbv zeta. unfold Script.benchmarksPy, Script.karmaStart, Script.initialVariables.
  script_cases v Hskip.
  all: intro Hin; simpl in Hin.
  all: repeat (destruct Hin as [Hin|Hin]; [try discriminate Hin|]);
    try contradiction.
  all: clear Hin.
  all: match goal with
       | |- exists before v', ?l = _ /\ _ =>
           exists (firstn (List.length l - 5) l), v
       end.
  all: cbn [List.length Nat.sub firstn app].
  all: split; [reflexivity|]; split; [assumption|]; split; [assumption|];
    split; [reflexivity|].
  all: split; intro Hs.
  all: first [ reflexivity
             | solve [split; [simpl; auto 20 | eexists; simpl; auto 20]]
             | apply String.eqb_neq in Hskip; contradiction
             | apply String.eqb_eq in Hskip; contradiction ].
Qed.

Lemma tests_start_last_and_only_with_data_witness :
  exists before v,
    snd (Script.runScript Script.obliging ["--skip_py_benchmarks"]) =
      before ++
      [Script.TestDirectory "/repo/benchmarks/data"; Script.Cd "/repo/benchmarks";
       Script.Run ["yarn"]; Script.Echo "Starting benchmark tests...";
       Script.karmaStart] /\
    Script.directoryExists Script.obliging before "/repo/benchmarks/data" = true /\
    Script.exitStatus Script.obliging
      (before ++ [Script.TestDirectory "/repo/benchmarks/data";
                  Script.Cd "/repo/benchmarks"])
      (Script.Run ["yarn"]) = 0%nat /\
    Script.parseArguments Script.initialVariables ["--skip_py_benchmarks"]
      = Script.Break v /\
    (Script.SKIP_PY_BENCHMAKRS v = "0" ->
     In (Script.benchmarksPy Script.obliging) before /\
     exists d, In (Script.Run ["rm"; "-rf"; d]) before) /\
    (Script.SKIP_PY_BENCHMAKRS v <> "0" -> before = []).
Proof.
  apply (tests_start_last_and_only_with_data Script.obliging ["--skip_py_benchmarks"]).
  vm_compute. auto 20.
Defined.
